(** * Rating platform: a shallow embedding of the Express back end
      (backend/server.js with db/schema.sql), of the seed script
      (db/seedData.js) and of the API layer, the form validation and the
      rating helpers of the React front end, with the properties of its
      specification and further properties of the code.

    Conventions of the embedding.
    - A JavaScript Number is an IEEE-754 double.  Finite doubles are kept as
      the exact rational they denote; every arithmetic result is rounded to
      the nearest double, ties to even ([round64]).  The two zeros are not
      told apart.
    - A JavaScript string is a [string]: one [ascii] stands for one UTF-16
      code unit, so the embedding covers the 8-bit code units.
    - Fields of a JSON request body are the JSON scalars, or absent; arrays
      and nested objects inside a body are not modelled.
    - A JavaScript object whose keys are looked up, deleted and spread is a
      [gmap string JsValue].
    - What the program gets from its libraries and from the language run
      time without the repository defining it (jsonwebtoken, bcrypt, the
      conversions between strings and numbers, the text input of an
      [INTEGER] in PostgreSQL) is a field of [Externals].
    - PostgreSQL is modelled by its tables, sequences and the constraints of
      db/schema.sql; the storage is assumed to be reachable, so a statement
      fails only on a constraint, a malformed parameter or a sequence that
      has run out. *)

From Stdlib Require Import Ascii String ZArith QArith Qround Qabs Qpower Qcanon.
From Stdlib Require Import SpecFloat Lia Lra Lqa.
From stdpp Require Import base strings gmap list pretty sorting.

Local Open Scope Z_scope.

(** ** JavaScript numbers *)

Module Js.

Inductive number :=
  | NaN
  | Infinity (neg : bool)
  | Fin (q : Q).

Definition pow2 (e : Z) : Q := Qpower 2 e.

(** [Qlog2 q] is the integer [e] with [2^e <= q < 2^(e+1)], for [0 < q]. *)
Definition Qlog2 (q : Q) : Z :=
  let e0 := Z.log2 (Qnum q) - Z.log2 (Zpos (Qden q)) in
  if Qle_bool (pow2 e0) q then e0 else e0 - 1.

Definition round_half_even (x : Q) : Z :=
  let f := Qfloor x in
  match (x - inject_Z f ?= 1 # 2)%Q with
  | Lt => f
  | Gt => f + 1
  | Eq => if Z.even f then f else f + 1
  end.

(** Rounding of an exact result to binary64: 53 bits of precision, the
    exponent not below that of the subnormals, overflow to an infinity. *)
Definition round64 (q : Q) : number :=
  if Qeq_bool q 0 then Fin 0 else
  let a := Qabs q in
  let e := Z.max (Qlog2 a) (-1022) in
  let ulp := pow2 (e - 52) in
  let v := (inject_Z (round_half_even (a / ulp)) * ulp)%Q in
  if Qle_bool (pow2 1024) v then Infinity (negb (Qle_bool 0 q))
  else Fin (Qred (if Qle_bool 0 q then v else - v)).

Definition of_Z (z : Z) : number := round64 (inject_Z z).

(** [x + y] *)
Definition add (x y : number) : number :=
  match x, y with
  | NaN, _ | _, NaN => NaN
  | Infinity a, Infinity b => if Bool.eqb a b then Infinity a else NaN
  | Infinity a, Fin _ | Fin _, Infinity a => Infinity a
  | Fin a, Fin b => round64 (a + b)
  end.

Definition is_neg (q : Q) : bool := negb (Qle_bool 0 q).

(** [x / y] *)
Definition div (x y : number) : number :=
  match x, y with
  | NaN, _ | _, NaN => NaN
  | Infinity _, Infinity _ => NaN
  | Infinity a, Fin b => Infinity (xorb a (is_neg b))
  | Fin _, Infinity _ => Fin 0
  | Fin a, Fin b =>
      if Qeq_bool b 0 then (if Qeq_bool a 0 then NaN else Infinity (is_neg a))
      else round64 (a / b)
  end.

(** [x < y]: false as soon as one side is NaN. *)
Definition lt (x y : number) : bool :=
  match x, y with
  | NaN, _ | _, NaN => false
  | Infinity a, Infinity b => a && negb b
  | Infinity a, Fin _ => a
  | Fin _, Infinity b => negb b
  | Fin a, Fin b => negb (Qle_bool b a)
  end.

Definition gt (x y : number) : bool := lt y x.

Definition isNaN (x : number) : bool :=
  match x with NaN => true | _ => false end.

(** [x === y] on two numbers. *)
Definition num_eq (x y : number) : bool :=
  match x, y with
  | Fin a, Fin b => Qeq_bool a b
  | Infinity a, Infinity b => Bool.eqb a b
  | _, _ => false
  end.

(** The value of a float of the library's specification of IEEE-754, and
    a quotient of two positive integers computed by it in binary64: what
    [div] is compared with. *)
Definition of_spec_float (x : spec_float) : number :=
  match x with
  | S754_zero _ => Fin 0
  | S754_infinity s => Infinity s
  | S754_nan => NaN
  | S754_finite s m e =>
      Fin (Qred (inject_Z (if s then Zneg m else Zpos m) * pow2 e))
  end.

Definition spec_div (x y : positive) : number :=
  of_spec_float (SFdiv 53 1024 (S754_finite false x 0) (S754_finite false y 0)).

(** ** JavaScript values *)

Inductive JsValue :=
  | JUndefined
  | JNull
  | JBool (b : bool)
  | JNum (n : number)
  | JStr (s : string).

Definition JInt (z : Z) : JsValue := JNum (Fin (inject_Z z)).

(** [!!v] *)
Definition truthy (v : JsValue) : bool :=
  match v with
  | JUndefined | JNull => false
  | JBool b => b
  | JNum (Fin q) => negb (Qeq_bool q 0)
  | JNum NaN => false
  | JNum (Infinity _) => true
  | JStr s => negb (String.eqb s "")
  end.

(** [a === b]: no conversion, values of different types are different. *)
Definition strict_eq (a b : JsValue) : bool :=
  match a, b with
  | JUndefined, JUndefined | JNull, JNull => true
  | JBool x, JBool y => Bool.eqb x y
  | JNum x, JNum y => num_eq x y
  | JStr x, JStr y => String.eqb x y
  | _, _ => false
  end.

(** [v.length], read on a value that is neither [undefined] nor [null]
    (the validators test [!v] first): the length of a string, [undefined]
    on a number or a boolean. *)
Definition length_of (v : JsValue) : JsValue :=
  match v with
  | JStr s => JInt (Z.of_nat (String.length s))
  | _ => JUndefined
  end.

(** ** What the run time and the libraries provide *)

Record Payload := { p_id : Z; p_email : string; p_role : string }.

Record Externals := {
  (** [Number(s)] on a string *)
  StringToNumber : string -> number;
  (** [String(n)] on a number *)
  NumberToString : number -> string;
  (** [parseInt(s)] *)
  parseInt : string -> number;
  (** [jwt.sign(payload, JWT_SECRET, { expiresIn: '24h' })] at a time *)
  jwt_sign : Z -> Payload -> string;
  (** [jwt.verify(token, JWT_SECRET, cb)] at a time: [None] is [err] *)
  jwt_verify : Z -> string -> option Payload;
  (** [await bcrypt.hash(data, SALT_ROUNDS)] with the salt it draws:
      [None] is a rejected promise *)
  bcrypt_hash : string -> JsValue -> option string;
  (** [await bcrypt.compare(data, hash)]: [None] is a rejected promise *)
  bcrypt_compare : JsValue -> string -> option bool;
  (** the text input of a PostgreSQL [INTEGER]: [None] is a rejected text *)
  pg_int4in : string -> option Z
}.

Section Conversions.
Context (E : Externals).

(** [Number(v)] *)
Definition ToNumber (v : JsValue) : number :=
  match v with
  | JUndefined => NaN
  | JNull => Fin 0
  | JBool b => if b then Fin 1 else Fin 0
  | JNum n => n
  | JStr s => StringToNumber E s
  end.

(** [String(v)], as a regular expression applies it to its argument. *)
Definition ToString (v : JsValue) : string :=
  match v with
  | JUndefined => "undefined"
  | JNull => "null"
  | JBool b => if b then "true" else "false"
  | JNum n => NumberToString E n
  | JStr s => s
  end.

(** [a < b] and [a > b] when neither side is a string. *)
Definition js_lt (a b : JsValue) : bool := lt (ToNumber a) (ToNumber b).
Definition js_gt (a b : JsValue) : bool := gt (ToNumber a) (ToNumber b).

(** [x.toFixed(1)]: with [n] the integer for which [n / 10 - x] is
    closest to zero, the larger one of two, the digits of [n] with a
    point before the last one. *)
Definition toFixed1 (x : number) : string :=
  match x with
  | Fin q =>
      let a := Qabs q in
      if Qle_bool (inject_Z (10 ^ 21)) a then NumberToString E x else
      let n := Qfloor (a * 10 + (1 # 2)) in
      let m := pretty (n / 10) +:+ "." +:+ pretty (n mod 10) in
      if is_neg q then "-" +:+ m else m
  | _ => NumberToString E x
  end.

End Conversions.

End Js.

(** ** Regular expressions

    The patterns of server.js are kept as syntax trees and run by
    derivatives; [lang] is what a pattern denotes. *)

Module Regex.

Inductive regex :=
  | Void
  | Eps
  | Class (p : ascii -> bool)
  | Seq (r s : regex)
  | Alt (r s : regex)
  | Star (r : regex).

(** [r+] *)
Definition Plus (r : regex) : regex := Seq r (Star r).

Fixpoint nullable (r : regex) : bool :=
  match r with
  | Void => false
  | Eps => true
  | Class _ => false
  | Seq r s => nullable r && nullable s
  | Alt r s => nullable r || nullable s
  | Star _ => true
  end.

Fixpoint deriv (c : ascii) (r : regex) : regex :=
  match r with
  | Void | Eps => Void
  | Class p => if p c then Eps else Void
  | Seq r s =>
      if nullable r then Alt (Seq (deriv c r) s) (deriv c s)
      else Seq (deriv c r) s
  | Alt r s => Alt (deriv c r) (deriv c s)
  | Star r => Seq (deriv c r) (Star r)
  end.

(** [/^r$/.test(s)] *)
Fixpoint matches (r : regex) (s : string) : bool :=
  match s with
  | EmptyString => nullable r
  | String c s' => matches (deriv c r) s'
  end.

Definition any : regex := Class (fun _ => true).

(** [/r/.test(s)]: without anchors the pattern may match anywhere. *)
Definition test (r : regex) (s : string) : bool :=
  matches (Seq (Star any) (Seq r (Star any))) s.

Inductive lang : regex -> string -> Prop :=
  | lang_eps : lang Eps ""
  | lang_class p c : p c = true -> lang (Class p) (String c "")
  | lang_seq r s u v : lang r u -> lang s v -> lang (Seq r s) (u +:+ v)
  | lang_alt_l r s u : lang r u -> lang (Alt r s) u
  | lang_alt_r r s u : lang s u -> lang (Alt r s) u
  | lang_star_nil r : lang (Star r) ""
  | lang_star_cons r u v :
      lang r u -> lang (Star r) v -> lang (Star r) (u +:+ v).

(** Character classes of the patterns. *)

Definition in_range (lo hi : ascii) (c : ascii) : bool :=
  (nat_of_ascii lo <=? nat_of_ascii c)%nat && (nat_of_ascii c <=? nat_of_ascii hi)%nat.

Definition one_of (l : string) (c : ascii) : bool :=
  existsb (Ascii.eqb c) (list_ascii_of_string l).

(** [\s] on 8-bit code units: TAB, LF, VT, FF, CR, space and the
    no-break space. *)
Definition white_space (c : ascii) : bool :=
  let n := nat_of_ascii c in
  ((9 <=? n)%nat && (n <=? 13)%nat) || (n =? 32)%nat || (n =? 160)%nat.

End Regex.

(** ** PostgreSQL: the tables and constraints of db/schema.sql

    The two timestamp columns of every table and the trigger that keeps
    [updated_at] are left out: no query of the program reads them. *)

Module Pg.

Record UserRow := {
  u_id : Z;
  u_name : string;
  u_email : string;
  u_password : string;
  u_address : option string;
  u_role : string
}.

Record StoreRow := {
  s_id : Z;
  s_name : string;
  s_email : string;
  s_address : option string;
  s_owner_id : Z
}.

Record RatingRow := {
  r_id : Z;
  r_user_id : Z;
  r_store_id : Z;
  r_rating : Z
}.

(** The three tables and the sequences behind their [SERIAL] keys: a
    sequence holds the value its next [nextval] returns, and has run out
    once that value is past the last key of 32 bits. *)
Record Db := {
  users : list UserRow;
  stores : list StoreRow;
  ratings : list RatingRow;
  users_id_seq : Z;
  stores_id_seq : Z;
  ratings_id_seq : Z
}.

(** The outcome of a statement: its result, or the SQLSTATE of the error
    ([error.code] in the driver). *)
Inductive result (A : Type) :=
  | Ok (a : A)
  | Error (code : string).
Arguments Ok {A} a.
Arguments Error {A} code.

#[global] Instance result_ret : MRet result := fun A a => Ok a.
#[global] Instance result_bind : MBind result := fun A B f m =>
  match m with
  | Ok a => f a
  | Error c => Error c
  end.

Definition unique_violation : string := "23505".
Definition foreign_key_violation : string := "23503".
Definition check_violation : string := "23514".
Definition not_null_violation : string := "23502".
Definition string_data_right_truncation : string := "22001".
Definition invalid_text_representation : string := "22P02".
Definition numeric_value_out_of_range : string := "22003".
Definition character_not_in_repertoire : string := "22021".
Definition sequence_generator_limit_exceeded : string := "2200H".

Definition all_spaces (s : string) : bool :=
  forallb (Ascii.eqb " ") (list_ascii_of_string s).

(** A text holds the code unit 0. *)
Definition has_nul (s : string) : bool :=
  existsb (Ascii.eqb Ascii.zero) (list_ascii_of_string s).

(** A parameter of a text type, as the server reads it when the
    statement is bound: a text that holds the code unit 0 is refused. *)
Definition text_param (v : option string) : result (option string) :=
  match v with
  | Some s => if has_nul s then Error character_not_in_repertoire else Ok (Some s)
  | None => Ok None
  end.

(** The last key of a [SERIAL] column, an [INTEGER] of 32 bits. *)
Definition serial_max : Z := 2147483647.

(** [nextval] of the sequence behind a [SERIAL] key: the value drawn, or
    the error of a sequence that has passed its last value. *)
Definition nextval (seq : Z) : result Z :=
  if seq <=? serial_max then Ok seq
  else Error sequence_generator_limit_exceeded.

(** Storing into a [VARCHAR(n)] column: a longer string is an error,
    unless what exceeds the column is spaces only, which are cut. *)
Definition varchar (n : nat) (v : option string) : result (option string) :=
  match v with
  | None => Ok None
  | Some s =>
      if (String.length s <=? n)%nat then Ok (Some s)
      else if all_spaces (substring n (String.length s - n) s)
           then Ok (Some (substring 0 n s))
           else Error string_data_right_truncation
  end.

Definition not_null {A} (v : option A) : result A :=
  match v with
  | Some a => Ok a
  | None => Error not_null_violation
  end.

Definition require (code : string) (b : bool) : result unit :=
  if b then Ok tt else Error code.

(** [CHECK (LENGTH(name) >= 20 AND LENGTH(name) <= 60)] *)
Definition check_name (name : string) : bool :=
  (20 <=? String.length name)%nat && (String.length name <=? 60)%nat.

(** [CHECK (LENGTH(address) <= 400)]: a check on NULL passes. *)
Definition check_address (address : option string) : bool :=
  match address with
  | None => true
  | Some a => (String.length a <=? 400)%nat
  end.

(** [CHECK (role IN ('admin', 'user', 'store_owner'))] *)
Definition check_role (role : string) : bool :=
  bool_decide (role ∈ ["admin"; "user"; "store_owner"]).

(** [CHECK (rating >= 1 AND rating <= 5)] *)
Definition check_rating (rating : Z) : bool :=
  (1 <=? rating) && (rating <=? 5).

(** The five parameters of [INSERT INTO users (name, email, password,
    address, role)], as the server takes them before the statement runs:
    each text is read when the statement is bound, then cut to the length
    of its column when the statement is planned with its parameters. *)
Definition user_values (name email password address role : option string)
    : result (option string * option string * option string
              * option string * option string) :=
  name ← text_param name;
  email ← text_param email;
  password ← text_param password;
  address ← text_param address;
  role ← text_param role;
  name ← varchar 60 name;
  email ← varchar 255 email;
  password ← varchar 255 password;
  role ← varchar 20 role;
  mret (name, email, password, address, role).

(** The row of the [INSERT] under the key [id], for the values that
    [user_values] returned, when every constraint of the table accepts
    it. *)
Definition new_user (id : Z) (name email password address role : option string)
    (db : Db) : result UserRow :=
  name ← not_null name;
  email ← not_null email;
  password ← not_null password;
  role ← not_null role;
  _ ← require check_violation (check_name name);
  _ ← require check_violation (check_address address);
  _ ← require check_violation (check_role role);
  _ ← require unique_violation (bool_decide (id ∉ u_id <$> users db));
  _ ← require unique_violation (bool_decide (email ∉ u_email <$> users db));
  mret {| u_id := id; u_name := name; u_email := email;
          u_password := password; u_address := address; u_role := role |}.

(** [INSERT INTO users ... RETURNING ...]: a parameter that is refused
    and a sequence that has run out leave the state as it was; once the
    key is drawn, its value is spent whether the row is accepted or
    not. *)
Definition insert_user (name email password address role : option string)
    (db : Db) : result UserRow * Db :=
  match user_values name email password address role with
  | Error c => (Error c, db)
  | Ok (name, email, password, address, role) =>
      match nextval (users_id_seq db) with
      | Error c => (Error c, db)
      | Ok id =>
          match new_user id name email password address role db with
          | Ok row =>
              (Ok row,
               {| users := users db ++ [row]; stores := stores db;
                  ratings := ratings db; users_id_seq := id + 1;
                  stores_id_seq := stores_id_seq db;
                  ratings_id_seq := ratings_id_seq db |})
          | Error c =>
              (Error c,
               {| users := users db; stores := stores db; ratings := ratings db;
                  users_id_seq := id + 1; stores_id_seq := stores_id_seq db;
                  ratings_id_seq := ratings_id_seq db |})
          end
      end
  end.

(** The three text parameters of [INSERT INTO stores (name, email,
    address, owner_id)], as the server takes them before the statement
    runs. *)
Definition store_values (name email address : option string)
    : result (option string * option string * option string) :=
  name ← text_param name;
  email ← text_param email;
  address ← text_param address;
  name ← varchar 60 name;
  email ← varchar 255 email;
  mret (name, email, address).

(** The row of the [INSERT] under the key [id], for the values that
    [store_values] returned. *)
Definition new_store (id : Z) (name email address : option string)
    (owner_id : option Z) (db : Db) : result StoreRow :=
  name ← not_null name;
  email ← not_null email;
  owner_id ← not_null owner_id;
  _ ← require check_violation (check_name name);
  _ ← require check_violation (check_address address);
  _ ← require unique_violation (bool_decide (id ∉ s_id <$> stores db));
  _ ← require unique_violation (bool_decide (email ∉ s_email <$> stores db));
  _ ← require unique_violation (bool_decide (owner_id ∉ s_owner_id <$> stores db));
  _ ← require foreign_key_violation (bool_decide (owner_id ∈ u_id <$> users db));
  mret {| s_id := id; s_name := name; s_email := email;
          s_address := address; s_owner_id := owner_id |}.

(** [INSERT INTO stores (name, email, address, owner_id) ... RETURNING id],
    with the same three stages as the [INSERT] into [users]. *)
Definition insert_store (name email address : option string)
    (owner_id : option Z) (db : Db) : result StoreRow * Db :=
  match store_values name email address with
  | Error c => (Error c, db)
  | Ok (name, email, address) =>
      match nextval (stores_id_seq db) with
      | Error c => (Error c, db)
      | Ok id =>
          match new_store id name email address owner_id db with
          | Ok row =>
              (Ok row,
               {| users := users db; stores := stores db ++ [row];
                  ratings := ratings db; users_id_seq := users_id_seq db;
                  stores_id_seq := id + 1;
                  ratings_id_seq := ratings_id_seq db |})
          | Error c =>
              (Error c,
               {| users := users db; stores := stores db; ratings := ratings db;
                  users_id_seq := users_id_seq db; stores_id_seq := id + 1;
                  ratings_id_seq := ratings_id_seq db |})
          end
      end
  end.

(** The rows the arbiter [UNIQUE(user_id, store_id)] finds in conflict. *)
Definition same_pair (user_id store_id : Z) (r : RatingRow) : bool :=
  (r_user_id r =? user_id) && (r_store_id r =? store_id).

(** [DO UPDATE SET rating = $3] on the row in conflict. *)
Definition set_rating (user_id store_id rating : Z) (r : RatingRow) : RatingRow :=
  if same_pair user_id store_id r
  then {| r_id := r_id r; r_user_id := r_user_id r;
          r_store_id := r_store_id r; r_rating := rating |}
  else r.

(** [INSERT INTO ratings (user_id, store_id, rating) VALUES ($1, $2, $3)
     ON CONFLICT (user_id, store_id) DO UPDATE SET rating = $3 RETURNING id]:
    the new rating table and the returned id. *)
Definition upsert (user_id store_id rating : option Z) (db : Db)
    : result (Z * list RatingRow) :=
  let id := ratings_id_seq db in
  user_id ← not_null user_id;
  store_id ← not_null store_id;
  rating ← not_null rating;
  _ ← require check_violation (check_rating rating);
  match filter (fun r => same_pair user_id store_id r = true) (ratings db) with
  | old :: _ =>
      mret (r_id old, set_rating user_id store_id rating <$> ratings db)
  | [] =>
      _ ← require unique_violation (bool_decide (id ∉ r_id <$> ratings db));
      _ ← require foreign_key_violation (bool_decide (user_id ∈ u_id <$> users db));
      _ ← require foreign_key_violation (bool_decide (store_id ∈ s_id <$> stores db));
      mret (id, ratings db ++ [{| r_id := id; r_user_id := user_id;
                                  r_store_id := store_id; r_rating := rating |}])
  end.

(** The statement as a whole: the default of [id] draws from the
    sequence before any constraint is looked at, also when the row in
    conflict is only updated; on a sequence that has run out the
    statement fails with the state as it was. *)
Definition upsert_rating (user_id store_id rating : option Z) (db : Db)
    : result Z * Db :=
  match nextval (ratings_id_seq db) with
  | Error c => (Error c, db)
  | Ok drawn =>
      let seq := drawn + 1 in
      match upsert user_id store_id rating db with
      | Ok (id, rows) =>
          (Ok id,
           {| users := users db; stores := stores db; ratings := rows;
              users_id_seq := users_id_seq db; stores_id_seq := stores_id_seq db;
              ratings_id_seq := seq |})
      | Error c =>
          (Error c,
           {| users := users db; stores := stores db; ratings := ratings db;
              users_id_seq := users_id_seq db; stores_id_seq := stores_id_seq db;
              ratings_id_seq := seq |})
      end
  end.

(** [SELECT ... FROM users WHERE email = $1]: nothing equals NULL. *)
Definition users_by_email (email : option string) (db : Db) : list UserRow :=
  match email with
  | Some e => filter (fun u => u_email u = e) (users db)
  | None => []
  end.

(** The statement with its parameter: the server reads the text before
    it looks for rows. *)
Definition select_by_email (email : option string) (db : Db)
    : result (list UserRow) :=
  email ← text_param email;
  mret (users_by_email email db).

(** [SELECT id FROM stores WHERE owner_id = $1] *)
Definition stores_by_owner (owner_id : Z) (db : Db) : list StoreRow :=
  filter (fun s => s_owner_id s = owner_id) (stores db).

Definition set_password (id : Z) (password : string) (u : UserRow) : UserRow :=
  if u_id u =? id
  then {| u_id := u_id u; u_name := u_name u; u_email := u_email u;
          u_password := password; u_address := u_address u; u_role := u_role u |}
  else u.

(** [UPDATE users SET password = $1 WHERE id = $2]: the text of the
    password is read and cut to its column before a row is looked at. *)
Definition update_password (password : option string) (id : option Z) (db : Db)
    : result unit * Db :=
  match password ← text_param password; varchar 255 password with
  | Error c => (Error c, db)
  | Ok password =>
      match id with
      | None => (Ok tt, db)
      | Some id =>
          if bool_decide (id ∈ u_id <$> users db) then
            match not_null password with
            | Ok pw =>
                (Ok tt,
                 {| users := set_password id pw <$> users db; stores := stores db;
                    ratings := ratings db; users_id_seq := users_id_seq db;
                    stores_id_seq := stores_id_seq db;
                    ratings_id_seq := ratings_id_seq db |})
            | Error c => (Error c, db)
            end
          else (Ok tt, db)
      end
  end.

Definition pair_of (r : RatingRow) : Z * Z := (r_user_id r, r_store_id r).

(** The state after an upsert that left [rows] in the rating table. *)
Definition with_ratings (db : Db) (rows : list RatingRow) : Db :=
  {| users := users db; stores := stores db; ratings := rows;
     users_id_seq := users_id_seq db; stores_id_seq := stores_id_seq db;
     ratings_id_seq := ratings_id_seq db + 1 |}.

(** What the key and the [UNIQUE(user_id, store_id)] constraint of
    [ratings] keep true: keys come from the sequence, and no two rows are
    of the same user for the same store. *)
Definition ratings_consistent (db : Db) : Prop :=
  (forall r, r ∈ ratings db -> r_id r < ratings_id_seq db) /\
  NoDup (pair_of <$> ratings db).

(** The rating table and its sequence are the same in two states. *)
Definition same_ledger (db db' : Db) : Prop :=
  ratings db' = ratings db /\ ratings_id_seq db' = ratings_id_seq db.

(** [ROLLBACK] to the state at [BEGIN]: the tables come back, the
    sequences do not. *)
Definition rollback (at_begin now : Db) : Db :=
  {| users := users at_begin; stores := stores at_begin;
     ratings := ratings at_begin; users_id_seq := users_id_seq now;
     stores_id_seq := stores_id_seq now; ratings_id_seq := ratings_id_seq now |}.

End Pg.

(** ** backend/server.js *)

Module Server.
Import Js Regex Pg.

(** [/[A-Z]/] *)
Definition upper_re : regex := Class (in_range "A" "Z").

(** [/[!@#$%^&*()]/] *)
Definition special_re : regex := Class (one_of "!@#$%^&*()").

(** [/^[^\s@]+@[^\s@]+\.[^\s@]+$/] *)
Definition email_re : regex :=
  let part := Plus (Class (fun c => negb (white_space c || Ascii.eqb c "@"))) in
  Seq part (Seq (Class (Ascii.eqb "@")) (Seq part (Seq (Class (Ascii.eqb ".")) part))).

Inductive Body :=
  | Json (o : gmap string JsValue)
  | JsonList (l : list (gmap string JsValue))
  | Text (s : string).

Record Response := { status : Z; body : Body }.

(** What a handler reads of a request: the [Authorization] header, the
    parsed JSON body, the [:userId] segment of the path; and what its
    libraries read of the world: the clock and the salt bcrypt draws. *)
Record Request := {
  authorization : option string;
  req_body : gmap string JsValue;
  params_userId : string;
  now : Z;
  salt : string
}.

(** [req.body.k]: [undefined] when the key is absent. *)
Definition field (req : Request) (k : string) : JsValue :=
  default JUndefined (req_body req !! k).

(** [res.status(code).json({ message })] *)
Definition message (code : Z) (msg : string) : Response :=
  {| status := code; body := Json {[ "message" := JStr msg ]} |}.

(** [s.split(' ')] *)
Fixpoint split (sep : ascii) (s : string) : list string :=
  match s with
  | EmptyString => [EmptyString]
  | String c s' =>
      if Ascii.eqb c sep then EmptyString :: split sep s' else
      match split sep s' with
      | x :: xs => String c x :: xs
      | [] => [String c EmptyString]
      end
  end.

(** [authHeader && authHeader.split(' ')[1]], [None] when [!token]. *)
Definition bearer_token (req : Request) : option string :=
  authHeader ← authorization req;
  token ← split " " authHeader !! 1%nat;
  if String.eqb token "" then None else Some token.

(** How the rows of a result reach JavaScript. *)
Definition js_text (v : option string) : JsValue :=
  match v with
  | Some s => JStr s
  | None => JNull
  end.

(** [ORDER BY key] *)
Definition key_le {A} (key : A -> Z) (a b : A) : Prop := key a <= key b.

#[global] Instance key_le_dec {A} (key : A -> Z) (a b : A) :
  Decision (key_le key a b) := Z.le_dec (key a) (key b).

Definition ascending {A} (key : A -> Z) : list A -> list A :=
  merge_sort (key_le key).

Section WithExternals.
Context (E : Externals).

(** *** Validation helpers *)

Definition validate_name (name : JsValue) : option string :=
  if negb (truthy name) || js_lt E (length_of name) (JInt 20)
  then Some "Name must be at least 20 characters."
  else if js_gt E (length_of name) (JInt 60)
  then Some "Name cannot exceed 60 characters."
  else None.

Definition validate_address (address : JsValue) : option string :=
  if negb (truthy address) || strict_eq (length_of address) (JInt 0)
  then Some "Address is required."
  else if js_gt E (length_of address) (JInt 400)
  then Some "Address cannot exceed 400 characters."
  else None.

Definition validate_password (password : JsValue) : option string :=
  if negb (truthy password) || js_lt E (length_of password) (JInt 8)
  then Some "Password must be 8-16 characters."
  else if js_gt E (length_of password) (JInt 16)
  then Some "Password must be 8-16 characters."
  else if negb (test upper_re (ToString E password))
  then Some "Password must include at least one uppercase letter."
  else if negb (test special_re (ToString E password))
  then Some "Password must include at least one special character (!@#$%^&*())."
  else None.

Definition validate_email (email : JsValue) : option string :=
  if negb (matches email_re (ToString E email))
  then Some "Invalid email format."
  else None.

Definition validate_rating (rating : JsValue) : option string :=
  let r := ToNumber E rating in
  if isNaN r || lt r (Fin 1) || gt r (Fin 5)
  then Some "Rating must be between 1 and 5."
  else None.

(** [a || b] on two validation results. *)
Definition or_else (a b : option string) : option string :=
  match a with
  | Some m => if String.eqb m "" then b else a
  | None => b
  end.

(** *** Query parameters, as the driver sends them *)

(** A parameter of a text type: [null] and [undefined] are NULL, any
    other value is sent as its [toString()]. *)
Definition pg_text (v : JsValue) : option string :=
  match v with
  | JUndefined | JNull => None
  | _ => Some (ToString E v)
  end.

(** A parameter of type [INTEGER]: the text of the value has to read
    as an integer of 32 bits. *)
Definition pg_int (v : JsValue) : result (option Z) :=
  match v with
  | JUndefined | JNull => Ok None
  | JNum (Fin q) =>
      if Qeq_bool q (inject_Z (Qfloor q)) then
        if (- 2 ^ 31 <=? Qfloor q) && (Qfloor q <? 2 ^ 31)
        then Ok (Some (Qfloor q))
        else Error (if (Z.abs (Qfloor q) <? 10 ^ 21)
                    then numeric_value_out_of_range
                    else invalid_text_representation)
      else Error invalid_text_representation
  | JNum _ | JBool _ => Error invalid_text_representation
  | JStr s =>
      match pg_int4in E s with
      | Some z => Ok (Some z)
      | None => Error invalid_text_representation
      end
  end.

(** *** Authentication middleware *)

(** [authenticateToken]: an answer, or [req.user] for [next()]. *)
Definition authenticateToken (req : Request) : Response + Payload :=
  match bearer_token req with
  | None => inl (message 401 "Access token required")
  | Some token =>
      match jwt_verify E (now req) token with
      | None => inl (message 403 "Invalid or expired token")
      | Some user => inr user
      end
  end.

(** [requireAdmin]: an answer, or nothing for [next()]. *)
Definition requireAdmin (user : Payload) : option Response :=
  if negb (String.eqb (p_role user) "admin")
  then Some (message 403 "Admin access required")
  else None.

Definition requireStoreOwner (user : Payload) : option Response :=
  if negb (String.eqb (p_role user) "store_owner")
  then Some (message 403 "Store owner access required")
  else None.

Definition requireUser (user : Payload) : option Response :=
  if negb (String.eqb (p_role user) "user")
  then Some (message 403 "User access required")
  else None.

Definition token_for (req : Request) (id : Z) (email role : string) : JsValue :=
  JStr (jwt_sign E (now req) {| p_id := id; p_email := email; p_role := role |}).

(** *** Routes *)

(** [app.get('/')] *)
Definition health (req : Request) (db : Db) : Response * Db :=
  ({| status := 200; body := Text "Rating Platform Backend is running!" |}, db).

(** The row of [SELECT id, name, email, role, address, password FROM users]. *)
Definition login_row (u : UserRow) : gmap string JsValue :=
  {[ "id" := JInt (u_id u); "name" := JStr (u_name u);
     "email" := JStr (u_email u); "role" := JStr (u_role u);
     "address" := js_text (u_address u); "password" := JStr (u_password u) ]}.

(** [app.post('/api/auth/login')] *)
Definition login (req : Request) (db : Db) : Response * Db :=
  let email := field req "email" in
  let password := field req "password" in
  if negb (truthy email) || negb (truthy password)
  then (message 400 "Email and password are required", db) else
  match select_by_email (pg_text email) db with
  | Error _ => (message 500 "Server error during login.", db)
  | Ok [] => (message 401 "Invalid credentials", db)
  | Ok (row :: _) =>
      let user := login_row row in
      match bcrypt_compare E password (u_password row) with
      | Some passwordMatch =>
          if negb passwordMatch
          then (message 401 "Invalid credentials", db) else
          let user := delete "password" user in
          let user :=
            if String.eqb (u_role row) "store_owner" then
              match stores_by_owner (u_id row) db with
              | s :: _ => <[ "storeId" := JInt (s_id s) ]> user
              | [] => user
              end
            else user in
          let token := token_for req (u_id row) (u_email row) (u_role row) in
          ({| status := 200; body := Json (<[ "token" := token ]> user) |}, db)
      | None => (message 500 "Server error during login.", db)
      end
  end.

(** The row of [RETURNING id, name, email, role, address]. *)
Definition returned_row (u : UserRow) : gmap string JsValue :=
  {[ "id" := JInt (u_id u); "name" := JStr (u_name u);
     "email" := JStr (u_email u); "role" := JStr (u_role u);
     "address" := js_text (u_address u) ]}.

(** [app.post('/api/auth/signup')] *)
Definition signup (req : Request) (db : Db) : Response * Db :=
  let name := field req "name" in
  let email := field req "email" in
  let address := field req "address" in
  let password := field req "password" in
  let nameError := validate_name name in
  let emailError := validate_email email in
  let addressError := validate_address address in
  let passwordError := validate_password password in
  match or_else nameError (or_else emailError (or_else addressError passwordError)) with
  | Some msg => (message 400 msg, db)
  | None =>
      match select_by_email (pg_text email) db with
      | Error _ => (message 500 "Server error during signup.", db)
      | Ok (_ :: _) => (message 400 "Email already exists", db)
      | Ok [] =>
          match bcrypt_hash E (salt req) password with
          | Some hashedPassword =>
              match insert_user (pg_text name) (pg_text email) (Some hashedPassword)
                      (pg_text address) (Some "user") db with
              | (Ok row, db') =>
                  let token := token_for req (u_id row) (u_email row) (u_role row) in
                  ({| status := 201;
                      body := Json (<[ "token" := token ]> (returned_row row)) |}, db')
              | (Error _, db') => (message 500 "Server error during signup.", db')
              end
          | None => (message 500 "Server error during signup.", db)
          end
      end
  end.

(** The rows of [users u LEFT JOIN stores s ON u.id = s.owner_id], each
    mapped to the object the route answers with. *)
Definition users_row (db : Db) (u : UserRow) : list (gmap string JsValue) :=
  let base : gmap string JsValue :=
    {[ "id" := JInt (u_id u); "name" := JStr (u_name u);
       "email" := JStr (u_email u); "role" := JStr (u_role u);
       "address" := js_text (u_address u) ]} in
  match stores_by_owner (u_id u) db with
  | [] => [ <[ "storeId" := JNull ]> base ]
  | owned => (fun s => <[ "storeId" := JInt (s_id s) ]> base) <$> owned
  end.

(** [app.get('/api/data/users')] *)
Definition get_users (req : Request) (db : Db) : Response * Db :=
  ({| status := 200;
      body := JsonList (ascending u_id (users db) ≫= users_row db) |}, db).

Definition stores_row (s : StoreRow) : gmap string JsValue :=
  {[ "id" := JInt (s_id s); "name" := JStr (s_name s);
     "email" := JStr (s_email s); "address" := js_text (s_address s);
     "owner_id" := JInt (s_owner_id s) ]}.

(** [app.get('/api/data/stores')] *)
Definition get_stores (req : Request) (db : Db) : Response * Db :=
  ({| status := 200;
      body := JsonList (stores_row <$> ascending s_id (stores db)) |}, db).

(** The rows of [ratings r JOIN users u ON r.user_id = u.id]. *)
Definition ratings_row (db : Db) (r : RatingRow) : list (gmap string JsValue) :=
  (fun u : UserRow =>
     {[ "id" := JInt (r_id r); "user_id" := JInt (r_user_id r);
        "store_id" := JInt (r_store_id r); "rating" := JInt (r_rating r);
        "user_email" := JStr (u_email u) ]})
  <$> filter (fun u => u_id u = r_user_id r) (users db).

(** [app.get('/api/data/ratings')] *)
Definition get_ratings (req : Request) (db : Db) : Response * Db :=
  ({| status := 200;
      body := JsonList (ascending r_id (ratings db) ≫= ratings_row db) |}, db).

(** [['admin', 'user'].includes(role)] *)
Definition admin_or_user (role : JsValue) : bool :=
  strict_eq (JStr "admin") role || strict_eq (JStr "user") role.

(** [app.post('/api/admin/users')], after the two middlewares. *)
Definition add_user (req : Request) (db : Db) : Response * Db :=
  let name := field req "name" in
  let email := field req "email" in
  let address := field req "address" in
  let password := field req "password" in
  let role := field req "role" in
  let nameError := validate_name name in
  let emailError := validate_email email in
  let addressError := validate_address address in
  let passwordError := validate_password password in
  match or_else nameError (or_else emailError (or_else addressError passwordError)) with
  | Some msg => (message 400 msg, db)
  | None =>
      if negb (truthy role) || negb (admin_or_user role)
      then (message 400 "Invalid role. Must be admin or user.", db) else
      match select_by_email (pg_text email) db with
      | Error _ => (message 500 "Server error adding user.", db)
      | Ok (_ :: _) => (message 400 "Email already exists", db)
      | Ok [] =>
          match bcrypt_hash E (salt req) password with
          | Some hashedPassword =>
              match insert_user (pg_text name) (pg_text email) (Some hashedPassword)
                      (pg_text address) (pg_text role) db with
              | (Ok row, db') =>
                  ({| status := 201;
                      body := Json {[ "message" := JStr "User added successfully";
                                      "userId" := JInt (u_id row) ]} |}, db')
              | (Error _, db') => (message 500 "Server error adding user.", db')
              end
          | None => (message 500 "Server error adding user.", db)
          end
      end
  end.

(** The [catch] of the store route, after [ROLLBACK]. *)
Definition add_store_failed (code : string) : Response :=
  if String.eqb code "23505"
  then message 400 "Email already exists for a user/owner."
  else message 500 "Server error adding store/owner.".

(** [app.post('/api/admin/stores')], after the two middlewares: the two
    inserts run between [BEGIN] and [COMMIT]. *)
Definition add_store (req : Request) (db : Db) : Response * Db :=
  let name := field req "name" in
  let email := field req "email" in
  let address := field req "address" in
  let nameError := validate_name name in
  let emailError := validate_email email in
  let addressError := validate_address address in
  match or_else nameError (or_else emailError addressError) with
  | Some msg => (message 400 msg, db)
  | None =>
      let defaultPassword := JStr "Store@123" in
      match bcrypt_hash E (salt req) defaultPassword with
      | None => (message 500 "Server error adding store/owner.", db)
      | Some hashedPassword =>
          match insert_user (Some (ToString E name +:+ " Owner")) (pg_text email)
                  (Some hashedPassword) (pg_text address) (Some "store_owner") db with
          | (Error code, db1) => (add_store_failed code, rollback db db1)
          | (Ok owner, db1) =>
              let ownerId := u_id owner in
              match insert_store (pg_text name) (pg_text email) (pg_text address)
                      (Some ownerId) db1 with
              | (Error code, db2) => (add_store_failed code, rollback db db2)
              | (Ok store, db2) =>
                  ({| status := 201;
                      body := Json {[ "message" := JStr "Store and Owner added successfully";
                                      "storeId" := JInt (s_id store);
                                      "ownerId" := JInt ownerId ]} |}, db2)
              end
          end
      end
  end.

(** [app.put('/api/users/:userId/password')], after [authenticateToken]. *)
Definition put_password (user : Payload) (req : Request) (db : Db)
    : Response * Db :=
  let userId := params_userId req in
  let newPassword := field req "newPassword" in
  if negb (num_eq (Fin (inject_Z (p_id user))) (parseInt E userId))
     && negb (String.eqb (p_role user) "admin")
  then (message 403 "You can only update your own password", db) else
  match validate_password newPassword with
  | Some passwordError => (message 400 passwordError, db)
  | None =>
      match bcrypt_hash E (salt req) newPassword with
      | Some hashedPassword =>
          match pg_int (JStr userId) with
          | Ok id =>
              match update_password (Some hashedPassword) id db with
              | (Ok _, db') => (message 200 "Password updated successfully", db')
              | (Error _, db') => (message 500 "Failed to update password.", db')
              end
          | Error _ => (message 500 "Failed to update password.", db)
          end
      | None => (message 500 "Failed to update password.", db)
      end
  end.

(** The three parameters of the upsert, as PostgreSQL reads them. *)
Definition rating_params (userId storeId rating : JsValue)
    : result (option Z * option Z * option Z) :=
  u ← pg_int userId;
  s ← pg_int storeId;
  r ← pg_int rating;
  mret (u, s, r).

(** [app.post('/api/ratings')], after [authenticateToken]. *)
Definition post_ratings (user : Payload) (req : Request) (db : Db)
    : Response * Db :=
  let userId := field req "userId" in
  let storeId := field req "storeId" in
  let rating := field req "rating" in
  if negb (strict_eq (JInt (p_id user)) userId)
  then (message 403 "You can only submit ratings as yourself", db) else
  match validate_rating rating with
  | Some ratingError => (message 400 ratingError, db)
  | None =>
      if negb (truthy storeId)
      then (message 400 "Store ID is required", db) else
      match rating_params userId storeId rating with
      | Ok (u, s, r) =>
          match upsert_rating u s r db with
          | (Ok id, db') =>
              ({| status := 201;
                  body := Json {[ "message" := JStr "Rating submitted/updated successfully";
                                  "ratingId" := JInt id ]} |}, db')
          | (Error _, db') => (message 500 "Failed to submit rating.", db')
          end
      | Error _ => (message 500 "Failed to submit rating.", db)
      end
  end.

(** *** The routing table *)

Inductive Route :=
  | GetRoot
  | PostLogin
  | PostSignup
  | GetUsers
  | GetStores
  | GetRatings
  | PostAdminUsers
  | PostAdminStores
  | PutPassword
  | PostRatings.

Definition Handler : Type := Request -> Db -> Response * Db.

(** [app.METHOD(path, authenticateToken, h)] *)
Definition authenticated (h : Payload -> Handler) : Handler :=
  fun req db =>
    match authenticateToken req with
    | inl answer => (answer, db)
    | inr user => h user req db
    end.

(** [app.METHOD(path, authenticateToken, requireAdmin, h)] *)
Definition admin_only (h : Handler) : Handler :=
  authenticated (fun user req db =>
    match requireAdmin user with
    | Some answer => (answer, db)
    | None => h req db
    end).

Definition serve (r : Route) : Handler :=
  match r with
  | GetRoot => health
  | PostLogin => login
  | PostSignup => signup
  | GetUsers => authenticated (fun _ => get_users)
  | GetStores => authenticated (fun _ => get_stores)
  | GetRatings => authenticated (fun _ => get_ratings)
  | PostAdminUsers => admin_only add_user
  | PostAdminStores => admin_only add_store
  | PutPassword => authenticated put_password
  | PostRatings => authenticated post_ratings
  end.

(** A run of the server: the requests of one route, one after the
    other, each on the state the one before left. *)
Definition serve_all (r : Route) (reqs : list Request) (db : Db) : Db :=
  foldl (fun db req => (serve r req db).2) db reqs.

(** The routes registered with [authenticateToken]. *)
Definition protected (r : Route) : bool :=
  match r with
  | GetRoot | PostLogin | PostSignup => false
  | _ => true
  end.

End WithExternals.

End Server.

(** ** The rating helpers of the front end *)

Module Client.
Import Js.

(** An element of the [ratings] state, as [API.getRatings] builds it from
    a row of [/api/data/ratings]. *)
Record Rating := {
  id : Z;
  userId : Z;
  storeId : Z;
  rating : Z;
  userEmail : string
}.

Section WithExternals.
Context (E : Externals).

(** [storeRatings.reduce((sum, r) => sum + r.rating, 0)] *)
Definition sum_ratings (storeRatings : list Rating) : number :=
  foldl (fun sum r => add sum (of_Z (rating r))) (Fin 0) storeRatings.

(** [storeRatings.length] *)
Definition length_number (storeRatings : list Rating) : number :=
  Fin (inject_Z (Z.of_nat (length storeRatings))).

(** [ratings.filter(r => r.storeId === storeId)] *)
Definition ratings_of (ratings : list Rating) (store : JsValue) : list Rating :=
  filter (fun r => strict_eq (JInt (storeId r)) store = true) ratings.

(** [getStoreRating] of the administrator's dashboard. *)
Definition getStoreRating (ratings : list Rating) (store : JsValue) : string :=
  let storeRatings := ratings_of ratings store in
  if (length storeRatings =? 0)%nat then "0.0" else
  toFixed1 E (div (sum_ratings storeRatings) (length_number storeRatings)).

(** [getOverallRating] of the user's dashboard. *)
Definition getOverallRating (ratings : list Rating) (store : JsValue) : string :=
  let storeRatings := ratings_of ratings store in
  if (length storeRatings =? 0)%nat then "0.0" else
  toFixed1 E (div (sum_ratings storeRatings) (length_number storeRatings)).

(** [averageRating] of the store owner's dashboard, over the ratings of
    the owner's store. *)
Definition averageRating (storeRatings : list Rating) : string :=
  if (0 <? length storeRatings)%nat
  then toFixed1 E (div (sum_ratings storeRatings) (length_number storeRatings))
  else "0.0".

End WithExternals.

End Client.

(** ** The words of the specification *)

Module Spec.

(** "at least one uppercase letter" *)
Definition uppercase (c : ascii) : Prop :=
  (nat_of_ascii "A" <= nat_of_ascii c <= nat_of_ascii "Z")%nat.

(** "at least one character from [!@#$%^&*()]" *)
Definition special (c : ascii) : Prop :=
  c ∈ list_ascii_of_string "!@#$%^&*()".

(** "password: 8-16 characters, at least one uppercase letter, at least
    one character from [!@#$%^&*()]" *)
Definition acceptable_password (s : string) : Prop :=
  (8 <= String.length s <= 16)%nat /\
  (exists c, c ∈ list_ascii_of_string s /\ uppercase c) /\
  (exists c, c ∈ list_ascii_of_string s /\ special c).

(** The decimal numeral of [n / 10] with one digit after the point. *)
Definition tenths (n : Z) : string :=
  pretty (n / 10) +:+ "." +:+ pretty (n mod 10).

(** "arithmetic mean of all rating values, rounded to one decimal place":
    [out] is the numeral of a multiple of one tenth that is nearest to the
    mean of [values]. *)
Definition mean_to_one_decimal (values : list Z) (out : string) : Prop :=
  exists n, out = tenths n /\
    Z.abs (10 * foldr Z.add 0 values - n * Z.of_nat (length values)) * 2
      <= Z.of_nat (length values).

(** "all rating values for that store" *)
Definition values_for (ratings : list Client.Rating) (store : Z) : list Z :=
  Client.rating <$> filter (fun r => Client.storeId r = store) ratings.

(** The sum of the values of a list of ratings. *)
Definition total (l : list Client.Rating) : Z :=
  foldr Z.add 0 (Client.rating <$> l).

(** "exactly one Rating row exists for the pair, and its value equals
    the value of the last call" *)
Definition one_rating (db : Pg.Db) (user store value : Z) : Prop :=
  exists row,
    filter (fun r => Pg.r_user_id r = user /\ Pg.r_store_id r = store)
           (Pg.ratings db) = [row]
    /\ Pg.r_rating row = value.

(** "a submitRating call by that user for that store" with a value: the
    caller is authenticated as the user, and the body names the user, the
    store and the value as numbers. *)
Definition submits (E : Js.Externals) (user store value : Z)
    (req : Server.Request) : Prop :=
  (exists p, Server.authenticateToken E req = inr p /\ Js.p_id p = user) /\
  Server.field req "userId" = Js.JInt user /\
  Server.field req "storeId" = Js.JInt store /\
  Server.field req "rating" = Js.JInt value.

(** "zero new rows in both the users and stores tables" *)
Definition no_new_rows (before after : Pg.Db) : Prop :=
  Pg.users after = Pg.users before /\ Pg.stores after = Pg.stores before.

(** "the response body contains the password field" *)
Definition has_password (b : Server.Body) : Prop :=
  match b with
  | Server.Json o => is_Some (o !! "password")
  | Server.JsonList l => exists o, o ∈ l /\ is_Some (o !! "password")
  | Server.Text _ => False
  end.

End Spec.

(** ** A run time and a database for the examples

    A small instance of [Externals], exact on unsigned decimal numerals,
    with tokens and hashes that can be read back, and a bcrypt that
    rejects data that is not a string, as the library does; and a database
    with one administrator, one user and one store with its owner. *)

Module Sample.
Import Js Pg Server.

Definition digit (c : ascii) : option Z :=
  let n := nat_of_ascii c in
  if (48 <=? n)%nat && (n <=? 57)%nat then Some (Z.of_nat n - 48) else None.

Fixpoint numeral_from (acc : Z) (s : string) : option Z :=
  match s with
  | EmptyString => Some acc
  | String c s' => d ← digit c; numeral_from (10 * acc + d) s'
  end.

Definition numeral (s : string) : option Z :=
  if String.eqb s "" then None else numeral_from 0 s.

Definition ends_with (suffix s : string) : bool :=
  (String.length suffix <=? String.length s)%nat
  && String.eqb (substring (String.length s - String.length suffix)
                           (String.length suffix) s) suffix.

Definition join_dots (l : list string) : string :=
  match l with
  | [] => ""
  | x :: xs => foldl (fun acc y => acc +:+ "." +:+ y) x xs
  end.

Definition sign (at_time : Z) (p : Payload) : string :=
  "signed." +:+ pretty (p_id p) +:+ "." +:+ p_role p +:+ "."
  +:+ pretty (at_time + 86400) +:+ "." +:+ p_email p.

Definition verify (at_time : Z) (token : string) : option Payload :=
  match split "." token with
  | mark :: id :: role :: expiry :: e :: es =>
      id ← numeral id;
      expiry ← numeral expiry;
      if String.eqb mark "signed" && (at_time <? expiry)
      then Some {| p_id := id; p_email := join_dots (e :: es); p_role := role |}
      else None
  | _ => None
  end.

Definition E : Externals := {|
  StringToNumber := fun s =>
    match numeral s with Some z => of_Z z | None => NaN end;
  NumberToString := fun n =>
    match n with
    | NaN => "NaN"
    | Infinity neg => if neg then "-Infinity" else "Infinity"
    | Fin q => pretty (Qfloor q)
    end;
  parseInt := fun s =>
    match numeral s with Some z => of_Z z | None => NaN end;
  jwt_sign := sign;
  jwt_verify := verify;
  bcrypt_hash := fun salt data =>
    match data with
    | JStr s => Some ("$2b$10$" +:+ salt +:+ "$" +:+ s)
    | _ => None
    end;
  bcrypt_compare := fun data hash =>
    match data with
    | JStr s => Some (ends_with ("$" +:+ s) hash)
    | _ => None
    end;
  pg_int4in := fun s =>
    z ← numeral s; if z <? 2 ^ 31 then Some z else None
|}.

Definition admin : UserRow :=
  {| u_id := 1; u_name := "Administrator of the Platform";
     u_email := "admin@app.com"; u_password := "$2b$10$a$Admin@123";
     u_address := Some "1 Main Street"; u_role := "admin" |}.

Definition jane : UserRow :=
  {| u_id := 2; u_name := "Jane Doe the First Customer";
     u_email := "jane@user.com"; u_password := "$2b$10$b$User@123";
     u_address := Some "2 Side Street"; u_role := "user" |}.

Definition owner : UserRow :=
  {| u_id := 3; u_name := "MegaMart Superstore Outlet Owner";
     u_email := "megamart@store.com"; u_password := "$2b$10$c$Store@123";
     u_address := Some "3 Market Square"; u_role := "store_owner" |}.

Definition megamart : StoreRow :=
  {| s_id := 1; s_name := "MegaMart Superstore Outlet";
     s_email := "megamart@store.com"; s_address := Some "3 Market Square";
     s_owner_id := 3 |}.

Definition db : Db :=
  {| users := [admin; jane; owner]; stores := [megamart]; ratings := [];
     users_id_seq := 4; stores_id_seq := 2; ratings_id_seq := 1 |}.

(** The same database without Jane. *)
Definition db_without_jane : Db :=
  {| users := [admin; owner]; stores := [megamart]; ratings := [];
     users_id_seq := 4; stores_id_seq := 2; ratings_id_seq := 1 |}.

Definition payload_of (u : UserRow) : Payload :=
  {| p_id := u_id u; p_email := u_email u; p_role := u_role u |}.

(** A request at time 100 that carries the token issued to [u] at time 0. *)
Definition request_of (u : UserRow) (fields : list (string * JsValue)) : Request :=
  {| authorization := Some ("Bearer " +:+ sign 0 (payload_of u));
     req_body := list_to_map fields; params_userId := pretty (u_id u);
     now := 100; salt := "s" |}.

(** A request without a token, and one with a token nobody signed. *)
Definition anonymous (fields : list (string * JsValue)) : Request :=
  {| authorization := None; req_body := list_to_map fields;
     params_userId := "1"; now := 100; salt := "s" |}.

Definition forged (fields : list (string * JsValue)) : Request :=
  {| authorization := Some "Bearer forged.1.admin.99999.admin@app.com";
     req_body := list_to_map fields; params_userId := "1";
     now := 100; salt := "s" |}.

(** A login as Jane with a password that is not hers. *)
Definition wrong_password : Request :=
  anonymous [("email", JStr "jane@user.com"); ("password", JStr "User@124")].

(** A login as Jane whose password is the JSON number 12345678. *)
Definition number_password : Request :=
  anonymous [("email", JStr "jane@user.com"); ("password", JInt 12345678)].

(** The database after Jane has rated the store 2147483647 times, the
    last time with 2: her row has the first key, and the sequence of
    [ratings] has passed its last value. *)
Definition db_at_last_key : Db :=
  {| users := [admin; jane; owner]; stores := [megamart];
     ratings := [ {| r_id := 1; r_user_id := 2; r_store_id := 1; r_rating := 2 |} ];
     users_id_seq := 4; stores_id_seq := 2; ratings_id_seq := 2147483648 |}.

(** Jane rates the store. *)
Definition jane_rates (value : JsValue) : Request :=
  request_of jane [("userId", JInt 2); ("storeId", JInt 1); ("rating", value)].

(** A store name of 55 characters, and one of 54. *)
Definition name55 : string :=
  "The Very Long Named Superstore Of The Northern Quarter!".
Definition name54 : string :=
  "The Very Long Named Superstore Of The Northern Quarter".

(** The administrator creates a store under the email of Jane. *)
Definition store_for_jane (name : string) : Request :=
  request_of admin
    [("name", JStr name); ("email", JStr "jane@user.com");
     ("address", JStr "12 Harbour Road")].

(** Ratings of one store, as the front end holds them. *)
Definition rated (values : list Z) : list Client.Rating :=
  (fun v => {| Client.id := 0; Client.userId := 0; Client.storeId := 1;
               Client.rating := v; Client.userEmail := "jane@user.com" |})
  <$> values.

End Sample.
(** ** What the constraints of db/schema.sql keep true

    The state of the three tables that the keys, the [UNIQUE], [CHECK],
    [NOT NULL] and [REFERENCES] clauses and the column types allow. *)

Module Schema.
Import Pg.

(** [users]: the key comes from the sequence and is unique, no two rows
    have the same email, and every column fits its type and its check. *)
Definition users_consistent (db : Db) : Prop :=
  (forall u, u ∈ users db -> u_id u < users_id_seq db) /\
  NoDup (u_id <$> users db) /\
  NoDup (u_email <$> users db) /\
  (forall u, u ∈ users db ->
     check_name (u_name u) = true /\ check_address (u_address u) = true /\
     check_role (u_role u) = true /\
     (String.length (u_email u) <= 255)%nat /\
     (String.length (u_password u) <= 255)%nat).

(** [stores]: besides the key and the email, [owner_id] is unique and
    refers to a user. *)
Definition stores_consistent (db : Db) : Prop :=
  (forall s, s ∈ stores db -> s_id s < stores_id_seq db) /\
  NoDup (s_id <$> stores db) /\
  NoDup (s_email <$> stores db) /\
  NoDup (s_owner_id <$> stores db) /\
  (forall s, s ∈ stores db ->
     s_owner_id s ∈ u_id <$> users db /\
     check_name (s_name s) = true /\ check_address (s_address s) = true /\
     (String.length (s_email s) <= 255)%nat).

(** [ratings]: the two references and the check on the value. *)
Definition ratings_refer (db : Db) : Prop :=
  forall r, r ∈ ratings db ->
    r_user_id r ∈ u_id <$> users db /\ r_store_id r ∈ s_id <$> stores db /\
    check_rating (r_rating r) = true.

Definition well_formed (db : Db) : Prop :=
  users_consistent db /\ stores_consistent db /\
  ratings_consistent db /\ ratings_refer db.

(** The tables of two states are the same. *)
Definition same_tables (db db' : Db) : Prop :=
  users db' = users db /\ stores db' = stores db /\ ratings db' = ratings db.

(** No sequence has gone back. *)
Definition sequences_le (db db' : Db) : Prop :=
  users_id_seq db <= users_id_seq db' /\
  stores_id_seq db <= stores_id_seq db' /\
  ratings_id_seq db <= ratings_id_seq db'.

(** A row of [users] without its password. *)
Definition identity_of (u : UserRow) : Z * string * string * option string * string :=
  (u_id u, u_name u, u_email u, u_address u, u_role u).

(** What the token of a user says: [{ id, email, role }]. *)
Definition payload (u : UserRow) : Js.Payload :=
  {| Js.p_id := u_id u; Js.p_email := u_email u; Js.p_role := u_role u |}.

(** A row of [ratings] without its value. *)
Definition key_of (r : RatingRow) : Z * (Z * Z) := (r_id r, pair_of r).

(** The rows of [db] are still in [db'], in their places: the users with
    their identity, the stores as they were, the ratings with their
    keys. *)
Definition extends (db db' : Db) : Prop :=
  identity_of <$> users db `prefix_of` identity_of <$> users db' /\
  stores db `prefix_of` stores db' /\
  key_of <$> ratings db `prefix_of` key_of <$> ratings db'.

End Schema.

(** ** Words of the properties on texts *)

Module Words.

(** A string that is not empty and has neither white space nor [@]. *)
Definition plain (s : string) : Prop :=
  s <> "" /\
  Forall (fun c => Regex.white_space c = false /\ c <> "@"%char)
         (list_ascii_of_string s).

(** A string without a space. *)
Definition one_word (s : string) : Prop := " "%char ∉ list_ascii_of_string s.

End Words.

(** ** The entries of the lists the server answers with *)

Module Listing.
Import Js Pg Server.

(** [storeId] of a user in [/api/data/users]: the id of the store the
    user owns, [null] without one. *)
Definition owned_store (db : Db) (u : UserRow) : JsValue :=
  match stores_by_owner (u_id u) db with
  | s :: _ => JInt (s_id s)
  | [] => JNull
  end.

Definition user_entry (db : Db) (u : UserRow) : gmap string JsValue :=
  <[ "storeId" := owned_store db u ]> (returned_row u).

(** A rating in [/api/data/ratings], with the email of its user. *)
Definition rating_entry (r : RatingRow) (email : string) : gmap string JsValue :=
  {[ "id" := JInt (r_id r); "user_id" := JInt (r_user_id r);
     "store_id" := JInt (r_store_id r); "rating" := JInt (r_rating r);
     "user_email" := JStr email ]}.

End Listing.

(** ** The API layer of the front end

    [fetch] is the server of [Server.serve]: a call reaches the route of
    its method and path with the headers and the JSON text of its body,
    and what comes back is the JSON text of the answer.  The clock of the
    server and the salt bcrypt draws at the time of a call are arguments
    of the call. *)

Module Frontend.
Import Js Pg Server.

(** The variable [authToken] of the module and the [localStorage] of the
    browser. *)
Record Browser := {
  authToken : JsValue;
  localStorage : gmap string string
}.

(** The module has just been evaluated: [let authToken = null]. *)
Definition loaded (storage : gmap string string) : Browser :=
  {| authToken := JNull; localStorage := storage |}.

(** [fetch(url, { ...options, headers })], for the method, path and body
    of one call: from the [Authorization] header to the answer. *)
Definition Fetch : Type := option string -> Db -> Response * Db.

(** How a call ends: [return data], [throw new Error(message)], or the
    rejection of [response.json()] on a body that is not JSON. *)
Inductive Outcome :=
  | Returned (data : Body)
  | Thrown (message : string)
  | Rejected.

(** [JSON.parse(JSON.stringify(o))] on an object of scalars: a key with
    [undefined] is left out, a number that is not finite becomes [null]. *)
Definition json (o : gmap string JsValue) : gmap string JsValue :=
  omap (fun v => match v with
                 | JUndefined => None
                 | JNum NaN | JNum (Infinity _) => Some JNull
                 | _ => Some v
                 end) o.

(** [await response.json()] *)
Definition parsed (b : Body) : option Body :=
  match b with
  | Json o => Some (Json (json o))
  | JsonList l => Some (JsonList (json <$> l))
  | Text _ => None
  end.

(** [data.k] *)
Definition property (data : Body) (k : string) : JsValue :=
  match data with
  | Json o => default JUndefined (o !! k)
  | _ => JUndefined
  end.

(** [response.ok] *)
Definition ok (response : Response) : bool :=
  (200 <=? status response) && (status response <=? 299).

(** The time of the server and the salt of bcrypt when a call arrives. *)
Record World := { clock : Z; drawn : string }.

Section WithExternals.
Context (E : Externals).

Definition setAuthToken (token : JsValue) (b : Browser) : Browser :=
  {| authToken := token;
     localStorage :=
       if truthy token
       then <[ "authToken" := ToString E token ]> (localStorage b)
       else delete "authToken" (localStorage b) |}.

Definition getAuthToken (b : Browser) : JsValue * Browser :=
  if negb (truthy (authToken b))
  then let token := js_text (localStorage b !! "authToken") in
       (token, {| authToken := token; localStorage := localStorage b |})
  else (authToken b, b).

(** [headers['Authorization']] of [apiCall] *)
Definition bearer (token : JsValue) : option string :=
  if truthy token then Some ("Bearer " +:+ ToString E token) else None.

Definition apiCall (fetch : Fetch) (b : Browser) (db : Db)
    : Outcome * Browser * Db :=
  let '(token, b) := getAuthToken b in
  let '(response, db) := fetch (bearer token) db in
  match parsed (body response) with
  | None => (Rejected, b, db)
  | Some data =>
      if negb (ok response)
      then (Thrown (ToString E (if truthy (property data "message")
                                then property data "message"
                                else JStr "API request failed")), b, db)
      else (Returned data, b, db)
  end.

(** The server behind [API_BASE_URL]. *)
Definition request (r : Route) (body : gmap string JsValue) (userId : string)
    (w : World) : Fetch :=
  fun header db =>
    serve E r {| authorization := header; req_body := json body;
                 params_userId := userId; now := clock w; salt := drawn w |} db.

(** [if (data.token) setAuthToken(data.token)] *)
Definition store_token (result : Outcome * Browser * Db) : Outcome * Browser * Db :=
  match result with
  | (Returned data, b, db) =>
      if truthy (property data "token")
      then (Returned data, setAuthToken (property data "token") b, db)
      else result
  | _ => result
  end.

(** [API.login(email, password)] *)
Definition login (email password : JsValue) (w : World) (b : Browser) (db : Db)
    : Outcome * Browser * Db :=
  store_token
    (apiCall (request PostLogin {[ "email" := email; "password" := password ]} "" w)
             b db).

(** [API.signup(userData)] *)
Definition signup (userData : gmap string JsValue) (w : World) (b : Browser)
    (db : Db) : Outcome * Browser * Db :=
  store_token (apiCall (request PostSignup userData "" w) b db).

(** [API.getUsers()] *)
Definition getUsers (w : World) (b : Browser) (db : Db) : Outcome * Browser * Db :=
  apiCall (request GetUsers ∅ "" w) b db.

(** [API.getStores()] *)
Definition getStores (w : World) (b : Browser) (db : Db) : Outcome * Browser * Db :=
  apiCall (request GetStores ∅ "" w) b db.

(** [API.addUser(userData)], before its [return true] *)
Definition addUser (userData : gmap string JsValue) (w : World) (b : Browser)
    (db : Db) : Outcome * Browser * Db :=
  apiCall (request PostAdminUsers userData "" w) b db.

(** [API.addStore(storeData)], before its [return true] *)
Definition addStore (storeData : gmap string JsValue) (w : World) (b : Browser)
    (db : Db) : Outcome * Browser * Db :=
  apiCall (request PostAdminStores storeData "" w) b db.

(** [API.submitRating(userId, storeId, rating, userEmail)], before its
    [return true] *)
Definition submitRating (userId storeId rating userEmail : JsValue) (w : World)
    (b : Browser) (db : Db) : Outcome * Browser * Db :=
  apiCall (request PostRatings
             {[ "userId" := userId; "storeId" := storeId; "rating" := rating ]} "" w)
          b db.

(** [API.updatePassword(userId, newPassword)], before its [return true] *)
Definition updatePassword (userId newPassword : JsValue) (w : World) (b : Browser)
    (db : Db) : Outcome * Browser * Db :=
  apiCall (request PutPassword {[ "newPassword" := newPassword ]}
             (ToString E userId) w) b db.

(** [API.logout()] *)
Definition logout (b : Browser) : Browser := setAuthToken JNull b.

(** The [validate] object of the front end: the same text as the one of
    the server. *)
Definition validate_name (name : JsValue) : option string :=
  if negb (truthy name) || js_lt E (length_of name) (JInt 20)
  then Some "Name must be at least 20 characters."
  else if js_gt E (length_of name) (JInt 60)
  then Some "Name cannot exceed 60 characters."
  else None.

Definition validate_address (address : JsValue) : option string :=
  if negb (truthy address) || strict_eq (length_of address) (JInt 0)
  then Some "Address is required."
  else if js_gt E (length_of address) (JInt 400)
  then Some "Address cannot exceed 400 characters."
  else None.

Definition validate_password (password : JsValue) : option string :=
  if negb (truthy password) || js_lt E (length_of password) (JInt 8)
  then Some "Password must be 8-16 characters."
  else if js_gt E (length_of password) (JInt 16)
  then Some "Password must be 8-16 characters."
  else if negb (Regex.test upper_re (ToString E password))
  then Some "Password must include at least one uppercase letter."
  else if negb (Regex.test special_re (ToString E password))
  then Some "Password must include at least one special character (!@#$%^&*())."
  else None.

Definition validate_email (email : JsValue) : option string :=
  if negb (Regex.matches email_re (ToString E email))
  then Some "Invalid email format."
  else None.

(** [if (e) errors.k = e] *)
Definition note (k : string) (e : option string) (errors : gmap string string)
    : gmap string string :=
  match e with
  | Some m => if negb (String.eqb m "") then <[ k := m ]> errors else errors
  | None => errors
  end.

(** [validateForm(data, isStore)] of the administrator's dashboard *)
Definition validateForm (data : gmap string JsValue) (isStore : bool)
    : gmap string string :=
  let get k := default JUndefined (data !! k) in
  let errors := ∅ in
  let errors := note "name" (validate_name (get "name")) errors in
  let errors := note "email" (validate_email (get "email")) errors in
  let errors := note "address" (validate_address (get "address")) errors in
  let errors :=
    if negb isStore then note "password" (validate_password (get "password")) errors
    else errors in
  let errors :=
    if negb isStore && negb (truthy (get "role"))
    then <[ "role" := "Role is required" ]> errors else errors in
  errors.

(** [handleAddUser], up to the answer of [API.addUser]: the form is sent
    when [validateForm] has found nothing; [None] is the early [return]. *)
Definition handleAddUser (formData : gmap string JsValue) (w : World) (b : Browser)
    (db : Db) : option (Outcome * Browser * Db) :=
  let errors := validateForm formData false in
  if (0 <? size errors)%nat then None
  else Some (addUser formData w b db).

(** [handleAddStore], up to the answer of [API.addStore] *)
Definition handleAddStore (formData : gmap string JsValue) (w : World) (b : Browser)
    (db : Db) : option (Outcome * Browser * Db) :=
  let errors :=
    validateForm (<[ "role" := JStr "store_owner" ]>
                    (<[ "password" := JStr "Store@123" ]> formData)) true in
  if (0 <? size errors)%nat then None
  else Some (addStore (<[ "password" := JStr "Store@123" ]> formData) w b db).

End WithExternals.

End Frontend.

(** ** The two kinds of answers *)

Module Answers.
Import Js Server.

(** An answer with status 200 or 201 and a JSON body. *)
Definition success (a : Response) : Prop :=
  (status a = 200 \/ status a = 201) /\
  exists data, Frontend.parsed (body a) = Some data.

(** An answer [{ message }] with a text and one of the four error
    statuses of the program. *)
Definition failure (a : Response) : Prop :=
  exists code msg,
    a = message code msg /\ msg <> "" /\
    (code = 400 \/ code = 401 \/ code = 403 \/ code = 500).

End Answers.

(** ** db/schema.sql as a script, and the seed script db/seedData.js *)

Module Seed.
Import Js Pg.

(** Running db/schema.sql: the three tables are dropped and created
    again, empty, with new sequences. *)
Definition schema_sql (db : Db) : Db :=
  {| users := []; stores := []; ratings := [];
     users_id_seq := 1; stores_id_seq := 1; ratings_id_seq := 1 |}.

(** The row of [INSERT INTO ratings (user_id, store_id, rating)], when
    every constraint of the table accepts it. *)
Definition new_rating (id : Z) (user_id store_id rating : option Z) (db : Db)
    : result RatingRow :=
  user_id ← not_null user_id;
  store_id ← not_null store_id;
  rating ← not_null rating;
  _ ← require check_violation (check_rating rating);
  _ ← require unique_violation (bool_decide (id ∉ r_id <$> ratings db));
  _ ← require unique_violation
        (bool_decide ((user_id, store_id) ∉ pair_of <$> ratings db));
  _ ← require foreign_key_violation (bool_decide (user_id ∈ u_id <$> users db));
  _ ← require foreign_key_violation (bool_decide (store_id ∈ s_id <$> stores db));
  mret {| r_id := id; r_user_id := user_id; r_store_id := store_id;
          r_rating := rating |}.

(** [INSERT INTO ratings (user_id, store_id, rating) VALUES ($1, $2, $3)],
    without [ON CONFLICT]. *)
Definition insert_rating (user_id store_id rating : option Z) (db : Db)
    : result RatingRow * Db :=
  match nextval (ratings_id_seq db) with
  | Error c => (Error c, db)
  | Ok id =>
      match new_rating id user_id store_id rating db with
      | Ok row =>
          (Ok row,
           {| users := users db; stores := stores db;
              ratings := ratings db ++ [row];
              users_id_seq := users_id_seq db; stores_id_seq := stores_id_seq db;
              ratings_id_seq := id + 1 |})
      | Error c =>
          (Error c,
           {| users := users db; stores := stores db; ratings := ratings db;
              users_id_seq := users_id_seq db; stores_id_seq := stores_id_seq db;
              ratings_id_seq := id + 1 |})
      end
  end.

(** The statements of a script, one after the other on the state the
    one before left, up to the first that throws. *)
Definition Script (A : Type) : Type := Db -> result A * Db.

Definition and_then {A B} (m : Script A) (f : A -> Script B) : Script B :=
  fun db =>
    match m db with
    | (Ok a, db1) => f a db1
    | (Error c, db1) => (Error c, db1)
    end.

Definition done {A} (a : A) : Script A := fun db => (Ok a, db).

Notation "'await' x := m 'in' k" := (and_then m (fun x => k))
  (at level 10, x name, m at level 100, k at level 200).

(** The three salts bcrypt draws for the three hashes. *)
Record Salts := { salt_admin : string; salt_user : string; salt_store : string }.

(** The data the comment of db/seed.sql describes, with the names and
    addresses of the script and the three hashes: six users, the stores of
    users 3 and 4, and four ratings. *)
Definition seeded (adminPassword userPassword storePassword : string) : Db :=
  {| users :=
       [ {| u_id := 1; u_name := "Admin User Administrator";
            u_email := "admin@app.com"; u_password := adminPassword;
            u_address := Some "123 System Lane, Admin City"; u_role := "admin" |};
         {| u_id := 2; u_name := "Jane Doe Normal User Account";
            u_email := "jane@user.com"; u_password := userPassword;
            u_address := Some "456 Normal Street, User City"; u_role := "user" |};
         {| u_id := 3; u_name := "MegaMart Owner Account Manager";
            u_email := "megamart@owner.com"; u_password := storePassword;
            u_address := Some "700 Industrial Avenue, Store City";
            u_role := "store_owner" |};
         {| u_id := 4; u_name := "QuickStop Owner Manager Account";
            u_email := "qs@owner.com"; u_password := storePassword;
            u_address := Some "888 City Center Boulevard, Downtown";
            u_role := "store_owner" |};
         {| u_id := 5; u_name := "Alice Smith Regular User Testing";
            u_email := "alice@test.com"; u_password := userPassword;
            u_address := Some "101 Pine Street, Residential Area"; u_role := "user" |};
         {| u_id := 6; u_name := "Bob Johnson Normal User Test Account";
            u_email := "bob@test.com"; u_password := userPassword;
            u_address := Some "202 Oak Street Apartment 5B"; u_role := "user" |} ];
     stores :=
       [ {| s_id := 1; s_name := "MegaMart Superstore Chain";
            s_email := "megamart@store.com";
            s_address := Some "700 Industrial Avenue, Store City"; s_owner_id := 3 |};
         {| s_id := 2; s_name := "QuickStop Deli and Convenience Store";
            s_email := "quickstop@store.com";
            s_address := Some "888 City Center Boulevard, Downtown";
            s_owner_id := 4 |} ];
     ratings :=
       [ {| r_id := 1; r_user_id := 2; r_store_id := 1; r_rating := 5 |};
         {| r_id := 2; r_user_id := 5; r_store_id := 1; r_rating := 4 |};
         {| r_id := 3; r_user_id := 6; r_store_id := 2; r_rating := 5 |};
         {| r_id := 4; r_user_id := 2; r_store_id := 2; r_rating := 3 |} ];
     users_id_seq := 7; stores_id_seq := 3; ratings_id_seq := 5 |}.

Section WithExternals.
Context (E : Externals).

(** [await bcrypt.hash(data, SALT_ROUNDS)]: a rejected promise throws
    an error without an SQLSTATE, for which the empty code stands. *)
Definition hash (salt data : string) : Script string :=
  fun db =>
    match bcrypt_hash E salt (JStr data) with
    | Some h => (Ok h, db)
    | None => (Error "", db)
    end.

(** The statements of [seedDatabase] between [BEGIN] and [COMMIT]. *)
Definition statements (s : Salts) : Script unit :=
  await adminPassword := hash (salt_admin s) "Admin@123" in
  await userPassword := hash (salt_user s) "User@123" in
  await storePassword := hash (salt_store s) "Store@123" in
  await adminResult :=
    insert_user (Some "Admin User Administrator") (Some "admin@app.com")
      (Some adminPassword) (Some "123 System Lane, Admin City") (Some "admin") in
  await janeResult :=
    insert_user (Some "Jane Doe Normal User Account") (Some "jane@user.com")
      (Some userPassword) (Some "456 Normal Street, User City") (Some "user") in
  await megamartOwnerResult :=
    insert_user (Some "MegaMart Owner Account Manager") (Some "megamart@owner.com")
      (Some storePassword) (Some "700 Industrial Avenue, Store City")
      (Some "store_owner") in
  let megamartOwnerId := u_id megamartOwnerResult in
  await quickstopOwnerResult :=
    insert_user (Some "QuickStop Owner Manager Account") (Some "qs@owner.com")
      (Some storePassword) (Some "888 City Center Boulevard, Downtown")
      (Some "store_owner") in
  let quickstopOwnerId := u_id quickstopOwnerResult in
  await aliceResult :=
    insert_user (Some "Alice Smith Regular User Testing") (Some "alice@test.com")
      (Some userPassword) (Some "101 Pine Street, Residential Area") (Some "user") in
  await bobResult :=
    insert_user (Some "Bob Johnson Normal User Test Account") (Some "bob@test.com")
      (Some userPassword) (Some "202 Oak Street Apartment 5B") (Some "user") in
  await megamartStoreResult :=
    insert_store (Some "MegaMart Superstore Chain") (Some "megamart@store.com")
      (Some "700 Industrial Avenue, Store City") (Some megamartOwnerId) in
  let megamartStoreId := s_id megamartStoreResult in
  await quickstopStoreResult :=
    insert_store (Some "QuickStop Deli and Convenience Store")
      (Some "quickstop@store.com") (Some "888 City Center Boulevard, Downtown")
      (Some quickstopOwnerId) in
  let quickstopStoreId := s_id quickstopStoreResult in
  await rated1 := insert_rating (Some (u_id janeResult)) (Some megamartStoreId) (Some 5) in
  await rated2 := insert_rating (Some (u_id aliceResult)) (Some megamartStoreId) (Some 4) in
  await rated3 := insert_rating (Some (u_id bobResult)) (Some quickstopStoreId) (Some 5) in
  await rated4 := insert_rating (Some (u_id janeResult)) (Some quickstopStoreId) (Some 3) in
  done tt.

(** [seedDatabase]: [COMMIT] after the last statement, [ROLLBACK] and
    the error thrown again after the first that fails. *)
Definition seedDatabase (s : Salts) (db : Db) : result unit * Db :=
  match statements s db with
  | (Ok _, db') => (Ok tt, db')
  | (Error code, db') => (Error code, rollback db db')
  end.

End WithExternals.

End Seed.

(** ** Requests, a browser and salts for the examples *)

Module Examples.
Import Js Pg Server.

(** The token of Jane, signed at time 0. *)
Definition jane_token : string := Sample.sign 0 (Sample.payload_of Sample.jane).

(** A request that sends it under another scheme, and one that sends it
    alone. *)
Definition basic_scheme : Request :=
  {| authorization := Some ("Basic " +:+ jane_token); req_body := ∅;
     params_userId := "2"; now := 100; salt := "s" |}.

Definition bare : Request :=
  {| authorization := Some jane_token; req_body := ∅;
     params_userId := "2"; now := 100; salt := "s" |}.

(** A registration that asks for the role of an administrator, and the
    login that follows it. *)
Definition newcomer : Request :=
  Sample.anonymous
    [("name", JStr "Carol Newcomer of the West Side");
     ("email", JStr "carol@user.com"); ("address", JStr "4 West Street");
     ("password", JStr "Carol@123"); ("role", JStr "admin")].


Definition newcomer_login : Request :=
  Sample.anonymous [("email", JStr "carol@user.com"); ("password", JStr "Carol@123")].

(** The administrator creates an administrator, and a store. *)
Definition second_admin : Request :=
  Sample.request_of Sample.admin
    [("name", JStr "Dora Second Administrator");
     ("email", JStr "dora@app.com"); ("address", JStr "5 North Street");
     ("password", JStr "Dora@1234"); ("role", JStr "admin")].

Definition quickstop : Request :=
  Sample.request_of Sample.admin
    [("name", JStr "QuickStop Deli and Convenience");
     ("email", JStr "quickstop@store.com"); ("address", JStr "6 City Center")].

Definition quickstop_login : Request :=
  Sample.anonymous
    [("email", JStr "quickstop@store.com"); ("password", JStr "Store@123")].

(** Jane changes her password, and logs in again. *)
Definition jane_changes_password : Request :=
  Sample.request_of Sample.jane [("newPassword", JStr "Janes@456")].

Definition jane_login (password : string) : Request :=
  Sample.anonymous [("email", JStr "jane@user.com"); ("password", JStr password)].

(** The database of the examples with two ratings of the store. *)
Definition rated_db : Db :=
  {| users := [Sample.admin; Sample.jane; Sample.owner];
     stores := [Sample.megamart];
     ratings := [ {| r_id := 1; r_user_id := 2; r_store_id := 1; r_rating := 4 |};
                  {| r_id := 2; r_user_id := 1; r_store_id := 1; r_rating := 5 |} ];
     users_id_seq := 4; stores_id_seq := 2; ratings_id_seq := 3 |}.

(** Jane rates a store that does not exist. *)
Definition jane_rates_store_7 : Request :=
  Sample.request_of Sample.jane
    [("userId", JInt 2); ("storeId", JInt 7); ("rating", JInt 4)].

(** A browser without a stored token, the time of a login and a later
    time. *)
Definition browser : Frontend.Browser := Frontend.loaded ∅.
Definition at_login : Frontend.World := {| Frontend.clock := 0; Frontend.drawn := "s" |}.
Definition later : Frontend.World := {| Frontend.clock := 100; Frontend.drawn := "t" |}.

(** The form of a new user and the form of a new store, filled in. *)
Definition user_form : gmap string JsValue :=
  {[ "name" := JStr "Dora Second Administrator"; "email" := JStr "dora@app.com";
     "address" := JStr "5 North Street"; "password" := JStr "Dora@1234";
     "role" := JStr "admin" ]}.

Definition salts : Seed.Salts :=
  {| Seed.salt_admin := "a"; Seed.salt_user := "b"; Seed.salt_store := "c" |}.

(** A request at time 200 with the token of a login of Jane at time 100. *)
Definition jane_session : Request :=
  {| authorization := Some ("Bearer " +:+ Sample.sign 100 (Sample.payload_of Sample.jane));
     req_body := ∅; params_userId := "2"; now := 200; salt := "s" |}.

(** A browser that holds the token of the administrator. *)
Definition admin_browser : Frontend.Browser :=
  Frontend.setAuthToken Sample.E
    (JStr (Sample.sign 0 (Sample.payload_of Sample.admin))) browser.

(** The answer to the login of Jane at time 100. *)
Definition jane_answer : gmap string JsValue :=
  <[ "token" := JStr (Sample.sign 100 (Sample.payload_of Sample.jane)) ]>
    (delete "password" (login_row Sample.jane)).

(** [API.login] of Jane in the browser, and what it returned. *)
Definition jane_logged_in : Frontend.Outcome * Frontend.Browser * Db :=
  Frontend.login Sample.E (JStr "jane@user.com") (JStr "User@123") at_login
    browser Sample.db.

Definition jane_data : Body :=
  match jane_logged_in.1.1 with
  | Frontend.Returned data => data
  | _ => Json ∅
  end.

(** The database after the seed script on a new schema, with the hashes
    of the run time of the examples. *)
Definition seeded : Db :=
  Seed.seeded "$2b$10$a$Admin@123" "$2b$10$b$User@123" "$2b$10$c$Store@123".

End Examples.

(** * Properties *)

(** ** The outcomes of the statements *)

Module PgFacts.
Import Pg.

Lemma nextval_room seq : seq <= serial_max -> nextval seq = Ok seq.
Proof. intros H. unfold nextval. by destruct (Z.leb_spec seq serial_max); [|lia]. Qed.

Lemma nextval_ok seq id : nextval seq = Ok id -> id = seq /\ seq <= serial_max.
Proof.
  unfold nextval. destruct (Z.leb_spec seq serial_max); [|done].
  by intros [= <-].
Qed.

Lemma nextval_out seq : serial_max < seq ->
  nextval seq = Error sequence_generator_limit_exceeded.
Proof. intros H. unfold nextval. by destruct (Z.leb_spec seq serial_max); [lia |]. Qed.

Lemma text_param_ok v w : text_param v = Ok w -> w = v.
Proof. destruct v as [s|]; simpl; [destruct (has_nul s) |]; by intros [= <-]. Qed.

Lemma text_param_refused v c :
  text_param v = Error c -> c = character_not_in_repertoire.
Proof. destruct v as [s|]; simpl; [destruct (has_nul s) |]; by intros [= <-]. Qed.

Lemma text_param_clean s : has_nul s = false -> text_param (Some s) = Ok (Some s).
Proof. intros H. simpl. by rewrite H. Qed.

(** A lookup by email that runs has read its text. *)
Lemma select_by_email_ok email db rows :
  select_by_email email db = Ok rows ->
  rows = users_by_email email db /\ text_param email = Ok email.
Proof.
  unfold select_by_email. destruct (text_param email) as [e|c] eqn:He; [|done].
  pose proof (text_param_ok _ _ He) as ->. by intros [= <-].
Qed.

Lemma select_by_email_read email db :
  text_param email = Ok email ->
  select_by_email email db = Ok (users_by_email email db).
Proof. intros H. unfold select_by_email. by rewrite H. Qed.

Lemma select_by_email_clean e db :
  has_nul e = false -> select_by_email (Some e) db = Ok (users_by_email (Some e) db).
Proof. intros H. unfold select_by_email. by rewrite text_param_clean. Qed.

(** The values the server takes are the parameters, cut to their
    columns. *)
Lemma user_values_ok name email password address role n e p a r :
  user_values name email password address role = Ok (n, e, p, a, r) ->
  varchar 60 name = Ok n /\ varchar 255 email = Ok e /\
  varchar 255 password = Ok p /\ a = address /\ varchar 20 role = Ok r /\
  text_param name = Ok name /\ text_param email = Ok email /\
  text_param password = Ok password /\ text_param address = Ok address /\
  text_param role = Ok role.
Proof.
  unfold user_values. intros H.
  destruct (text_param name) as [n0|] eqn:H1; [|done].
  destruct (text_param email) as [e0|] eqn:H2; [|done].
  destruct (text_param password) as [p0|] eqn:H3; [|done].
  destruct (text_param address) as [a0|] eqn:H4; [|done].
  destruct (text_param role) as [r0|] eqn:H5; [|done].
  pose proof (text_param_ok _ _ H1). pose proof (text_param_ok _ _ H2).
  pose proof (text_param_ok _ _ H3). pose proof (text_param_ok _ _ H4).
  pose proof (text_param_ok _ _ H5). subst.
  cbn [mbind result_bind] in H.
  destruct (varchar 60 name) as [n1|]; [|done].
  destruct (varchar 255 email) as [e1|]; [|done].
  destruct (varchar 255 password) as [p1|]; [|done].
  destruct (varchar 20 role) as [r1|]; [|done].
  unfold mbind, result_bind, mret, result_ret in H. simplify_eq. by split_and!.
Qed.

Lemma store_values_ok name email address n e a :
  store_values name email address = Ok (n, e, a) ->
  varchar 60 name = Ok n /\ varchar 255 email = Ok e /\ a = address /\
  text_param name = Ok name /\ text_param email = Ok email /\
  text_param address = Ok address.
Proof.
  unfold store_values. intros H.
  destruct (text_param name) as [n0|] eqn:H1; [|done].
  destruct (text_param email) as [e0|] eqn:H2; [|done].
  destruct (text_param address) as [a0|] eqn:H3; [|done].
  pose proof (text_param_ok _ _ H1). pose proof (text_param_ok _ _ H2).
  pose proof (text_param_ok _ _ H3). subst.
  cbn [mbind result_bind] in H.
  destruct (varchar 60 name) as [n1|]; [|done].
  destruct (varchar 255 email) as [e1|]; [|done].
  unfold mbind, result_bind, mret, result_ret in H. simplify_eq. by split_and!.
Qed.

(** The state after a statement that drew a key of [users] and added
    [rows], and the same for [stores]. *)
Lemma insert_user_outcome name email password address role db :
  match insert_user name email password address role db with
  | (Ok row, db') =>
      (exists n e p a r,
         user_values name email password address role = Ok (n, e, p, a, r) /\
         new_user (users_id_seq db) n e p a r db = Ok row) /\
      users_id_seq db <= serial_max /\
      db' = {| users := users db ++ [row]; stores := stores db;
               ratings := ratings db; users_id_seq := users_id_seq db + 1;
               stores_id_seq := stores_id_seq db;
               ratings_id_seq := ratings_id_seq db |}
  | (Error _, db') =>
      db' = db \/
      db' = {| users := users db; stores := stores db; ratings := ratings db;
               users_id_seq := users_id_seq db + 1;
               stores_id_seq := stores_id_seq db;
               ratings_id_seq := ratings_id_seq db |}
  end.
Proof.
  unfold insert_user.
  destruct (user_values _ _ _ _ _) as [[[[[n e] p] a] r]|c] eqn:Hv; [|by left].
  destruct (nextval _) as [id|c] eqn:Hid; [|by left].
  apply nextval_ok in Hid as [-> Hroom].
  destruct (new_user _ _ _ _ _ _ db) as [row|c] eqn:Hnew; [|by right].
  split; [by exists n, e, p, a, r | done].
Qed.

Lemma insert_store_outcome name email address owner db :
  match insert_store name email address owner db with
  | (Ok row, db') =>
      (exists n e a,
         store_values name email address = Ok (n, e, a) /\
         new_store (stores_id_seq db) n e a owner db = Ok row) /\
      stores_id_seq db <= serial_max /\
      db' = {| users := users db; stores := stores db ++ [row];
               ratings := ratings db; users_id_seq := users_id_seq db;
               stores_id_seq := stores_id_seq db + 1;
               ratings_id_seq := ratings_id_seq db |}
  | (Error _, db') =>
      db' = db \/
      db' = {| users := users db; stores := stores db; ratings := ratings db;
               users_id_seq := users_id_seq db;
               stores_id_seq := stores_id_seq db + 1;
               ratings_id_seq := ratings_id_seq db |}
  end.
Proof.
  unfold insert_store.
  destruct (store_values _ _ _) as [[[n e] a]|c] eqn:Hv; [|by left].
  destruct (nextval _) as [id|c] eqn:Hid; [|by left].
  apply nextval_ok in Hid as [-> Hroom].
  destruct (new_store _ _ _ _ _ db) as [row|c] eqn:Hnew; [|by right].
  split; [by exists n, e, a | done].
Qed.

(** The upsert either leaves the state as it was, on a sequence that has
    run out, or spends one value of the sequence. *)
Lemma upsert_rating_outcome user_id store_id rating db :
  match upsert_rating user_id store_id rating db with
  | (Ok id, db') =>
      exists rows,
        upsert user_id store_id rating db = Ok (id, rows) /\
        ratings_id_seq db <= serial_max /\ db' = with_ratings db rows
  | (Error _, db') =>
      db' = db \/ db' = with_ratings db (ratings db)
  end.
Proof.
  unfold upsert_rating.
  destruct (nextval _) as [id|c] eqn:Hid; [|by left].
  apply nextval_ok in Hid as [-> Hroom].
  destruct (upsert _ _ _ db) as [[id rows]|c]; [|by right].
  by exists rows.
Qed.

Lemma upsert_rating_room user_id store_id rating db :
  ratings_id_seq db <= serial_max ->
  upsert_rating user_id store_id rating db
  = match upsert user_id store_id rating db with
    | Ok (id, rows) => (Ok id, with_ratings db rows)
    | Error c => (Error c, with_ratings db (ratings db))
    end.
Proof.
  intros Hroom. unfold upsert_rating. rewrite nextval_room by done.
  by destruct (upsert _ _ _ db) as [[id rows]|c].
Qed.

End PgFacts.

(** ** The matcher decides the language of a pattern *)

Module RegexFacts.
Import Regex.

Lemma lang_seq_inv r t w :
  lang (Seq r t) w -> exists u v, w = u +:+ v /\ lang r u /\ lang t v.
Proof. inversion 1; subst; eauto. Qed.

Lemma lang_class_inv p w :
  lang (Class p) w -> exists c, w = String c "" /\ p c = true.
Proof. inversion 1; subst; eauto. Qed.

Lemma lang_alt_inv r t w : lang (Alt r t) w -> lang r w \/ lang t w.
Proof. inversion 1; subst; eauto. Qed.

Lemma append_nil_l (v : string) : "" +:+ v = v.
Proof. reflexivity. Qed.

Lemma append_cons (a : ascii) (u v : string) :
  String a u +:+ v = String a (u +:+ v).
Proof. reflexivity. Qed.

Lemma append_nil_inv (u v : string) : u +:+ v = "" -> u = "" /\ v = "".
Proof. destruct u; [rewrite append_nil_l; auto | discriminate]. Qed.

Lemma nullable_lang r : nullable r = true <-> lang r "".
Proof.
  induction r as [| |p|r IHr s IHs|r IHr s IHs|r IHr]; simpl.
  - split; [discriminate | inversion 1].
  - split; [constructor | reflexivity].
  - split; [discriminate | inversion 1].
  - rewrite andb_true_iff, IHr, IHs. split.
    + intros [Hr Hs]. change "" with ("" +:+ ""). by constructor.
    + intros (u & v & Heq & Hu & Hv)%lang_seq_inv.
      symmetry in Heq. apply append_nil_inv in Heq as [-> ->]. done.
  - rewrite orb_true_iff, IHr, IHs. split.
    + intros [H|H]; [by apply lang_alt_l | by apply lang_alt_r].
    + apply lang_alt_inv.
  - split; [constructor | reflexivity].
Qed.

Lemma lang_star_cons_inv r c s :
  lang (Star r) (String c s) ->
  exists u v, s = u +:+ v /\ lang r (String c u) /\ lang (Star r) v.
Proof.
  intros H. remember (Star r) as t eqn:Ht. remember (String c s) as w eqn:Hw.
  revert s Hw. induction H as [| | | | | |r' u v Hu _ Hv IHv]; try discriminate.
  injection Ht as Hr. subst r'. intros s Hw.
  destruct u as [|a u]; rewrite ?append_nil_l, ?append_cons in Hw.
  - by apply IHv.
  - injection Hw as Ha Hs. subst a s. by exists u, v.
Qed.

Lemma deriv_lang c r s : lang (deriv c r) s <-> lang r (String c s).
Proof.
  revert s. induction r as [| |p|r IHr t IHt|r IHr t IHt|r IHr]; intros s; simpl.
  - split; inversion 1.
  - split; inversion 1.
  - destruct (p c) eqn:Hp; split.
    + inversion 1; subst. by constructor.
    + intros (c' & Heq & _)%lang_class_inv.
      injection Heq as _ Hs. subst s. constructor.
    + inversion 1.
    + intros (c' & Heq & Hp')%lang_class_inv.
      injection Heq as Hc _. congruence.
  - assert (Hseq : lang (Seq (deriv c r) t) s ->
                   lang (Seq r t) (String c s)).
    { intros (u & v & -> & Hu & Hv)%lang_seq_inv.
      change (String c (u +:+ v)) with (String c u +:+ v).
      constructor; [by apply IHr | done]. }
    assert (Hinv : lang (Seq r t) (String c s) ->
                   lang (Seq (deriv c r) t) s \/
                   (lang r "" /\ lang t (String c s))).
    { intros (u & v & Heq & Hu & Hv)%lang_seq_inv.
      destruct u as [|a u]; rewrite ?append_nil_l, ?append_cons in Heq.
      - right. subst v. by split.
      - injection Heq as Ha Hs. subst a s. left.
        constructor; [by apply IHr | done]. }
    destruct (nullable r) eqn:Hn; split.
    + intros [H|H]%lang_alt_inv; [by apply Hseq |].
      change (String c s) with ("" +:+ String c s).
      constructor; [by apply nullable_lang | by apply IHt].
    + intros H. destruct (Hinv H) as [H1|[_ H2]].
      * by apply lang_alt_l.
      * apply lang_alt_r. by apply IHt.
    + apply Hseq.
    + intros H. destruct (Hinv H) as [H1|[H1 _]]; [done |].
      apply nullable_lang in H1. congruence.
  - split.
    + intros [H|H]%lang_alt_inv; [apply lang_alt_l, IHr | apply lang_alt_r, IHt]; done.
    + intros [H|H]%lang_alt_inv; [apply lang_alt_l, IHr | apply lang_alt_r, IHt]; done.
  - split.
    + intros (u & v & -> & Hu & Hv)%lang_seq_inv.
      change (String c (u +:+ v)) with (String c u +:+ v).
      constructor; [by apply IHr | done].
    + intros H. apply lang_star_cons_inv in H as (u & v & -> & Hu & Hv).
      constructor; [by apply IHr | done].
Qed.

Lemma matches_lang r s : matches r s = true <-> lang r s.
Proof.
  revert r. induction s as [|c s IH]; intros r; simpl.
  - apply nullable_lang.
  - rewrite IH. apply deriv_lang.
Qed.

Lemma lang_star_any s : lang (Star any) s.
Proof.
  induction s as [|c s IH]; [constructor |].
  change (String c s) with (String c "" +:+ s).
  constructor; [by constructor | done].
Qed.

Lemma list_ascii_app u v :
  list_ascii_of_string (u +:+ v) = list_ascii_of_string u ++ list_ascii_of_string v.
Proof.
  induction u as [|c u IH]; [done |].
  rewrite append_cons. simpl. by rewrite IH.
Qed.

(** A class without anchors is found in a string exactly when one of its
    characters is in the class. *)
Lemma test_class p s :
  test (Class p) s = true <->
  exists c, c ∈ list_ascii_of_string s /\ p c = true.
Proof.
  unfold test. rewrite matches_lang. split.
  - intros (u & v & -> & _ & Hv)%lang_seq_inv.
    apply lang_seq_inv in Hv as (u' & v' & -> & Hu' & _).
    apply lang_class_inv in Hu' as (c & -> & Hp).
    exists c. split; [|done].
    rewrite !list_ascii_app. simpl. set_solver.
  - intros (c & Hin & Hp).
    apply list_elem_of_split in Hin as (l1 & l2 & Heq).
    rewrite <- (string_of_list_ascii_of_string s), Heq.
    replace (string_of_list_ascii (l1 ++ c :: l2))
      with (string_of_list_ascii l1 +:+ (String c "" +:+ string_of_list_ascii l2)).
    + constructor; [apply lang_star_any |].
      constructor; [by constructor | apply lang_star_any].
    + clear. induction l1 as [|a l1 IH]; [done |].
      simpl. by rewrite append_cons, IH.
Qed.

End RegexFacts.

(** ** Comparisons of JavaScript values *)

Module ValueFacts.
Import Js.

Lemma lt_inject_Z (a b : Z) : lt (Fin (inject_Z a)) (Fin (inject_Z b)) = (a <? b).
Proof.
  unfold lt, Qle_bool, inject_Z. simpl. rewrite !Z.mul_1_r.
  destruct (Z.leb_spec b a), (Z.ltb_spec a b); simpl; lia.
Qed.

Lemma strict_eq_JInt a b : strict_eq (JInt a) (JInt b) = bool_decide (a = b).
Proof.
  unfold strict_eq, JInt, num_eq, Qeq_bool, inject_Z. simpl.
  rewrite !Z.mul_1_r.
  destruct (Z.eqb_spec a b); [by rewrite bool_decide_true | by rewrite bool_decide_false].
Qed.

Lemma strict_eq_refl_int z : strict_eq (JInt z) (JInt z) = true.
Proof. simpl. apply Qeq_bool_refl. Qed.

(** Only a number is strictly equal to a number. *)
Lemma strict_eq_number z v :
  strict_eq (JInt z) v = true <-> exists q, v = JNum (Fin q) /\ (q == inject_Z z)%Q.
Proof.
  split.
  - destruct v as [| |b|[|neg|q]|s]; try discriminate. simpl.
    intros H%Qeq_bool_iff. exists q. split; [done |]. by symmetry.
  - intros (q & -> & Hq). simpl. apply Qeq_bool_iff. by symmetry.
Qed.

Lemma truthy_int z : z <> 0 -> truthy (JInt z) = true.
Proof.
  intros Hz. simpl. apply negb_true_iff, not_true_iff_false.
  intros H%Qeq_bool_iff. apply Hz.
  apply (inject_Z_injective z 0). exact H.
Qed.

Lemma js_lt_length E s k :
  js_lt E (length_of (JStr s)) (JInt k) = (Z.of_nat (String.length s) <? k).
Proof. apply lt_inject_Z. Qed.

Lemma js_gt_length E s k :
  js_gt E (length_of (JStr s)) (JInt k) = (k <? Z.of_nat (String.length s)).
Proof. apply lt_inject_Z. Qed.

End ValueFacts.

(** ** The password validator *)

Module ValidateFacts.
Import Js Regex Pg Server Spec RegexFacts ValueFacts.

Lemma in_range_spec lo hi c :
  in_range lo hi c = true <->
  (nat_of_ascii lo <= nat_of_ascii c <= nat_of_ascii hi)%nat.
Proof.
  unfold in_range. rewrite andb_true_iff, !Nat.leb_le. done.
Qed.

Lemma one_of_spec l c : one_of l c = true <-> c ∈ list_ascii_of_string l.
Proof.
  unfold one_of. rewrite existsb_exists. split.
  - intros (x & Hin & Heq). apply Ascii.eqb_eq in Heq as ->.
    by apply list_elem_of_In.
  - intros Hin. exists c. split; [by apply list_elem_of_In | apply Ascii.eqb_refl].
Qed.

Lemma validate_password_string E s :
  validate_password E (JStr s) = None <-> acceptable_password s.
Proof.
  unfold validate_password, acceptable_password.
  rewrite js_lt_length, js_gt_length. simpl ToString. simpl truthy.
  assert (Hup : test upper_re s = true <->
                exists c, c ∈ list_ascii_of_string s /\ uppercase c).
  { unfold upper_re. rewrite test_class.
    by setoid_rewrite in_range_spec. }
  assert (Hsp : test special_re s = true <->
                exists c, c ∈ list_ascii_of_string s /\ special c).
  { unfold special_re. rewrite test_class.
    by setoid_rewrite one_of_spec. }
  rewrite <- Hup, <- Hsp.
  destruct (String.eqb_spec s "") as [->|Hne]; simpl.
  { split; [discriminate | intros [[] _]; simpl in *; lia]. }
  destruct (Z.ltb_spec (Z.of_nat (String.length s)) 8); simpl.
  { split; [discriminate | lia]. }
  destruct (Z.ltb_spec 16 (Z.of_nat (String.length s))); simpl.
  { split; [discriminate | lia]. }
  destruct (test upper_re s); simpl.
  2:{ split; [discriminate | intros (_ & ? & _); discriminate]. }
  destruct (test special_re s); simpl.
  2:{ split; [discriminate | intros (_ & _ & ?); discriminate]. }
  split; [lia | done].
Qed.

(** Claim C8.  The password validator accepts a string exactly when it
    has 8 to 16 characters, one of them an uppercase letter and one of them
    among [!@#$%^&*()]; it turns down "short1!" and "alllowercase1!" and
    accepts "Valid@123". *)
Theorem password_validation E :
  (forall s, validate_password E (JStr s) = None <-> acceptable_password s) /\
  validate_password E (JStr "short1!") <> None /\
  validate_password E (JStr "alllowercase1!") <> None /\
  validate_password E (JStr "Valid@123") = None.
Proof.
  split; [apply validate_password_string |].
  split; [discriminate |]. split; [discriminate | reflexivity].
Qed.

End ValidateFacts.

(** ** Rounding to a double *)

Module NumberFacts.
Import Js.

Lemma pow2_pos e : (0 < pow2 e)%Q.
Proof. apply Qpower_0_lt. reflexivity. Qed.

Lemma pow2_mono a b : a <= b -> (pow2 a <= pow2 b)%Q.
Proof. intros H. apply Qpower_le_compat_l; [done | discriminate]. Qed.

Lemma pow2_add a b : (pow2 (a + b) == pow2 a * pow2 b)%Q.
Proof. apply Qpower_plus. discriminate. Qed.

Lemma pow2_Z a : 0 <= a -> (pow2 a == inject_Z (2 ^ a))%Q.
Proof. intros H. unfold pow2. by rewrite Zpower_Qpower. Qed.

Lemma pow2_succ a : (pow2 (a + 1) == 2 * pow2 a)%Q.
Proof. rewrite pow2_add. change (pow2 1) with 2%Q. ring. Qed.

Lemma Q_num_den (q : Q) : (q * inject_Z (Zpos (Qden q)) == inject_Z (Qnum q))%Q.
Proof.
  destruct q as [n d]. unfold Qeq, Qmult, inject_Z. simpl. lia.
Qed.

(** [Qlog2] brackets a positive rational between two powers of two. *)
Lemma Qlog2_spec q :
  (0 < q)%Q -> (pow2 (Qlog2 q) <= q)%Q /\ (q < pow2 (Qlog2 q + 1))%Q.
Proof.
  intros Hq.
  pose proof (Q_num_den q) as Hnd.
  assert (Hn : 0 < Qnum q).
  { destruct q as [n d]. unfold Qlt in Hq. simpl in *. lia. }
  set (n := Qnum q) in *. set (d := Zpos (Qden q)) in *.
  assert (Hd : 0 < d) by done.
  destruct (Z.log2_spec n Hn) as [Hn1 Hn2].
  destruct (Z.log2_spec d Hd) as [Hd1 Hd2].
  pose proof (Z.log2_nonneg n) as Hln. pose proof (Z.log2_nonneg d) as Hld.
  set (ln := Z.log2 n) in *. set (ld := Z.log2 d) in *.
  assert (Hpn : (pow2 ln == inject_Z (2 ^ ln))%Q) by by apply pow2_Z.
  assert (Hpd : (pow2 ld == inject_Z (2 ^ ld))%Q) by by apply pow2_Z.
  assert (He0 : (pow2 (ln - ld) * pow2 ld == pow2 ln)%Q).
  { rewrite <- pow2_add. by replace (ln - ld + ld) with ln by lia. }
  pose proof (pow2_pos (ln - ld)) as Hp0.
  pose proof (pow2_pos ld) as Hpld.
  assert (HnQ : (inject_Z (2 ^ ln) <= inject_Z n)%Q) by by rewrite <- Zle_Qle.
  assert (HnQ' : (inject_Z n < 2 * inject_Z (2 ^ ln))%Q).
  { change 2%Q with (inject_Z 2). rewrite <- inject_Z_mult, <- Zlt_Qlt.
    rewrite Z.pow_succ_r in Hn2 by done. lia. }
  assert (HdQ : (inject_Z (2 ^ ld) <= inject_Z d)%Q) by by rewrite <- Zle_Qle.
  assert (HdQ' : (inject_Z d < 2 * inject_Z (2 ^ ld))%Q).
  { change 2%Q with (inject_Z 2). rewrite <- inject_Z_mult, <- Zlt_Qlt.
    rewrite Z.pow_succ_r in Hd2 by done. lia. }
  assert (Hup : (q < 2 * pow2 (ln - ld))%Q).
  { destruct (Qlt_le_dec q (2 * pow2 (ln - ld))) as [|Hge]; [done | exfalso].
    rewrite Hpn, Hpd in *. nra. }
  assert (Hlo : (pow2 (ln - ld) <= 2 * q)%Q).
  { destruct (Qlt_le_dec (2 * q) (pow2 (ln - ld))) as [Hlt|]; [exfalso | done].
    rewrite Hpn, Hpd in *. nra. }
  unfold Qlog2. fold n d ln ld.
  destruct (Qle_bool (pow2 (ln - ld)) q) eqn:Hb.
  - apply Qle_bool_iff in Hb. split; [done |]. by rewrite pow2_succ.
  - assert (Hlt : (q < pow2 (ln - ld))%Q).
    { apply Qnot_le_lt. intros Hle. apply Qle_bool_iff in Hle. congruence. }
    replace (ln - ld - 1 + 1) with (ln - ld) by lia. split; [|done].
    assert (Hs : (pow2 (ln - ld) == 2 * pow2 (ln - ld - 1))%Q).
    { rewrite <- pow2_succ. by replace (ln - ld - 1 + 1) with (ln - ld) by lia. }
    rewrite Hs in Hlo. lra.
Qed.


Lemma Qlog2_bounds q a b :
  (0 < q)%Q -> (pow2 a <= q)%Q -> (q < pow2 b)%Q -> a <= Qlog2 q < b.
Proof.
  intros Hq Ha Hb. destruct (Qlog2_spec q Hq) as [Hlo Hup]. split.
  - destruct (Z.le_gt_cases a (Qlog2 q)) as [|Hlt]; [done | exfalso].
    apply (Qlt_irrefl q). eapply Qlt_le_trans; [exact Hup |].
    eapply Qle_trans; [|exact Ha]. apply pow2_mono. lia.
  - destruct (Z.le_gt_cases b (Qlog2 q)) as [Hge|]; [exfalso | done].
    apply (Qlt_irrefl q). eapply Qlt_le_trans; [exact Hb |].
    eapply Qle_trans; [|exact Hlo]. by apply pow2_mono.
Qed.

Lemma round_half_even_near x :
  (x - (1 # 2) <= inject_Z (round_half_even x) <= x + (1 # 2))%Q.
Proof.
  unfold round_half_even.
  pose proof (Qfloor_le x) as Hlo. pose proof (Qlt_floor x) as Hhi.
  rewrite inject_Z_plus in Hhi. change (inject_Z 1) with 1%Q in Hhi.
  destruct (x - inject_Z (Qfloor x) ?= 1 # 2)%Q eqn:Hc.
  - apply Qeq_alt in Hc.
    destruct (Z.even (Qfloor x));
      rewrite ?inject_Z_plus; change (inject_Z 1) with 1%Q; lra.
  - apply Qlt_alt in Hc. lra.
  - apply Qgt_alt in Hc. rewrite inject_Z_plus. change (inject_Z 1) with 1%Q. lra.
Qed.

Lemma round_half_even_int x z : (x == inject_Z z)%Q -> round_half_even x = z.
Proof.
  intros Hx. pose proof (round_half_even_near x) as [H1 H2].
  set (m := round_half_even x) in *. clearbody m.
  rewrite Hx in H1, H2.
  assert (inject_Z (z + -1) < inject_Z m)%Q as Ha.
  { rewrite inject_Z_plus. change (inject_Z (-1)) with (-1)%Q. lra. }
  assert (inject_Z m < inject_Z (z + 1))%Q as Hb.
  { rewrite inject_Z_plus. change (inject_Z 1) with 1%Q. lra. }
  rewrite <- Zlt_Qlt in Ha, Hb. lia.
Qed.

Lemma Qabs_pos_eq q : (0 < q)%Q -> Qabs q = q.
Proof.
  destruct q as [n d]. unfold Qlt. simpl. intros H.
  f_equal. lia.
Qed.

(** A positive rational in the range of the normal doubles is rounded to
    the multiple of its unit in the last place that [round_half_even]
    selects. *)
Lemma round64_normal q :
  (0 < q)%Q -> -1022 <= Qlog2 q <= 1022 ->
  round64 q =
  Fin (Qred (inject_Z (round_half_even (q / pow2 (Qlog2 q - 52)))
             * pow2 (Qlog2 q - 52))).
Proof.
  intros Hq He. unfold round64.
  destruct (Qeq_bool q 0) eqn:H0.
  { apply Qeq_bool_iff in H0. lra. }
  rewrite (Qabs_pos_eq q Hq).
  replace (Z.max (Qlog2 q) (-1022)) with (Qlog2 q) by lia.
  set (e := Qlog2 q) in *. set (ulp := pow2 (e - 52)).
  destruct (Qlog2_spec q Hq) as [_ Hup]. fold e in Hup.
  pose proof (round_half_even_near (q / ulp)) as [_ Hm].
  set (m := round_half_even (q / ulp)) in *.
  assert (Hulp : (0 < ulp)%Q) by apply pow2_pos.
  assert (Hsplit : (pow2 (e + 1) == inject_Z (2 ^ 53) * ulp)%Q).
  { unfold ulp. rewrite <- pow2_Z, <- pow2_add by lia. by replace (53 + (e - 52)) with (e + 1) by lia. }
  assert (Hqu : (q / ulp * ulp == q)%Q) by (field; lra).
  assert (Hv : (inject_Z m * ulp <= pow2 (e + 1) + ulp)%Q).
  { assert (inject_Z m * ulp <= (q / ulp + (1 # 2)) * ulp)%Q as Hmu
      by (apply Qmult_le_compat_r; lra).
    set (t := (q / ulp)%Q) in *. set (P := pow2 (e + 1)) in *.
    clearbody t P ulp m. clear Hsplit.
    assert ((t + (1 # 2)) * ulp == q + (1 # 2) * ulp)%Q as Hr by (rewrite <- Hqu; ring).
    rewrite Hr in Hmu. set (v := (inject_Z m * ulp)%Q) in *. clearbody v. lra. }
  assert (Hbig : (pow2 (e + 1) + ulp < pow2 1024)%Q).
  { assert (pow2 (e + 1) <= pow2 1023)%Q by (apply pow2_mono; lia).
    assert (ulp <= pow2 1022)%Q by (apply pow2_mono; lia).
    pose proof (pow2_succ 1023) as H4. pose proof (pow2_succ 1022) as H3.
    change (1023 + 1) with 1024 in H4. change (1022 + 1) with 1023 in H3.
    pose proof (pow2_pos 1022).
    set (P2 := pow2 1022) in *. set (P3 := pow2 1023) in *.
    set (P4 := pow2 1024) in *. set (P' := pow2 (e + 1)) in *.
    clearbody P2 P3 P4 P' ulp. lra. }
  destruct (Qle_bool (pow2 1024) (inject_Z m * ulp)) eqn:Ho.
  { apply Qle_bool_iff in Ho. exfalso.
    apply (Qlt_irrefl (pow2 1024)).
    eapply Qle_lt_trans; [exact Ho |]. eapply Qle_lt_trans; [exact Hv | exact Hbig]. }
  assert (Hz : Qle_bool 0 q = true) by (apply Qle_bool_iff; lra).
  by rewrite Hz.
Qed.

Lemma Qred_inject_Z z : Qred (inject_Z z) = inject_Z z.
Proof. apply Qred_identity. simpl. apply Z.gcd_1_r. Qed.

(** Integers below [2^53] are doubles: rounding leaves them alone. *)
Lemma round64_int q z :
  (q == inject_Z z)%Q -> 0 <= z < 2 ^ 53 -> round64 q = Fin (inject_Z z).
Proof.
  intros Hq Hz. destruct (decide (z = 0)) as [->|Hnz].
  { unfold round64. assert (Qeq_bool q 0 = true) as -> by by apply Qeq_bool_iff. done. }
  assert (Hpos : (0 < q)%Q).
  { rewrite Hq. change 0%Q with (inject_Z 0). rewrite <- Zlt_Qlt. lia. }
  destruct (Qlog2_spec q Hpos) as [Hlo Hup].
  set (e := Qlog2 q) in *.
  assert (He : 0 <= e < 53).
  { apply Qlog2_bounds; [done | |].
    - change (pow2 0) with (inject_Z 1). rewrite Hq, <- Zle_Qle. lia.
    - rewrite pow2_Z, Hq, <- Zlt_Qlt by lia. lia. }
  rewrite round64_normal by (fold e; done || lia). fold e.
  f_equal. rewrite <- (Qred_inject_Z z). apply Qred_complete.
  assert (Hulp : (pow2 (e - 52) * inject_Z (2 ^ (52 - e)) == 1)%Q).
  { rewrite <- pow2_Z, <- pow2_add by lia. by replace (e - 52 + (52 - e)) with 0 by lia. }
  pose proof (pow2_pos (e - 52)) as Hp.
  set (U := pow2 (e - 52)) in *. set (A := inject_Z (2 ^ (52 - e))) in *.
  assert (Hinv : (/ U == A)%Q).
  { rewrite <- (Qmult_1_l (/ U)), <- Hulp. field. lra. }
  rewrite (round_half_even_int _ (z * 2 ^ (52 - e))).
  - rewrite inject_Z_mult. fold A. rewrite <- Qmult_assoc, (Qmult_comm A U), Hulp. ring.
  - unfold Qdiv. rewrite Hq, inject_Z_mult, Hinv. reflexivity.
Qed.


(** The error of a rounding in the normal range is at most half a unit
    in the last place. *)
Lemma round64_near q a b :
  (0 < q)%Q -> (pow2 a <= q)%Q -> (q < pow2 b)%Q -> -1022 <= a -> b <= 1023 ->
  exists v, round64 q = Fin v /\
            (q - pow2 (b - 54) <= v <= q + pow2 (b - 54))%Q.
Proof.
  intros Hq Ha Hb Hamin Hbmax.
  pose proof (Qlog2_bounds q a b Hq Ha Hb) as He.
  rewrite round64_normal by (done || lia).
  set (e := Qlog2 q) in *. eexists. split; [reflexivity |].
  rewrite Qred_correct.
  pose proof (round_half_even_near (q / pow2 (e - 52))) as [Hm1 Hm2].
  set (m := round_half_even (q / pow2 (e - 52))) in *. clearbody m.
  pose proof (pow2_pos (e - 52)) as Hulp.
  assert (Hhalf : (pow2 (e - 52) == 2 * pow2 (e - 53))%Q).
  { rewrite <- pow2_succ. by replace (e - 53 + 1) with (e - 52) by lia. }
  assert (Hle : (pow2 (e - 53) <= pow2 (b - 54))%Q) by (apply pow2_mono; lia).
  assert (Hqu : (q / pow2 (e - 52) * pow2 (e - 52) == q)%Q) by (field; lra).
  set (U := pow2 (e - 52)) in *. set (t := (q / U)%Q) in *.
  assert (H1 : ((t - (1 # 2)) * U <= inject_Z m * U)%Q)
    by (apply Qmult_le_compat_r; lra).
  assert (H2 : (inject_Z m * U <= (t + (1 # 2)) * U)%Q)
    by (apply Qmult_le_compat_r; lra).
  assert (Hr1 : ((t - (1 # 2)) * U == q - (1 # 2) * U)%Q) by (rewrite <- Hqu; ring).
  assert (Hr2 : ((t + (1 # 2)) * U == q + (1 # 2) * U)%Q) by (rewrite <- Hqu; ring).
  rewrite Hr1 in H1. rewrite Hr2 in H2.
  set (v := (inject_Z m * U)%Q) in *. set (H' := pow2 (e - 53)) in *.
  set (B := pow2 (b - 54)) in *. clearbody v H' B U t. lra.
Qed.

End NumberFacts.

(** ** The average shown by the front end *)

Module AverageFacts.
Import Js Client Spec NumberFacts ValueFacts.

Lemma ratings_of_store ratings sid :
  ratings_of ratings (JInt sid) = filter (fun r => storeId r = sid) ratings.
Proof.
  unfold ratings_of. apply list_filter_iff. intros r.
  rewrite strict_eq_JInt. by rewrite bool_decide_eq_true.
Qed.

Lemma of_Z_small z : 0 <= z < 9007199254740992 -> of_Z z = Fin (inject_Z z).
Proof. intros H. by apply round64_int. Qed.

Lemma sum_ratings_from l acc :
  Forall (fun r => 1 <= rating r <= 5) l ->
  0 <= acc -> acc + 5 * Z.of_nat (length l) < 2 ^ 53 ->
  foldl (fun sum r => add sum (of_Z (rating r))) (Fin (inject_Z acc)) l
  = Fin (inject_Z (acc + total l)).
Proof.
  change (2 ^ 53) with 9007199254740992.
  intros Hl. revert acc. induction Hl as [|r l Hr Hl IH]; intros acc Hacc Hb.
  - simpl. unfold total. simpl. by rewrite Z.add_0_r.
  - simpl foldl. rewrite length_cons in Hb.
    rewrite of_Z_small by lia. simpl add.
    rewrite (round64_int _ (acc + rating r)); [| by rewrite inject_Z_plus | lia].
    rewrite Nat2Z.inj_succ in Hb.
    rewrite IH by lia. unfold total. rewrite fmap_cons. cbn [foldr].
    by rewrite Z.add_assoc.
Qed.

Lemma sum_ratings_exact l :
  Forall (fun r => 1 <= rating r <= 5) l -> Z.of_nat (length l) < 2 ^ 32 ->
  sum_ratings l = Fin (inject_Z (total l)).
Proof.
  intros Hl Hlen. unfold sum_ratings.
  change (Fin 0) with (Fin (inject_Z 0)). rewrite sum_ratings_from; [done..|].
  change (2 ^ 53) with 9007199254740992. change (2 ^ 32) with 4294967296 in Hlen. lia.
Qed.

Lemma total_bounds l :
  Forall (fun r => 1 <= rating r <= 5) l ->
  Z.of_nat (length l) <= total l <= 5 * Z.of_nat (length l).
Proof.
  unfold total. induction 1 as [|r l Hr Hl IH]; [simpl; lia |].
  rewrite fmap_cons, length_cons, Nat2Z.inj_succ. cbn [foldr]. lia.
Qed.

Lemma toFixed1_pos E v :
  (0 < v)%Q -> (v < 8)%Q ->
  toFixed1 E (Fin v) = tenths (Qfloor (v * 10 + (1 # 2))).
Proof.
  intros Hv Hv8. unfold toFixed1. rewrite (Qabs_pos_eq v Hv).
  destruct (Qle_bool (inject_Z (10 ^ 21)) v) eqn:Hbig.
  { apply Qle_bool_iff in Hbig. exfalso.
    assert (inject_Z 8 <= inject_Z (10 ^ 21))%Q by (rewrite <- Zle_Qle; lia).
    change (inject_Z 8) with 8%Q in *.
    apply (Qlt_irrefl v). eapply Qlt_le_trans; [exact Hv8 |].
    eapply Qle_trans; [eassumption | exact Hbig]. }
  unfold is_neg. assert (Qle_bool 0 v = true) as -> by (apply Qle_bool_iff; lra).
  reflexivity.
Qed.

(** The average shown for a non-empty list of ratings. *)
Lemma average_of E l :
  l <> [] -> Forall (fun r => 1 <= rating r <= 5) l ->
  Z.of_nat (length l) < 2 ^ 32 ->
  mean_to_one_decimal (rating <$> l)
    (toFixed1 E (div (sum_ratings l) (length_number l))).
Proof.
  intros Hne Hl Hlen.
  rewrite sum_ratings_exact by done. unfold length_number.
  pose proof (total_bounds l Hl) as Hs. fold (total l).
  set (s := total l) in *.
  assert (Hk : 0 < Z.of_nat (length l)) by (destruct l; [done | simpl; lia]).
  set (k := Z.of_nat (length l)) in *.
  assert (HkQ : (0 < inject_Z k)%Q) by (change 0%Q with (inject_Z 0); by rewrite <- Zlt_Qlt).
  unfold div.
  assert (Qeq_bool (inject_Z k) 0 = false) as ->.
  { apply not_true_iff_false. intros H%Qeq_bool_iff. lra. }
  set (q := (inject_Z s / inject_Z k)%Q).
  assert (Hqk : (q * inject_Z k == inject_Z s)%Q) by (unfold q; field; lra).
  assert (HsQ1 : (inject_Z k <= inject_Z s)%Q) by (rewrite <- Zle_Qle; lia).
  assert (HsQ2 : (inject_Z s <= 5 * inject_Z k)%Q).
  { change 5%Q with (inject_Z 5). rewrite <- inject_Z_mult, <- Zle_Qle. lia. }
  assert (Hq1 : (1 <= q)%Q).
  { apply Qle_shift_div_l; [done | lra]. }
  assert (Hq5 : (q <= 5)%Q).
  { apply Qle_shift_div_r; [done | lra]. }
  destruct (round64_near q 0 3) as (v & -> & Hv1 & Hv2);
    [lra | exact Hq1 | change (pow2 3) with 8%Q; lra | lia | lia |].
  change (3 - 54) with (-51) in *.
  assert (Hd : (pow2 (-51) == 1 # 2251799813685248)%Q) by reflexivity.
  rewrite Hd in Hv1, Hv2.
  rewrite toFixed1_pos; [| lra | lra].
  exists (Qfloor (v * 10 + (1 # 2))). split; [reflexivity |].
  rewrite length_fmap. fold (total l). fold s k.
  pose proof (Qfloor_le (v * 10 + (1 # 2))) as Hn1.
  pose proof (Qlt_floor (v * 10 + (1 # 2))) as Hn2.
  set (n := Qfloor (v * 10 + (1 # 2))) in *.
  rewrite inject_Z_plus in Hn2. change (inject_Z 1) with 1%Q in Hn2.
  assert (HkB : (inject_Z k <= inject_Z (2 ^ 32))%Q) by (rewrite <- Zle_Qle; lia).
  change (inject_Z (2 ^ 32)) with (4294967296 # 1)%Q in HkB.
  (* multiply the two bounds on [n] by [k] *)
  assert (Ha : (inject_Z n * inject_Z k <= (v * 10 + (1 # 2)) * inject_Z k)%Q)
    by (apply Qmult_le_compat_r; lra).
  assert (Hb : ((v * 10 + (1 # 2)) * inject_Z k <= (inject_Z n + 1) * inject_Z k)%Q)
    by (apply Qmult_le_compat_r; lra).
  assert (Hc : ((q - (1 # 2251799813685248)) * inject_Z k <= v * inject_Z k)%Q)
    by (apply Qmult_le_compat_r; lra).
  assert (Hd' : (v * inject_Z k <= (q + (1 # 2251799813685248)) * inject_Z k)%Q)
    by (apply Qmult_le_compat_r; lra).
  assert (He1 : (inject_Z (2 * n * k - 20 * s - k) < inject_Z 1)%Q).
  { unfold Z.sub. rewrite !inject_Z_plus, !inject_Z_opp, !inject_Z_mult.
    change (inject_Z 2) with 2%Q. change (inject_Z 20) with 20%Q.
    change (inject_Z 1) with 1%Q.
    set (nk := (inject_Z n * inject_Z k)%Q) in *.
    set (vk := (v * inject_Z k)%Q) in *.
    nra. }
  assert (He2 : (inject_Z (-1) < inject_Z (2 * n * k - 20 * s + k))%Q).
  { unfold Z.sub. rewrite !inject_Z_plus, !inject_Z_opp, !inject_Z_mult.
    change (inject_Z 2) with 2%Q. change (inject_Z 20) with 20%Q.
    change (inject_Z (-1)) with (-1)%Q.
    nra. }
  rewrite <- Zlt_Qlt in He1, He2. lia.
Qed.





(** The rounded quotient is the one of the library's IEEE-754 division. *)
Example div_agrees_87_20 : div (Fin 87) (Fin 20) = spec_div 87 20.
Proof. vm_compute. reflexivity. Qed.

Example div_agrees_21_20 : div (Fin 21) (Fin 20) = spec_div 21 20.
Proof. vm_compute. reflexivity. Qed.

Example div_agrees_1_3 : div (Fin 1) (Fin 3) = spec_div 1 3.
Proof. vm_compute. reflexivity. Qed.

Example div_agrees_14_3 : div (Fin 14) (Fin 3) = spec_div 14 3.
Proof. vm_compute. reflexivity. Qed.

Example div_agrees_large : div (Fin 4294967295) (Fin 4294967291) = spec_div 4294967295 4294967291.
Proof. vm_compute. reflexivity. Qed.

(** A mean half way between two tenths goes where its double lies:
    87/20 is shown as 4.3, 21/20 as 1.1. *)
Example half_way_down E :
  getStoreRating E
    (Sample.rated [5; 5; 5; 5; 5; 5; 5; 5; 5; 5; 5; 5; 5; 4; 3; 3; 3; 3; 3; 3])
    (JInt 1) = "4.3".
Proof. vm_compute. reflexivity. Qed.

Example half_way_up E :
  getStoreRating E
    (Sample.rated [1; 1; 1; 1; 1; 1; 1; 1; 1; 1; 1; 1; 1; 1; 1; 1; 1; 1; 1; 2])
    (JInt 1) = "1.1".
Proof. vm_compute. reflexivity. Qed.

Section WithExternals.
Context (E : Externals).

Lemma getOverallRating_eq ratings store :
  getOverallRating E ratings store = getStoreRating E ratings store.
Proof. reflexivity. Qed.

Lemma getStoreRating_none ratings store :
  values_for ratings store = [] -> getStoreRating E ratings (JInt store) = "0.0".
Proof.
  unfold values_for, getStoreRating. intros H%fmap_nil_inv.
  by rewrite ratings_of_store, H.
Qed.

Lemma getStoreRating_some ratings store :
  Forall (fun r => 1 <= rating r <= 5) ratings ->
  Z.of_nat (length ratings) < 2 ^ 32 ->
  values_for ratings store <> [] ->
  mean_to_one_decimal (values_for ratings store)
    (getStoreRating E ratings (JInt store)).
Proof.
  intros Hall Hlen Hne. unfold values_for in *. unfold getStoreRating.
  rewrite ratings_of_store.
  set (l := filter (fun r => storeId r = store) ratings) in *.
  assert (Hl : l <> []) by (intros Hl; by rewrite Hl in Hne).
  destruct (Nat.eqb_spec (length l) 0) as [H0|_].
  { by apply nil_length_inv in H0. }
  apply average_of; [done | |].
  - apply Forall_forall. intros r [_ Hr]%list_elem_of_filter.
    by apply (proj1 (Forall_forall _ _) Hall).
  - pose proof (length_filter (fun r => storeId r = store) ratings). fold l in H. lia.
Qed.

Lemma averageRating_eq ratings store :
  averageRating E (ratings_of ratings store) = getStoreRating E ratings store.
Proof.
  unfold averageRating, getStoreRating.
  by destruct (ratings_of ratings store).
Qed.

(** Claim C2.  For ratings between 1 and 5, as the table holds them, in
    an array of fewer than [2^32] elements: the average shown for a
    store without ratings is "0.0"; for a store with ratings it is the
    numeral, with one decimal, of a multiple of one tenth nearest to the
    arithmetic mean of the values; over 5 and 4 it is "4.5" and over 5,
    4 and 3 it is "4.0".  The three dashboards ([getStoreRating],
    [getOverallRating], [averageRating]) agree. *)
Theorem average_rating ratings store :
  Forall (fun r => 1 <= rating r <= 5) ratings ->
  Z.of_nat (length ratings) < 2 ^ 32 ->
  (values_for ratings store = [] ->
   getStoreRating E ratings (JInt store) = "0.0" /\
   getOverallRating E ratings (JInt store) = "0.0" /\
   averageRating E (ratings_of ratings (JInt store)) = "0.0") /\
  (values_for ratings store <> [] ->
   mean_to_one_decimal (values_for ratings store)
     (getStoreRating E ratings (JInt store)) /\
   mean_to_one_decimal (values_for ratings store)
     (getOverallRating E ratings (JInt store)) /\
   mean_to_one_decimal (values_for ratings store)
     (averageRating E (ratings_of ratings (JInt store)))) /\
  getStoreRating E (Sample.rated [5; 4]) (JInt 1) = "4.5" /\
  getOverallRating E (Sample.rated [5; 4]) (JInt 1) = "4.5" /\
  averageRating E (Sample.rated [5; 4]) = "4.5" /\
  getStoreRating E (Sample.rated [5; 4; 3]) (JInt 1) = "4.0" /\
  getOverallRating E (Sample.rated [5; 4; 3]) (JInt 1) = "4.0" /\
  averageRating E (Sample.rated [5; 4; 3]) = "4.0".
Proof.
  intros Hall Hlen. rewrite averageRating_eq.
  change (getOverallRating E ratings (JInt store))
    with (getStoreRating E ratings (JInt store)).
  split; [|split].
  - intros Hnone. repeat split; by apply getStoreRating_none.
  - intros Hsome. repeat split; by apply getStoreRating_some.
  - repeat split; vm_compute; reflexivity.
Qed.

End WithExternals.

Lemma average_rating_witness :
  mean_to_one_decimal (values_for (Sample.rated [5; 4; 4]) 1)
    (getStoreRating Sample.E (Sample.rated [5; 4; 4]) (JInt 1)).
Proof.
  apply (average_rating Sample.E (Sample.rated [5; 4; 4]) 1).
  - repeat constructor; simpl; lia.
  - vm_compute. reflexivity.
  - discriminate.
Defined.

End AverageFacts.

(** ** Authentication and roles *)

Module GateFacts.
Import Js Pg Server Spec.

Section WithExternals.
Context (E : Externals).

Lemma authenticated_rejects h req db answer :
  authenticateToken E req = inl answer ->
  authenticated E h req db = (answer, db).
Proof. intros H. unfold authenticated. by rewrite H. Qed.

Lemma authenticated_passes h req db user :
  authenticateToken E req = inr user ->
  authenticated E h req db = h user req db.
Proof. intros H. unfold authenticated. by rewrite H. Qed.

Lemma protected_authenticated r :
  protected r = true -> exists h, serve E r = authenticated E h.
Proof. destruct r; try discriminate; intros _; eexists; reflexivity. Qed.

Lemma missing_token req :
  bearer_token req = None ->
  authenticateToken E req = inl (message 401 "Access token required").
Proof. intros H. unfold authenticateToken. by rewrite H. Qed.

Lemma rejected_token req token :
  bearer_token req = Some token -> jwt_verify E (now req) token = None ->
  authenticateToken E req = inl (message 403 "Invalid or expired token").
Proof. intros H1 H2. unfold authenticateToken. by rewrite H1, H2. Qed.

Lemma requireAdmin_other user :
  p_role user <> "admin" ->
  requireAdmin user = Some (message 403 "Admin access required").
Proof.
  intros H. unfold requireAdmin.
  destruct (String.eqb_spec (p_role user) "admin"); done.
Qed.

Lemma admin_only_other h req db user :
  authenticateToken E req = inr user -> p_role user <> "admin" ->
  admin_only E h req db = (message 403 "Admin access required", db).
Proof.
  intros Hu Hr. unfold admin_only. rewrite (authenticated_passes _ _ _ user) by done.
  by rewrite requireAdmin_other.
Qed.

(** Claim C3, as amended.  On every protected route a request without
    a token is answered 401 and a request whose token is not verified
    (invalid or expired) is answered 403.  With a verified token, a role
    other than [admin] is answered 403 on the two admin-only routes; on
    the rating route a body whose [userId] is not strictly equal to the
    id of the token is answered 403; on the password route a caller who
    is not an administrator is answered 403 when [parseInt] of the
    [:userId] segment of the path is not the id of the token.  In each
    case the database is left as it was. *)
Theorem authentication_status_codes r req db :
  protected r = true ->
  (bearer_token req = None ->
   serve E r req db = (message 401 "Access token required", db)) /\
  (forall token,
     bearer_token req = Some token -> jwt_verify E (now req) token = None ->
     serve E r req db = (message 403 "Invalid or expired token", db)) /\
  (forall user, authenticateToken E req = inr user ->
     (r = PostAdminUsers \/ r = PostAdminStores -> p_role user <> "admin" ->
      serve E r req db = (message 403 "Admin access required", db)) /\
     (r = PostRatings ->
      strict_eq (JInt (p_id user)) (field req "userId") = false ->
      serve E r req db
      = (message 403 "You can only submit ratings as yourself", db)) /\
     (r = PutPassword ->
      num_eq (Fin (inject_Z (p_id user))) (parseInt E (params_userId req)) = false ->
      p_role user <> "admin" ->
      serve E r req db
      = (message 403 "You can only update your own password", db))).
Proof.
  intros Hr. destruct (protected_authenticated r Hr) as [h Hh].
  split; [|split].
  - intros Hno. rewrite Hh. apply authenticated_rejects. by apply missing_token.
  - intros token Ht Hv. rewrite Hh. apply authenticated_rejects.
    by apply rejected_token with token.
  - intros user Hu. split; [|split].
    + intros [-> | ->] Hrole; by apply admin_only_other with user.
    + intros -> Hid. simpl. rewrite (authenticated_passes _ _ _ user) by done.
      unfold post_ratings. by rewrite Hid.
    + intros -> Hid Hrole. simpl. rewrite (authenticated_passes _ _ _ user) by done.
      unfold put_password. rewrite Hid.
      destruct (String.eqb_spec (p_role user) "admin"); done.
Qed.

(** Claim C5.  On the two admin-only creation routes a caller who is
    authenticated with a role other than admin is answered 403, whatever
    the body of the request; nothing is validated and nothing is stored. *)
Theorem non_admin_is_forbidden r req db user :
  r = PostAdminUsers \/ r = PostAdminStores ->
  authenticateToken E req = inr user -> p_role user <> "admin" ->
  serve E r req db = (message 403 "Admin access required", db).
Proof. intros [-> | ->] Hu Hrole; by apply admin_only_other with user. Qed.

End WithExternals.

Lemma authentication_status_codes_witness :
  serve Sample.E GetUsers (Sample.anonymous []) Sample.db
  = (message 401 "Access token required", Sample.db).
Proof.
  apply (authentication_status_codes Sample.E GetUsers (Sample.anonymous []) Sample.db);
    reflexivity.
Defined.

(** Claim C3 as stated fails: a token that is not verified is answered
    403, not 401. *)
Lemma invalid_token_is_answered_403 :
  protected GetUsers = true /\
  bearer_token (Sample.forged []) = Some "forged.1.admin.99999.admin@app.com" /\
  jwt_verify Sample.E (now (Sample.forged []))
    "forged.1.admin.99999.admin@app.com" = None /\
  status (serve Sample.E GetUsers (Sample.forged []) Sample.db).1 = 403 /\
  status (serve Sample.E GetUsers (Sample.forged []) Sample.db).1 <> 401.
Proof. repeat split; vm_compute; congruence. Qed.

Lemma non_admin_is_forbidden_witness :
  serve Sample.E PostAdminStores
    (Sample.request_of Sample.jane [("name", JStr "x")]) Sample.db
  = (message 403 "Admin access required", Sample.db).
Proof.
  apply (non_admin_is_forbidden Sample.E PostAdminStores _ _ (Sample.payload_of Sample.jane)).
  - by right.
  - reflexivity.
  - discriminate.
Defined.

End GateFacts.

(** ** Identity check, password field and failed logins *)

Module RouteFacts.
Import Js Pg Server Spec ValueFacts.

Lemma message_status code msg : status (message code msg) = code.
Proof. reflexivity. Qed.

Lemma message_no_password code msg : ~ has_password (body (message code msg)).
Proof. simpl. rewrite lookup_singleton_ne by done. by intros []. Qed.

Section WithExternals.
Context (E : Externals).

(** *** The identity check of the rating route *)

Lemma post_ratings_status user req db :
  strict_eq (JInt (p_id user)) (field req "userId") = true ->
  status (post_ratings E user req db).1 <> 403.
Proof.
  intros Hid. unfold post_ratings. rewrite Hid. simpl negb. cbv iota.
  destruct (validate_rating E _); [done |].
  destruct (negb (truthy _)); [done |].
  destruct (rating_params E _ _ _) as [[[u s] r]|]; [|done].
  destruct (upsert_rating u s r db) as [[id|c] db']; done.
Qed.

(** Claim C10.  For an authenticated caller of the rating route, a body
    whose [userId] is the decimal string of the caller's id is answered
    403; the identity check is passed exactly when [userId] is a number
    equal to that id. *)
Theorem rating_identity_is_type_sensitive req db user :
  authenticateToken E req = inr user ->
  (field req "userId" = JStr (pretty (p_id user)) ->
   serve E PostRatings req db
   = (message 403 "You can only submit ratings as yourself", db)) /\
  (status (serve E PostRatings req db).1 <> 403 <->
   exists q, field req "userId" = JNum (Fin q) /\ (q == inject_Z (p_id user))%Q).
Proof.
  intros Hu. simpl. unfold authenticated. rewrite Hu. split.
  - intros Hs. unfold post_ratings. by rewrite Hs.
  - rewrite <- strict_eq_number. split.
    + intros Hst. destruct (strict_eq _ _) eqn:Hid; [done |].
      exfalso. apply Hst. unfold post_ratings. by rewrite Hid.
    + apply post_ratings_status.
Qed.

(** *** No answer carries the stored hash *)

Lemma login_no_password req db : ~ has_password (body (login E req db).1).
Proof.
  unfold login.
  destruct (_ || _); [apply message_no_password |].
  destruct (select_by_email _ db) as [[|row rest]|c];
    [apply message_no_password | | apply message_no_password].
  destruct (bcrypt_compare E _ _) as [[]|]; simpl negb; cbv iota;
    [| apply message_no_password | apply message_no_password ].
  simpl. rewrite lookup_insert_ne by done.
  destruct (String.eqb _ _); [destruct (stores_by_owner _ _) |];
    rewrite ?lookup_insert_ne by done; rewrite lookup_delete_eq; by intros [].
Qed.

Lemma returned_row_no_password u : returned_row u !! "password" = None.
Proof.
  unfold returned_row. by rewrite !lookup_insert_ne, lookup_singleton_ne by done.
Qed.

Lemma signup_no_password req db : ~ has_password (body (signup E req db).1).
Proof.
  unfold signup.
  destruct (or_else _ _); [apply message_no_password |].
  destruct (select_by_email _ db) as [[|row rest]|c];
    [| apply message_no_password ..].
  destruct (bcrypt_hash E _ _); [| apply message_no_password].
  destruct (insert_user _ _ _ _ _ db) as [[row|c] db']; [| apply message_no_password].
  simpl. rewrite lookup_insert_ne by done. rewrite returned_row_no_password.
  by intros [].
Qed.

Lemma users_row_no_password db u o : o ∈ users_row db u -> o !! "password" = None.
Proof.
  unfold users_row. destruct (stores_by_owner (u_id u) db) as [|s l].
  - intros ->%list_elem_of_singleton.
    by rewrite !lookup_insert_ne, lookup_singleton_ne by done.
  - intros (s' & -> & _)%list_elem_of_fmap.
    by rewrite !lookup_insert_ne, lookup_singleton_ne by done.
Qed.

Lemma authenticateToken_answer req answer :
  authenticateToken E req = inl answer ->
  exists code msg, answer = message code msg.
Proof.
  unfold authenticateToken.
  destruct (bearer_token req); [destruct (jwt_verify E _ _) |];
    intros H; try discriminate; injection H as <-; eauto.
Qed.

Lemma get_users_no_password req db :
  ~ has_password (body (serve E GetUsers req db).1).
Proof.
  simpl. unfold authenticated.
  destruct (authenticateToken E req) as [answer|user] eqn:Ha.
  - apply authenticateToken_answer in Ha as (code & msg & ->).
    apply message_no_password.
  - simpl. intros (o & Hin & Hsome).
    apply list_elem_of_bind in Hin as (u & Hin & _).
    apply users_row_no_password in Hin. rewrite Hin in Hsome. by destruct Hsome.
Qed.

(** Claim C9.  No answer of the login route, of the signup route or of
    the user listing has a [password] field, whether the request
    succeeds or not. *)
Theorem password_is_never_sent req db :
  ~ has_password (body (login E req db).1) /\
  ~ has_password (body (signup E req db).1) /\
  ~ has_password (body (serve E GetUsers req db).1).
Proof.
  split; [apply login_no_password |].
  split; [apply signup_no_password | apply get_users_no_password].
Qed.

(** *** What a failed login tells about the email *)

(** A login with an email that no user has, and the same login against
    a database where a user has that email and [bcrypt.compare] resolves
    to [false], get the same answer; with both fields present it is 401
    "Invalid credentials". *)
Lemma login_failure_is_generic req db1 db2 row rest :
  select_by_email (pg_text E (field req "email")) db1 = Ok [] ->
  select_by_email (pg_text E (field req "email")) db2 = Ok (row :: rest) ->
  bcrypt_compare E (field req "password") (u_password row) = Some false ->
  (login E req db1).1 = (login E req db2).1 /\
  (truthy (field req "email") = true -> truthy (field req "password") = true ->
   (login E req db2).1 = message 401 "Invalid credentials").
Proof.
  intros Habsent Hpresent Hwrong. unfold login.
  rewrite Habsent, Hpresent, Hwrong. simpl negb. cbv iota.
  split.
  - by destruct (_ || _).
  - by intros -> ->.
Qed.

(** When [bcrypt.compare] rejects instead, the [catch] of the route
    answers 500 for the email a user has, and the login with an email that
    no user has is still answered 401. *)
Lemma rejected_comparison_is_500 req db1 db2 row rest :
  truthy (field req "email") = true -> truthy (field req "password") = true ->
  select_by_email (pg_text E (field req "email")) db1 = Ok [] ->
  select_by_email (pg_text E (field req "email")) db2 = Ok (row :: rest) ->
  bcrypt_compare E (field req "password") (u_password row) = None ->
  login E req db1 = (message 401 "Invalid credentials", db1) /\
  login E req db2 = (message 500 "Server error during login.", db2).
Proof.
  intros He Hp Habsent Hpresent Hrejected. unfold login.
  by rewrite He, Hp, Habsent, Hpresent, Hrejected.
Qed.

End WithExternals.

Lemma rating_identity_is_type_sensitive_witness :
  serve Sample.E PostRatings
    (Sample.request_of Sample.jane
       [("userId", JStr "2"); ("storeId", JInt 1); ("rating", JInt 4)]) Sample.db
  = (message 403 "You can only submit ratings as yourself", Sample.db).
Proof.
  apply (rating_identity_is_type_sensitive Sample.E _ _ (Sample.payload_of Sample.jane));
    reflexivity.
Defined.

Example wrong_password_is_answered_as_unknown_email :
  (login Sample.E Sample.wrong_password Sample.db_without_jane).1
  = (login Sample.E Sample.wrong_password Sample.db).1.
Proof.
  apply (login_failure_is_generic Sample.E Sample.wrong_password
           Sample.db_without_jane Sample.db Sample.jane []); reflexivity.
Qed.

(** Claim C7, at the input where the code departs from it.  The
    password of the login is the JSON number 12345678, which
    [bcrypt.compare] rejects as data that is not a string.  For the email
    of Jane the comparison is reached and the answer is 500 "Server error
    during login."; for the same email in a database without Jane it is
    401 "Invalid credentials": the answer tells whether the email is
    known. *)
Theorem a_rejected_comparison_reveals_the_email :
  select_by_email (pg_text Sample.E (field Sample.number_password "email"))
    Sample.db_without_jane = Ok [] /\
  select_by_email (pg_text Sample.E (field Sample.number_password "email"))
    Sample.db = Ok [Sample.jane] /\
  bcrypt_compare Sample.E (field Sample.number_password "password")
    (u_password Sample.jane) = None /\
  (login Sample.E Sample.number_password Sample.db_without_jane).1
  = message 401 "Invalid credentials" /\
  (login Sample.E Sample.number_password Sample.db).1
  = message 500 "Server error during login.".
Proof. split_and!; reflexivity. Qed.

End RouteFacts.

(** ** The rating ledger *)

Module LedgerFacts.
Import Js Pg Server Spec ValueFacts PgFacts.

Lemma same_pair_spec u s r :
  same_pair u s r = true <-> r_user_id r = u /\ r_store_id r = s.
Proof. unfold same_pair. rewrite andb_true_iff, !Z.eqb_eq. done. Qed.

Lemma same_pair_pair_of u s r : same_pair u s r = true <-> pair_of r = (u, s).
Proof.
  rewrite same_pair_spec. unfold pair_of. split; [by intros [-> ->] |].
  by intros [= -> ->].
Qed.

Lemma filter_same_pair u s (l : list RatingRow) :
  filter (fun r => same_pair u s r = true) l
  = filter (fun r => r_user_id r = u /\ r_store_id r = s) l.
Proof. apply list_filter_iff. intros r. apply same_pair_spec. Qed.

(** Under the uniqueness constraint a pair selects at most one row. *)
Lemma at_most_one_row u s (l : list RatingRow) :
  NoDup (pair_of <$> l) ->
  (length (filter (fun r => same_pair u s r = true) l) <= 1)%nat.
Proof.
  induction l as [|x l IH]; [simpl; lia |].
  rewrite fmap_cons, NoDup_cons. intros [Hx Hl].
  rewrite filter_cons. destruct (decide (same_pair u s x = true)) as [Hp|Hp].
  - assert (filter (fun r => same_pair u s r = true) l = []) as ->; [|simpl; lia].
    destruct (filter _ l) as [|y k] eqn:Hf; [done | exfalso].
    assert (Hy : y ∈ filter (fun r => same_pair u s r = true) l)
      by (rewrite Hf; left).
    apply list_elem_of_filter in Hy as [Hpy Hy].
    apply Hx. apply same_pair_pair_of in Hp, Hpy. rewrite Hp, <- Hpy.
    by apply list_elem_of_fmap_2.
  - by apply IH.
Qed.

Lemma set_rating_pair u s v r : pair_of (set_rating u s v r) = pair_of r.
Proof. unfold set_rating. by destruct (same_pair u s r). Qed.

Lemma set_rating_id u s v r : r_id (set_rating u s v r) = r_id r.
Proof. unfold set_rating. by destruct (same_pair u s r). Qed.

Lemma set_rating_value u s v r :
  same_pair u s r = true -> r_rating (set_rating u s v r) = v.
Proof. unfold set_rating. by intros ->. Qed.

Lemma filter_set_rating u s v (l : list RatingRow) :
  filter (fun r => same_pair u s r = true) (set_rating u s v <$> l)
  = set_rating u s v <$> filter (fun r => same_pair u s r = true) l.
Proof.
  induction l as [|x l IH]; [done |].
  rewrite fmap_cons, !filter_cons.
  assert (Hiff : same_pair u s (set_rating u s v x) = same_pair u s x).
  { unfold set_rating. by destruct (same_pair u s x) eqn:Hx. }
  rewrite Hiff. destruct (decide (same_pair u s x = true)); by rewrite IH.
Qed.

Lemma spent_value_consistent db :
  ratings_consistent db -> ratings_consistent (with_ratings db (ratings db)).
Proof.
  intros [Hids Hnd]. split; simpl; [|done]. intros r Hr. apply Hids in Hr. lia.
Qed.

(** Whatever its parameters, the upsert keeps the table consistent. *)
Lemma upsert_rating_consistent u s v db :
  ratings_consistent db -> ratings_consistent (upsert_rating u s v db).2.
Proof.
  intros Hdb. pose proof (upsert_rating_outcome u s v db) as Hout.
  destruct (upsert_rating u s v db) as [[id|code] db']; simpl.
  2:{ destruct Hout as [-> | ->]; [done | by apply spent_value_consistent]. }
  destruct Hout as (rows & Hup & _ & ->). destruct Hdb as [Hids Hnd].
  unfold upsert in Hup.
  destruct u as [u|], s as [s|], v as [v|]; try discriminate.
  cbn [mbind result_bind not_null] in Hup.
  destruct (require check_violation (check_rating v)); [|discriminate].
  cbn [mbind result_bind] in Hup.
  destruct (filter _ (ratings db)) as [|old rest] eqn:Hf.
  - unfold require in Hup.
    destruct (bool_decide (ratings_id_seq db ∉ _)); [|discriminate].
    destruct (bool_decide (u ∈ _)); [|discriminate].
    destruct (bool_decide (s ∈ _)); [|discriminate].
    cbn [mbind result_bind mret result_ret] in Hup. injection Hup as <- <-.
    split; simpl.
    + intros r [Hr | ->%list_elem_of_singleton]%elem_of_app.
      * apply Hids in Hr. lia.
      * simpl. lia.
    + rewrite fmap_app. apply NoDup_app. split; [done |]. split.
      * intros p Hp ->%list_elem_of_singleton.
        apply list_elem_of_fmap in Hp as (r & Heq & Hr).
        eapply (filter_nil_not_elem_of _ _ r Hf); [|done].
        apply same_pair_pair_of. symmetry. exact Heq.
      * apply NoDup_singleton.
  - cbn [mret result_ret] in Hup. injection Hup as <- <-. split; simpl.
    + intros r (r0 & -> & Hr)%list_elem_of_fmap.
      rewrite set_rating_id. apply Hids in Hr. lia.
    + rewrite <- list_fmap_compose.
      erewrite list_fmap_ext; [exact Hnd |].
      intros i r _. simpl. apply set_rating_pair.
Qed.

Lemma check_rating_valid v : 1 <= v <= 5 -> check_rating v = true.
Proof.
  intros Hv. unfold check_rating. apply andb_true_iff. split; apply Z.leb_le; lia.
Qed.

(** The first rating of a pair is a new row, under the next key. *)
Lemma first_rating_inserts db u s v :
  ratings_consistent db -> ratings_id_seq db <= serial_max ->
  u ∈ u_id <$> users db -> s ∈ s_id <$> stores db -> 1 <= v <= 5 ->
  filter (fun r => same_pair u s r = true) (ratings db) = [] ->
  upsert_rating (Some u) (Some s) (Some v) db
  = (Ok (ratings_id_seq db),
     with_ratings db
       (ratings db ++ [{| r_id := ratings_id_seq db; r_user_id := u;
                          r_store_id := s; r_rating := v |}])).
Proof.
  intros [Hids _] Hroom Hu Hs Hv Hf. rewrite upsert_rating_room by done.
  unfold upsert. simpl.
  rewrite check_rating_valid by done. simpl. rewrite Hf.
  assert (Hfresh : ratings_id_seq db ∉ r_id <$> ratings db).
  { intros (r & Heq & Hr)%list_elem_of_fmap. apply Hids in Hr. lia. }
  by rewrite (bool_decide_true _ Hfresh), (bool_decide_true _ Hu),
    (bool_decide_true _ Hs).
Qed.

(** A later rating of the pair overwrites the value of its row in place:
    no row is added and no key changes, yet a value of the sequence is
    spent. *)
Lemma later_rating_overwrites db u s v old rest :
  ratings_id_seq db <= serial_max -> 1 <= v <= 5 ->
  filter (fun r => same_pair u s r = true) (ratings db) = old :: rest ->
  upsert_rating (Some u) (Some s) (Some v) db
  = (Ok (r_id old), with_ratings db (set_rating u s v <$> ratings db)).
Proof.
  intros Hroom Hv Hf. rewrite upsert_rating_room by done. unfold upsert. simpl.
  rewrite check_rating_valid by done. simpl. by rewrite Hf.
Qed.

Lemma overwrite_keeps_keys u s v (l : list RatingRow) :
  r_id <$> (set_rating u s v <$> l) = r_id <$> l.
Proof.
  rewrite <- list_fmap_compose. apply list_fmap_ext.
  intros i r _. simpl. apply set_rating_id.
Qed.
(** A sequence that has run out refuses the upsert, whatever its
    parameters, and nothing changes. *)
Lemma upsert_rating_out u s v db :
  serial_max < ratings_id_seq db ->
  upsert_rating u s v db = (Error sequence_generator_limit_exceeded, db).
Proof. intros H. unfold upsert_rating. by rewrite nextval_out. Qed.

(** As long as the sequence has a value left, the upsert of a valid
    rating of an existing user for an existing store succeeds, keeps the
    table consistent and leaves one row for the pair, with the new
    value. *)
Lemma upsert_rating_done db u s v :
  ratings_consistent db -> ratings_id_seq db <= serial_max ->
  u ∈ u_id <$> users db -> s ∈ s_id <$> stores db -> 1 <= v <= 5 ->
  exists id rows,
    upsert_rating (Some u) (Some s) (Some v) db = (Ok id, with_ratings db rows) /\
    ratings_consistent (with_ratings db rows) /\
    one_rating (with_ratings db rows) u s v.
Proof.
  intros Hdb Hroom Hu Hs Hv.
  pose proof (upsert_rating_consistent (Some u) (Some s) (Some v) db Hdb) as Hcons.
  destruct Hdb as [Hids Hnd]. revert Hcons. rewrite upsert_rating_room by done.
  unfold upsert. simpl.
  rewrite check_rating_valid by done. simpl.
  pose proof (at_most_one_row u s (ratings db) Hnd) as Hone.
  destruct (filter _ (ratings db)) as [|old rest] eqn:Hf.
  - assert (Hfresh : ratings_id_seq db ∉ r_id <$> ratings db).
    { intros (r & Heq & Hr)%list_elem_of_fmap. apply Hids in Hr. lia. }
    rewrite (bool_decide_true _ Hfresh), (bool_decide_true _ Hu),
      (bool_decide_true _ Hs). simpl. intros Hcons.
    eexists _, _. split; [reflexivity |]. split; [exact Hcons |].
    eexists. simpl. rewrite <- filter_same_pair, filter_app, Hf.
    rewrite (filter_singleton_True _ _ []) by by apply same_pair_spec.
    split; reflexivity.
  - assert (rest = []) as -> by (destruct rest; [done | simpl in Hone; lia]).
    assert (Hold : same_pair u s old = true).
    { assert (old ∈ filter (fun r => same_pair u s r = true) (ratings db)) as Hin
        by (rewrite Hf; left).
      by apply list_elem_of_filter in Hin as [? _]. }
    simpl. intros Hcons.
    eexists _, _. split; [reflexivity |]. split; [exact Hcons |].
    eexists. simpl. rewrite <- filter_same_pair, filter_set_rating, Hf.
    split; [reflexivity |]. by apply set_rating_value.
Qed.

Section WithExternals.
Context (E : Externals).

Lemma validate_rating_int v : 1 <= v <= 5 -> validate_rating E (JInt v) = None.
Proof.
  intros Hv. unfold validate_rating, gt. simpl ToNumber. simpl isNaN.
  change (Fin 1) with (Fin (inject_Z 1)). change (Fin 5) with (Fin (inject_Z 5)).
  rewrite !lt_inject_Z.
  destruct (Z.ltb_spec v 1), (Z.ltb_spec 5 v); simpl; [lia.. | done].
Qed.

Lemma pg_int_int z : - 2 ^ 31 <= z < 2 ^ 31 -> pg_int E (JInt z) = Ok (Some z).
Proof.
  intros Hz. unfold pg_int, JInt. rewrite Qfloor_Z, Qeq_bool_refl.
  destruct (Z.leb_spec (- 2 ^ 31) z), (Z.ltb_spec z (2 ^ 31)); simpl; (done || lia).
Qed.

(** One accepted submission. *)
Lemma submission_done db user store value req :
  ratings_consistent db -> ratings_id_seq db <= serial_max ->
  user ∈ u_id <$> users db -> store ∈ s_id <$> stores db ->
  0 < user < 2 ^ 31 -> 0 < store < 2 ^ 31 -> 1 <= value <= 5 ->
  submits E user store value req ->
  exists rows,
    (serve E PostRatings req db).2 = with_ratings db rows /\
    status (serve E PostRatings req db).1 = 201 /\
    ratings_consistent (with_ratings db rows) /\
    one_rating (with_ratings db rows) user store value.
Proof.
  intros Hdb Hroom Hu Hs Hur Hsr Hv ((p & Hp & Hid) & HuserId & HstoreId & Hrating).
  destruct (upsert_rating_done db user store value Hdb Hroom Hu Hs Hv)
    as (id & rows & Hup & Hcons & Hone).
  exists rows. simpl. unfold authenticated. rewrite Hp. unfold post_ratings.
  rewrite HuserId, HstoreId, Hrating, Hid, strict_eq_refl_int.
  rewrite validate_rating_int by done. rewrite truthy_int by lia.
  unfold rating_params. rewrite !pg_int_int by lia.
  cbn [negb mbind result_bind mret result_ret]. rewrite Hup. done.
Qed.

Lemma serve_all_cons r req reqs db :
  serve_all E r (req :: reqs) db = serve_all E r reqs (serve E r req db).2.
Proof. reflexivity. Qed.

(** A submission on a sequence that has run out is answered 500 and
    changes nothing. *)
Lemma submission_refused db user store value req :
  serial_max < ratings_id_seq db ->
  0 < user < 2 ^ 31 -> 0 < store < 2 ^ 31 -> 1 <= value <= 5 ->
  submits E user store value req ->
  serve E PostRatings req db = (message 500 "Failed to submit rating.", db).
Proof.
  intros Hout Hur Hsr Hv ((p & Hp & Hid) & HuserId & HstoreId & Hrating).
  simpl. unfold authenticated. rewrite Hp. unfold post_ratings.
  rewrite HuserId, HstoreId, Hrating, Hid, strict_eq_refl_int.
  rewrite validate_rating_int by done. rewrite truthy_int by lia.
  unfold rating_params. rewrite !pg_int_int by lia.
  cbn [negb mbind result_bind mret result_ret].
  by rewrite upsert_rating_out.
Qed.

(** Claim C1, as amended.  After any non-empty sequence of rating
    submissions by one authenticated user for one store, each with an
    integer value from 1 to 5, for each of which the sequence behind the
    key of [ratings] has a value left, the rating table holds exactly one
    row for the pair and its value is the one of the last submission.
    Every submission, the overwriting ones too, has spent one value of
    the sequence. *)
Theorem repeated_ratings_keep_the_last db user store values reqs value :
  ratings_consistent db ->
  user ∈ u_id <$> users db -> store ∈ s_id <$> stores db ->
  0 < user < 2 ^ 31 -> 0 < store < 2 ^ 31 ->
  Forall (fun v => 1 <= v <= 5) values ->
  Forall2 (submits E user store) values reqs ->
  last values = Some value ->
  ratings_id_seq db + Z.of_nat (length reqs) <= serial_max + 1 ->
  one_rating (serve_all E PostRatings reqs db) user store value /\
  ratings_id_seq (serve_all E PostRatings reqs db)
  = ratings_id_seq db + Z.of_nat (length reqs).
Proof.
  intros Hdb Hu Hs Hur Hsr Hvs Hreqs. revert db Hdb Hu Hs Hvs.
  induction Hreqs as [|v req vs reqs Hsub Hrest IH];
    intros db Hdb Hu Hs Hvs Hlast Hroom; [discriminate |].
  apply Forall_cons in Hvs as [Hv Hvs]. rewrite length_cons in Hroom |- *.
  destruct (submission_done db user store v req Hdb ltac:(lia) Hu Hs Hur Hsr Hv Hsub)
    as (rows & Hstate & _ & Hcons & Hone).
  rewrite serve_all_cons, Hstate.
  destruct vs as [|v' vs].
  - apply Forall2_nil_inv_l in Hrest as ->. simpl in Hlast.
    injection Hlast as <-. split; [exact Hone | simpl; lia].
  - destruct (IH (with_ratings db rows)) as [Hlater Hseq];
      [done | done | done | done | by rewrite last_cons_cons in Hlast
      | simpl; lia |].
    split; [exact Hlater |]. rewrite Hseq. simpl. lia.
Qed.

End WithExternals.

Lemma repeated_ratings_keep_the_last_witness :
  one_rating
    (serve_all Sample.E PostRatings
       [Sample.jane_rates (JInt 2); Sample.jane_rates (JInt 5)] Sample.db)
    2 1 5 /\
  ratings_id_seq
    (serve_all Sample.E PostRatings
       [Sample.jane_rates (JInt 2); Sample.jane_rates (JInt 5)] Sample.db)
  = ratings_id_seq Sample.db + 2.
Proof.
  apply (repeated_ratings_keep_the_last Sample.E Sample.db 2 1 [2; 5]).
  - split; [intros r Hr; by apply elem_of_nil in Hr | constructor].
  - vm_compute. set_solver.
  - vm_compute. set_solver.
  - lia.
  - lia.
  - repeat constructor; lia.
  - repeat constructor; by eexists.
  - reflexivity.
  - vm_compute. discriminate.
Defined.

(** Claim C1 as stated fails: every submission draws a key of 32 bits,
    also when it only overwrites.  After 2147483647 submissions the
    sequence has run out; the next one, with the value 5, is answered 500
    and the row of the pair keeps the value 2 of the submission before. *)
Lemma a_rating_past_the_last_key_is_lost :
  ratings_consistent Sample.db_at_last_key /\
  2 ∈ u_id <$> users Sample.db_at_last_key /\
  1 ∈ s_id <$> stores Sample.db_at_last_key /\
  Forall2 (submits Sample.E 2 1) [5] [Sample.jane_rates (JInt 5)] /\
  serve Sample.E PostRatings (Sample.jane_rates (JInt 5)) Sample.db_at_last_key
  = (message 500 "Failed to submit rating.", Sample.db_at_last_key) /\
  one_rating
    (serve_all Sample.E PostRatings [Sample.jane_rates (JInt 5)]
       Sample.db_at_last_key) 2 1 2 /\
  ~ one_rating
      (serve_all Sample.E PostRatings [Sample.jane_rates (JInt 5)]
         Sample.db_at_last_key) 2 1 5.
Proof.
  assert (Hrun : serve_all Sample.E PostRatings [Sample.jane_rates (JInt 5)]
                   Sample.db_at_last_key = Sample.db_at_last_key)
    by reflexivity.
  split_and!.
  - split; [| apply (bool_decide_unpack _); by vm_compute].
    intros r ->%list_elem_of_singleton. by vm_compute.
  - vm_compute. set_solver.
  - vm_compute. set_solver.
  - repeat constructor; by eexists.
  - reflexivity.
  - rewrite Hrun. by eexists.
  - rewrite Hrun. intros (row & Hrow & Hvalue).
    vm_compute in Hrow. injection Hrow as <-. discriminate.
Qed.

End LedgerFacts.

(** ** The rating table stays consistent *)

Module InvariantFacts.
Import Js Pg Server Spec ValueFacts PgFacts LedgerFacts.

Lemma same_ledger_refl db : same_ledger db db.
Proof. by split. Qed.

Lemma same_ledger_consistent db db' :
  same_ledger db db' -> ratings_consistent db -> ratings_consistent db'.
Proof. intros [Hr Hs] [Hids Hnd]. split; rewrite Hr, ?Hs; done. Qed.

Lemma insert_user_ledger name email password address role db :
  same_ledger db (insert_user name email password address role db).2.
Proof.
  pose proof (insert_user_outcome name email password address role db) as H.
  destruct (insert_user _ _ _ _ _ db) as [[row|c] db']; simpl.
  - by destruct H as (_ & _ & ->).
  - by destruct H as [-> | ->].
Qed.

Lemma insert_store_ledger name email address owner db :
  same_ledger db (insert_store name email address owner db).2.
Proof.
  pose proof (insert_store_outcome name email address owner db) as H.
  destruct (insert_store _ _ _ _ db) as [[row|c] db']; simpl.
  - by destruct H as (_ & _ & ->).
  - by destruct H as [-> | ->].
Qed.

Lemma update_password_ledger password id db :
  same_ledger db (update_password password id db).2.
Proof.
  unfold update_password. destruct (_ ≫= _) as [pw|c]; [|done].
  destruct id as [id|]; [|done].
  destruct (bool_decide _); [|done].
  by destruct (not_null pw).
Qed.

Section WithExternals.
Context (E : Externals).

Lemma login_ledger req db : same_ledger db (login E req db).2.
Proof. unfold login. by repeat case_match. Qed.

Lemma signup_ledger req db : same_ledger db (signup E req db).2.
Proof.
  unfold signup. destruct (or_else _ _); [done |].
  destruct (select_by_email _ db) as [[|? ?]|c]; [|done..].
  destruct (bcrypt_hash E _ _); [|done].
  pose proof (insert_user_ledger (pg_text E (field req "name"))
                (pg_text E (field req "email")) (Some s)
                (pg_text E (field req "address")) (Some "user") db) as H.
  by destruct (insert_user _ _ _ _ _ db) as [[row|c] db'].
Qed.

Lemma add_user_ledger req db : same_ledger db (add_user E req db).2.
Proof.
  unfold add_user. destruct (or_else _ _); [done |].
  destruct (_ || _); [done |].
  destruct (select_by_email _ db) as [[|? ?]|c]; [|done..].
  destruct (bcrypt_hash E _ _); [|done].
  pose proof (insert_user_ledger (pg_text E (field req "name"))
                (pg_text E (field req "email")) (Some s)
                (pg_text E (field req "address"))
                (pg_text E (field req "role")) db) as H.
  by destruct (insert_user _ _ _ _ _ db) as [[row|c] db'].
Qed.

Lemma add_store_ledger req db : same_ledger db (add_store E req db).2.
Proof.
  unfold add_store. destruct (or_else _ _); [done |].
  destruct (bcrypt_hash E _ _) as [h|]; [|done].
  pose proof (insert_user_ledger
                (Some (ToString E (field req "name") +:+ " Owner"))
                (pg_text E (field req "email")) (Some h)
                (pg_text E (field req "address")) (Some "store_owner") db) as Hu.
  destruct (insert_user _ _ _ _ _ db) as [[owner|c] db1]; simpl in Hu.
  2:{ destruct Hu. by split. }
  pose proof (insert_store_ledger (pg_text E (field req "name"))
                (pg_text E (field req "email"))
                (pg_text E (field req "address")) (Some (u_id owner)) db1) as Hs.
  destruct (insert_store _ _ _ _ db1) as [[store|c] db2]; simpl in Hs;
    destruct Hu as [Hu1 Hu2], Hs as [Hs1 Hs2]; split; simpl; congruence.
Qed.

Lemma put_password_ledger user req db :
  same_ledger db (put_password E user req db).2.
Proof.
  unfold put_password. destruct (_ && _); [done |].
  destruct (validate_password E _); [done |].
  destruct (bcrypt_hash E _ _) as [h|]; [|done].
  destruct (pg_int E _) as [id|]; [|done].
  pose proof (update_password_ledger (Some h) id db) as H.
  by destruct (update_password _ _ db) as [[] db'].
Qed.

Lemma post_ratings_consistent user req db :
  ratings_consistent db -> ratings_consistent (post_ratings E user req db).2.
Proof.
  intros Hdb. unfold post_ratings. destruct (negb (strict_eq _ _)); [done |].
  destruct (validate_rating E _); [done |].
  destruct (negb (truthy _)); [done |].
  destruct (rating_params E _ _ _) as [[[u s] r]|]; [|done].
  pose proof (upsert_rating_consistent u s r db Hdb) as H.
  by destruct (upsert_rating u s r db) as [[id|c] db'].
Qed.

(** Every route keeps the rating table consistent: the hypothesis of
    the statement on repeated ratings holds in every state the server
    reaches from a consistent one, the empty database among them. *)
Lemma serve_consistent r req db :
  ratings_consistent db -> ratings_consistent (serve E r req db).2.
Proof.
  intros Hdb.
  assert (Hkeep : forall db', same_ledger db db' -> ratings_consistent db')
    by (intros db' H; by apply (same_ledger_consistent db)).
  destruct r; simpl; unfold admin_only, authenticated;
    try (destruct (authenticateToken E req) as [answer|user]; [done |]);
    try (destruct (requireAdmin user); [done |]).
  - done.
  - apply Hkeep, login_ledger.
  - apply Hkeep, signup_ledger.
  - done.
  - done.
  - done.
  - apply Hkeep, add_user_ledger.
  - apply Hkeep, add_store_ledger.
  - apply Hkeep, put_password_ledger.
  - by apply post_ratings_consistent.
Qed.

End WithExternals.

End InvariantFacts.

(** ** Stores and their owners *)

Module ProvisioningFacts.
Import Js Pg Server Spec ValueFacts RegexFacts PgFacts.

Lemma length_append (a b : string) :
  String.length (a +:+ b) = (String.length a + String.length b)%nat.
Proof.
  induction a as [|c a IH]; [done |]. rewrite append_cons. simpl. by rewrite IH.
Qed.

Lemma substring_append_r (a b : string) i k :
  substring (String.length a + i) k (a +:+ b) = substring i k b.
Proof.
  induction a as [|c a IH]; [done |]. rewrite append_cons. simpl. apply IH.
Qed.

(** A name of 55 to 60 characters, once " Owner" is appended, does not
    fit the column. *)
Lemma owner_name_too_long name :
  (55 <= String.length name <= 60)%nat ->
  varchar 60 (Some (name +:+ " Owner")) = Error string_data_right_truncation.
Proof.
  intros Hlen. unfold varchar. rewrite length_append.
  change (String.length " Owner") with 6%nat.
  destruct (Nat.leb_spec (String.length name + 6) 60); [lia |].
  replace 60%nat with (String.length name + (60 - String.length name))%nat at 1 by lia.
  rewrite substring_append_r.
  assert (Hk : exists k, (k < 6)%nat /\ String.length name = (55 + k)%nat).
  { exists (String.length name - 55)%nat. lia. }
  destruct Hk as (k & Hk & ->).
  do 6 (destruct k as [|k]; [reflexivity |]). lia.
Qed.

(** An owner whose name does not fit is refused when the statement is
    planned, whatever the other parameters: no key is drawn and the code
    is never the one of a unique violation. *)
Lemma owner_too_long name email password address role db :
  (55 <= String.length name <= 60)%nat ->
  exists code,
    insert_user (Some (name +:+ " Owner")) email password address role db
    = (Error code, db) /\ code <> unique_violation.
Proof.
  intros Hlen. unfold insert_user, user_values.
  destruct (text_param (Some _)) as [n|c] eqn:Hn.
  2:{ apply text_param_refused in Hn as ->. by eexists. }
  apply text_param_ok in Hn as ->.
  destruct (text_param email) as [e|c] eqn:He.
  2:{ apply text_param_refused in He as ->. by eexists. }
  destruct (text_param password) as [p|c] eqn:Hp.
  2:{ apply text_param_refused in Hp as ->. by eexists. }
  destruct (text_param address) as [a|c] eqn:Ha.
  2:{ apply text_param_refused in Ha as ->. by eexists. }
  destruct (text_param role) as [r|c] eqn:Hr.
  2:{ apply text_param_refused in Hr as ->. by eexists. }
  cbn [mbind result_bind]. rewrite (owner_name_too_long name Hlen).
  by eexists.
Qed.

Section WithExternals.
Context (E : Externals).

Lemma insert_user_failed name email password address role db code db' :
  insert_user name email password address role db = (Error code, db') ->
  users db' = users db /\ stores db' = stores db.
Proof.
  intros H. pose proof (insert_user_outcome name email password address role db) as Ho.
  rewrite H in Ho. by destruct Ho as [-> | ->].
Qed.

Lemma insert_user_done name email password address role db row db' :
  insert_user name email password address role db = (Ok row, db') ->
  users db' = users db ++ [row] /\ stores db' = stores db.
Proof.
  intros H. pose proof (insert_user_outcome name email password address role db) as Ho.
  rewrite H in Ho. by destruct Ho as (_ & _ & ->).
Qed.

Lemma insert_store_done name email address owner db row db' :
  insert_store name email address owner db = (Ok row, db') ->
  users db' = users db /\ stores db' = stores db ++ [row] /\
  Some (s_owner_id row) = owner.
Proof.
  intros H. pose proof (insert_store_outcome name email address owner db) as Ho.
  rewrite H in Ho. destruct Ho as ((n & e & a & _ & Hn) & _ & ->).
  repeat split; try done.
  unfold new_store, mbind, result_bind, mret, result_ret, not_null, require in Hn.
  repeat case_match; by simplify_eq.
Qed.

Lemma add_store_failed_status code : status (add_store_failed code) <> 201.
Proof. unfold add_store_failed. by destruct (String.eqb code "23505"). Qed.

(** The store and its owner are created together or not at all. *)
Lemma add_store_all_or_nothing req db :
  status (add_store E req db).1 <> 201 ->
  no_new_rows db (add_store E req db).2.
Proof.
  unfold add_store, no_new_rows.
  destruct (or_else _ _); [done |].
  destruct (bcrypt_hash E _ _); [|done].
  destruct (insert_user _ _ _ _ _ db) as [[owner|code] db1]; [|done].
  destruct (insert_store _ _ _ _ db1) as [[store|code] db2]; [|done].
  simpl. done.
Qed.

Lemma add_store_both req db :
  status (add_store E req db).1 = 201 ->
  exists owner store,
    users (add_store E req db).2 = users db ++ [owner] /\
    stores (add_store E req db).2 = stores db ++ [store] /\
    s_owner_id store = u_id owner.
Proof.
  unfold add_store.
  destruct (or_else _ _); [done |].
  destruct (bcrypt_hash E _ _); [|done].
  destruct (insert_user _ _ _ _ _ db) as [[owner|code] db1] eqn:Hu;
    [| intros H; by apply add_store_failed_status in H].
  destruct (insert_store _ _ _ _ db1) as [[store|code] db2] eqn:Hs;
    [| intros H; by apply add_store_failed_status in H].
  intros _. simpl. exists owner, store.
  apply insert_user_done in Hu as [Hu1 Hu2].
  apply insert_store_done in Hs as (Hs1 & Hs2 & Hs3).
  rewrite Hs1, Hs2, Hu1, Hu2. repeat split. by injection Hs3.
Qed.

Lemma store_route_all_or_nothing req db :
  status (serve E PostAdminStores req db).1 <> 201 ->
  no_new_rows db (serve E PostAdminStores req db).2.
Proof.
  simpl. unfold admin_only, authenticated.
  destruct (authenticateToken E req) as [answer|user]; [done |].
  destruct (requireAdmin user); [done |]. apply add_store_all_or_nothing.
Qed.

Lemma validate_name_string s :
  validate_name E (JStr s) = None <-> (20 <= String.length s <= 60)%nat.
Proof.
  unfold validate_name. rewrite js_lt_length, js_gt_length. simpl truthy.
  destruct (String.eqb_spec s "") as [->|_]; simpl.
  { split; [done | simpl; lia]. }
  destruct (Z.ltb_spec (Z.of_nat (String.length s)) 20); simpl.
  { split; [done | lia]. }
  destruct (Z.ltb_spec 60 (Z.of_nat (String.length s))); simpl.
  { split; [done | lia]. }
  split; [lia | done].
Qed.

(** Every store name of 55 to 60 characters is answered 500, whatever
    the email. *)
Lemma long_store_name_is_500 req db name :
  field req "name" = JStr name -> (55 <= String.length name <= 60)%nat ->
  validate_email E (field req "email") = None ->
  validate_address E (field req "address") = None ->
  (add_store E req db).1 = message 500 "Server error adding store/owner." /\
  no_new_rows db (add_store E req db).2.
Proof.
  intros Hname Hlen Hemail Haddr. unfold add_store.
  rewrite Hname, Hemail, Haddr.
  rewrite (proj2 (validate_name_string name)) by lia.
  simpl or_else. cbv iota.
  destruct (bcrypt_hash E _ _) as [h|]; [|done].
  simpl ToString.
  destruct (owner_too_long name (pg_text E (field req "email")) (Some h)
              (pg_text E (field req "address")) (Some "store_owner") db Hlen)
    as (code & -> & Hcode).
  unfold add_store_failed. by destruct (String.eqb_spec code "23505").
Qed.

Lemma validate_address_string s :
  validate_address E (JStr s) = None <-> (1 <= String.length s <= 400)%nat.
Proof.
  unfold validate_address. rewrite js_gt_length. simpl truthy.
  unfold length_of. rewrite strict_eq_JInt.
  destruct (String.eqb_spec s "") as [->|Hne]; simpl.
  { split; [done | simpl; lia]. }
  assert (String.length s <> 0)%nat by (destruct s; simpl; [done | lia]).
  rewrite bool_decide_false by lia.
  destruct (Z.ltb_spec 400 (Z.of_nat (String.length s))); simpl.
  { split; [done | lia]. }
  split; [lia | done].
Qed.

Lemma varchar_fits n s :
  (String.length s <= n)%nat -> varchar n (Some s) = Ok (Some s).
Proof.
  intros H. unfold varchar. by destruct (Nat.leb_spec (String.length s) n); [|lia].
Qed.

Lemma has_nul_append a b : has_nul (a +:+ b) = has_nul a || has_nul b.
Proof.
  unfold has_nul. induction a as [|c a IH]; [done |].
  rewrite append_cons. simpl. by rewrite IH, orb_assoc.
Qed.

(** Parameters that the server accepts as they are. *)
Lemma user_values_fit name email password address role :
  has_nul name = false -> has_nul email = false -> has_nul password = false ->
  text_param address = Ok address -> has_nul role = false ->
  (String.length name <= 60)%nat -> (String.length email <= 255)%nat ->
  (String.length password <= 255)%nat -> (String.length role <= 20)%nat ->
  user_values (Some name) (Some email) (Some password) address (Some role)
  = Ok (Some name, Some email, Some password, address, Some role).
Proof.
  intros Hn He Hp Ha Hr Ln Le Lp Lr. unfold user_values.
  rewrite !text_param_clean, Ha by done. cbn [mbind result_bind].
  by rewrite !varchar_fits by done.
Qed.

Lemma store_values_fit name email address :
  has_nul name = false -> has_nul email = false ->
  text_param address = Ok address ->
  (String.length name <= 60)%nat -> (String.length email <= 255)%nat ->
  store_values (Some name) (Some email) address
  = Ok (Some name, Some email, address).
Proof.
  intros Hn He Ha Ln Le. unfold store_values.
  rewrite !text_param_clean, Ha by done. cbn [mbind result_bind].
  by rewrite !varchar_fits by done.
Qed.

(** With an owner name that fits its column, parameters that hold no
    code unit 0 and a sequence that has a value left, an email that a
    user already has is reported as such, and nothing is stored. *)
Lemma duplicate_email_is_400 req db name email address hashed :
  field req "name" = JStr name -> (20 <= String.length name <= 54)%nat ->
  field req "email" = JStr email -> validate_email E (JStr email) = None ->
  (String.length email <= 255)%nat ->
  field req "address" = JStr address -> (1 <= String.length address <= 400)%nat ->
  bcrypt_hash E (salt req) (JStr "Store@123") = Some hashed ->
  (String.length hashed <= 255)%nat ->
  has_nul name = false -> has_nul email = false -> has_nul address = false ->
  has_nul hashed = false ->
  users_id_seq db <= serial_max ->
  users_id_seq db ∉ u_id <$> users db ->
  email ∈ u_email <$> users db ->
  (add_store E req db).1 = message 400 "Email already exists for a user/owner." /\
  no_new_rows db (add_store E req db).2.
Proof.
  intros Hname Hlen Hemail Hvalid Helen Haddr Halen Hhash Hhlen
    Nname Nemail Naddr Nhash Hroom Hfresh Hdup.
  unfold add_store. rewrite Hname, Hemail, Haddr, Hvalid, Hhash.
  rewrite (proj2 (validate_name_string name)) by lia.
  rewrite (proj2 (validate_address_string address)) by lia.
  simpl or_else. cbv iota.
  unfold insert_user. simpl ToString. simpl pg_text.
  rewrite user_values_fit;
    [| by rewrite has_nul_append, Nname | done | done
     | by apply text_param_clean | done
     | rewrite length_append; simpl; lia | done | done | simpl; lia].
  rewrite nextval_room by done. unfold new_user.
  cbn [mbind result_bind not_null].
  assert (check_name (name +:+ " Owner") = true) as ->.
  { unfold check_name. rewrite length_append. simpl String.length.
    apply andb_true_iff. split; apply Nat.leb_le; lia. }
  assert (check_address (Some address) = true) as ->
    by (apply Nat.leb_le; lia).
  rewrite (bool_decide_true _ Hfresh).
  rewrite (bool_decide_false (email ∉ _)) by (intros Hn; by apply Hn).
  done.
Qed.

End WithExternals.

(** Claim C6, at the input where the code departs from it.  The name of
    55 characters passes the validator and the email is the one of an
    existing user, yet the answer is 500 and not the 400 of a duplicate
    email: the owner is inserted under the name followed by " Owner",
    which does not fit [VARCHAR(60)].  No row is added to either table. *)
Theorem long_store_name_hides_the_duplicate_email :
  validate_name Sample.E (JStr Sample.name55) = None /\
  Sample.jane ∈ users Sample.db /\
  field (Sample.store_for_jane Sample.name55) "email"
  = JStr (u_email Sample.jane) /\
  (serve Sample.E PostAdminStores (Sample.store_for_jane Sample.name55) Sample.db).1
  = message 500 "Server error adding store/owner." /\
  no_new_rows Sample.db
    (serve Sample.E PostAdminStores (Sample.store_for_jane Sample.name55) Sample.db).2.
Proof.
  split; [reflexivity |]. split; [set_solver |]. split; [reflexivity |].
  split; [reflexivity |]. apply store_route_all_or_nothing. discriminate.
Qed.

Example shorter_store_name_reports_the_duplicate_email :
  (serve Sample.E PostAdminStores (Sample.store_for_jane Sample.name54) Sample.db).1
  = message 400 "Email already exists for a user/owner.".
Proof. reflexivity. Qed.

End ProvisioningFacts.

(** ** The rating validator *)

Module RatingValidationFacts.
Import Js Pg Server Spec.

Section WithExternals.
Context (E : Externals).

Lemma validate_rating_number q :
  validate_rating E (JNum (Fin q)) = None <-> (1 <= q <= 5)%Q.
Proof.
  unfold validate_rating, gt, lt. simpl.
  destruct (Qle_bool 1 q) eqn:H1, (Qle_bool q 5) eqn:H5; simpl.
  - apply Qle_bool_iff in H1, H5. done.
  - split; [done |]. intros [_ H]. apply Qle_bool_iff in H. congruence.
  - split; [done |]. intros [H _]. apply Qle_bool_iff in H. congruence.
  - split; [done |]. intros [H _]. apply Qle_bool_iff in H. congruence.
Qed.

(** A rating that the validator turns down is answered 400 and nothing
    is stored. *)
Lemma rejected_rating_is_400 user req db msg :
  strict_eq (JInt (p_id user)) (field req "userId") = true ->
  validate_rating E (field req "rating") = Some msg ->
  post_ratings E user req db = (message 400 msg, db).
Proof. intros Hid Hv. unfold post_ratings. by rewrite Hid, Hv. Qed.

Lemma pg_int_fraction q :
  ~ (q == inject_Z (Qfloor q))%Q ->
  pg_int E (JNum (Fin q)) = Error invalid_text_representation.
Proof.
  intros Hq. unfold pg_int.
  destruct (Qeq_bool q (inject_Z (Qfloor q))) eqn:Hb; [|done].
  by apply Qeq_bool_iff in Hb.
Qed.

(** A number between 1 and 5 that is not an integer passes the
    validator; the statement is sent and PostgreSQL turns it down. *)
Lemma fractional_rating_is_500 user req db q :
  strict_eq (JInt (p_id user)) (field req "userId") = true ->
  truthy (field req "storeId") = true ->
  field req "rating" = JNum (Fin q) ->
  (1 <= q <= 5)%Q -> ~ (q == inject_Z (Qfloor q))%Q ->
  post_ratings E user req db = (message 500 "Failed to submit rating.", db).
Proof.
  intros Hid Hstore Hr Hq Hfrac. unfold post_ratings.
  rewrite Hid, Hstore, Hr. rewrite (proj2 (validate_rating_number q) Hq).
  unfold rating_params. rewrite (pg_int_fraction q Hfrac).
  cbn [negb]. destruct (pg_int E (field req "userId")); [|done].
  destruct (pg_int E (field req "storeId")); done.
Qed.

End WithExternals.

(** Claim C4, at the input where the code departs from it.  The rating
    3.5 passes the validator; the statement is sent to the database, which
    refuses the value, and the answer is 500 instead of 400. *)
Theorem fractional_rating_reaches_storage E :
  validate_rating E (JNum (Fin (7 # 2))) = None /\
  serve Sample.E PostRatings (Sample.jane_rates (JNum (Fin (7 # 2)))) Sample.db
  = (message 500 "Failed to submit rating.", Sample.db).
Proof. split; reflexivity. Qed.

End RatingValidationFacts.

(** ** Lists *)

Module ListFacts.

Lemma filter_is_nil {A} (P : A -> Prop) `{!forall x, Decision (P x)} (l : list A) :
  filter P l = [] <-> forall x, x ∈ l -> ~ P x.
Proof.
  induction l as [|a l IH].
  - split; [intros _ x Hx; by apply elem_of_nil in Hx | done].
  - rewrite filter_cons. destruct (decide (P a)) as [Ha|Ha].
    + split; [done |]. intros Hall. destruct (Hall a); [left | done].
    + rewrite IH. split.
      * intros Hall x [->|Hx]%elem_of_cons; [done | by apply Hall].
      * intros Hall x Hx. apply Hall. by right.
Qed.

(** A map that keeps the rows outside [P] and keeps [P] leaves the
    rows outside [P] as they were. *)
Lemma filter_fmap_outside {A} (P : A -> Prop) `{!forall x, Decision (P x)}
    (f : A -> A) (l : list A) :
  (forall x, ~ P x -> f x = x) -> (forall x, P x -> P (f x)) ->
  filter (fun x => ~ P x) (f <$> l) = filter (fun x => ~ P x) l.
Proof.
  intros Hout Hin. induction l as [|a l IH]; [done |].
  rewrite fmap_cons, !filter_cons, IH.
  destruct (decide (P a)) as [Ha|Ha].
  - destruct (decide (~ P (f a))) as [Hf|_]; [by destruct Hf; apply Hin |].
    by destruct (decide (~ P a)).
  - rewrite (Hout a Ha). done.
Qed.

End ListFacts.

(** ** The constraints of the schema are kept by every route *)

Module SchemaFacts.
Import Js Pg Server Schema PgFacts LedgerFacts InvariantFacts.



(** What an accepted row of [users] says about the parameters of its
    statement. *)
Lemma new_user_ok id name email password address role db row :
  (exists n e p a r,
     user_values name email password address role = Ok (n, e, p, a, r) /\
     new_user id n e p a r db = Ok row) ->
  u_id row = id /\
  varchar 60 name = Ok (Some (u_name row)) /\
  varchar 255 email = Ok (Some (u_email row)) /\
  varchar 255 password = Ok (Some (u_password row)) /\
  varchar 20 role = Ok (Some (u_role row)) /\
  u_address row = address /\
  check_name (u_name row) = true /\ check_address address = true /\
  check_role (u_role row) = true /\
  (id ∉ u_id <$> users db) /\ (u_email row ∉ u_email <$> users db).
Proof.
  intros (n & e & p & a & r & Hv & H).
  apply user_values_ok in Hv as (Hn & He & Hp & -> & Hr & _).
  rewrite Hn, He, Hp, Hr. revert H.
  unfold new_user, mbind, result_bind, mret, result_ret, not_null, require.
  intros H. repeat case_match; simplify_eq. simpl.
  repeat match goal with
         | H : bool_decide _ = true |- _ => apply bool_decide_eq_true in H
         end.
  done.
Qed.

Lemma new_store_ok id name email address owner db row :
  (exists n e a,
     store_values name email address = Ok (n, e, a) /\
     new_store id n e a owner db = Ok row) ->
  s_id row = id /\
  varchar 60 name = Ok (Some (s_name row)) /\
  varchar 255 email = Ok (Some (s_email row)) /\
  owner = Some (s_owner_id row) /\
  s_address row = address /\
  check_name (s_name row) = true /\ check_address address = true /\
  (id ∉ s_id <$> stores db) /\ (s_email row ∉ s_email <$> stores db) /\
  (s_owner_id row ∉ s_owner_id <$> stores db) /\
  (s_owner_id row ∈ u_id <$> users db).
Proof.
  intros (n & e & a & Hv & H).
  apply store_values_ok in Hv as (Hn & He & -> & _).
  rewrite Hn, He. revert H.
  unfold new_store, mbind, result_bind, mret, result_ret, not_null, require.
  intros H. repeat case_match; simplify_eq. simpl.
  repeat match goal with
         | H : bool_decide _ = true |- _ => apply bool_decide_eq_true in H
         end.
  done.
Qed.

Lemma sequences_le_refl db : sequences_le db db.
Proof. unfold sequences_le. lia. Qed.

Lemma sequences_le_trans db1 db2 db3 :
  sequences_le db1 db2 -> sequences_le db2 db3 -> sequences_le db1 db3.
Proof. unfold sequences_le. lia. Qed.

Lemma same_tables_refl db : same_tables db db.
Proof. done. Qed.


Lemma insert_user_sequences name email password address role db :
  sequences_le db (insert_user name email password address role db).2.
Proof.
  pose proof (insert_user_outcome name email password address role db) as H.
  unfold sequences_le.
  destruct (insert_user _ _ _ _ _ db) as [[row|c] db']; simpl.
  - destruct H as (_ & _ & ->). simpl. lia.
  - destruct H as [-> | ->]; simpl; lia.
Qed.

Lemma insert_store_sequences name email address owner db :
  sequences_le db (insert_store name email address owner db).2.
Proof.
  pose proof (insert_store_outcome name email address owner db) as H.
  unfold sequences_le.
  destruct (insert_store _ _ _ _ db) as [[row|c] db']; simpl.
  - destruct H as (_ & _ & ->). simpl. lia.
  - destruct H as [-> | ->]; simpl; lia.
Qed.



Lemma set_password_identity id pw u :
  identity_of (set_password id pw u) = identity_of u.
Proof. unfold set_password. by destruct (_ =? _). Qed.



(** What [UPDATE users SET password] does when it succeeds. *)
Lemma update_password_ok password id db db' :
  update_password password id db = (Ok tt, db') ->
  db' = db \/
  exists z pw, id = Some z /\ varchar 255 password = Ok (Some pw) /\
    users db' = set_password z pw <$> users db /\
    stores db' = stores db /\ ratings db' = ratings db /\
    users_id_seq db' = users_id_seq db /\ stores_id_seq db' = stores_id_seq db /\
    ratings_id_seq db' = ratings_id_seq db.
Proof.
  unfold update_password.
  destruct (text_param password) as [p0|c] eqn:Ht; [|done].
  apply text_param_ok in Ht as ->. cbn [mbind result_bind].
  destruct (varchar 255 password) as [pw'|c] eqn:Hpw; [|done].
  destruct id as [z|]; [|intros [= <-]; by left].
  destruct (bool_decide _); [|intros [= <-]; by left].
  destruct pw' as [pw|]; simpl; [|done].
  intros [= <-]. right. by exists z, pw.
Qed.

Lemma update_password_failed password id db c db' :
  update_password password id db = (Error c, db') -> db' = db.
Proof.
  unfold update_password. destruct (_ ≫= _) as [pw|c']; [| by intros [= _ <-]].
  destruct id as [z|]; [|done].
  destruct (bool_decide _); [|done].
  destruct (not_null pw); [done |]. by intros [= _ <-].
Qed.


(** What the upsert does when it succeeds: it overwrites the value of
    the row of the pair, or adds a row for it. *)
Lemma upsert_ok user_id store_id rating db id rows :
  upsert user_id store_id rating db = Ok (id, rows) ->
  exists u s v,
    user_id = Some u /\ store_id = Some s /\ rating = Some v /\
    check_rating v = true /\
    ((exists old rest,
        filter (fun r => same_pair u s r = true) (ratings db) = old :: rest /\
        id = r_id old /\ rows = set_rating u s v <$> ratings db) \/
     (filter (fun r => same_pair u s r = true) (ratings db) = [] /\
      id = ratings_id_seq db /\
      u ∈ u_id <$> users db /\ s ∈ s_id <$> stores db /\
      rows = ratings db ++ [{| r_id := id; r_user_id := u;
                               r_store_id := s; r_rating := v |}])).
Proof.
  unfold upsert, mbind, result_bind, mret, result_ret, not_null, require.
  destruct user_id as [u|]; [|done]. destruct store_id as [s|]; [|done].
  destruct rating as [v|]; [|done].
  destruct (check_rating v) eqn:Hv; [|done].
  destruct (filter _ (ratings db)) as [|old rest] eqn:Hf.
  - destruct (bool_decide (_ ∉ _)); [|done].
    destruct (bool_decide (u ∈ _)) eqn:Hu; [|done].
    destruct (bool_decide (s ∈ _)) eqn:Hs; [|done].
    apply bool_decide_eq_true in Hu, Hs.
    intros [= <- <-]. exists u, s, v. split_and!; try done. by right.
  - intros [= <- <-]. exists u, s, v. split_and!; try done. left. by exists old, rest.
Qed.


Lemma upsert_rating_sequences user_id store_id rating db :
  sequences_le db (upsert_rating user_id store_id rating db).2.
Proof.
  pose proof (upsert_rating_outcome user_id store_id rating db) as H.
  unfold sequences_le.
  destruct (upsert_rating _ _ _ db) as [[id|c] db']; simpl.
  - destruct H as (rows & _ & _ & ->). simpl. lia.
  - destruct H as [-> | ->]; simpl; lia.
Qed.

Lemma update_password_sequences password id db :
  sequences_le db (update_password password id db).2.
Proof.
  destruct (update_password password id db) as [[[]|c] db'] eqn:Hup; simpl.
  - apply update_password_ok in Hup as [-> | (z & pw & _ & _ & _ & _ & _ & Hsu & Hss & Hsr)].
    + apply sequences_le_refl.
    + unfold sequences_le. lia.
  - rewrite (update_password_failed _ _ _ _ _ Hup). apply sequences_le_refl.
Qed.

Lemma rollback_tables db now : same_tables db (rollback db now).
Proof. done. Qed.

(** *** An induction principle for the routes

    A property of the state that the four statements of the program
    keep, and that does not depend on how far the sequences are, is kept
    by every route. *)

Section Routes.
Context (E : Externals) (P : Db -> Prop).
Hypothesis P_insert_user : forall name email password address role db,
  P db -> P (insert_user name email password address role db).2.
Hypothesis P_insert_store : forall name email address owner db,
  P db -> P (insert_store name email address owner db).2.
Hypothesis P_update_password : forall password id db,
  P db -> P (update_password password id db).2.
Hypothesis P_upsert_rating : forall user_id store_id rating db,
  P db -> P (upsert_rating user_id store_id rating db).2.
Hypothesis P_rollback : forall db db',
  P db -> same_tables db db' -> sequences_le db db' -> P db'.

Lemma signup_keeps req db : P db -> P (signup E req db).2.
Proof.
  intros HP. unfold signup. destruct (or_else _ _); [done |].
  destruct (select_by_email _ db) as [[|? ?]|c]; [|done..].
  destruct (bcrypt_hash E _ _) as [h|]; [|done].
  pose proof (P_insert_user (pg_text E (field req "name"))
                (pg_text E (field req "email")) (Some h)
                (pg_text E (field req "address")) (Some "user") db HP) as H.
  by destruct (insert_user _ _ _ _ _ db) as [[row|c] db'].
Qed.

Lemma add_user_keeps req db : P db -> P (add_user E req db).2.
Proof.
  intros HP. unfold add_user. destruct (or_else _ _); [done |].
  destruct (_ || _); [done |].
  destruct (select_by_email _ db) as [[|? ?]|c]; [|done..].
  destruct (bcrypt_hash E _ _) as [h|]; [|done].
  pose proof (P_insert_user (pg_text E (field req "name"))
                (pg_text E (field req "email")) (Some h)
                (pg_text E (field req "address"))
                (pg_text E (field req "role")) db HP) as H.
  by destruct (insert_user _ _ _ _ _ db) as [[row|c] db'].
Qed.

Lemma add_store_keeps req db : P db -> P (add_store E req db).2.
Proof.
  intros HP. unfold add_store. destruct (or_else _ _); [done |].
  destruct (bcrypt_hash E _ _) as [h|]; [|done].
  pose proof (P_insert_user
                (Some (ToString E (field req "name") +:+ " Owner"))
                (pg_text E (field req "email")) (Some h)
                (pg_text E (field req "address")) (Some "store_owner") db HP) as Hu.
  pose proof (insert_user_sequences
                (Some (ToString E (field req "name") +:+ " Owner"))
                (pg_text E (field req "email")) (Some h)
                (pg_text E (field req "address")) (Some "store_owner") db) as Hsu.
  destruct (insert_user _ _ _ _ _ db) as [[owner|c] db1]; simpl in Hu, Hsu.
  2:{ simpl. apply (P_rollback db); [done | apply rollback_tables | apply Hsu]. }
  pose proof (P_insert_store (pg_text E (field req "name"))
                (pg_text E (field req "email"))
                (pg_text E (field req "address")) (Some (u_id owner)) db1 Hu) as Hs.
  pose proof (insert_store_sequences (pg_text E (field req "name"))
                (pg_text E (field req "email"))
                (pg_text E (field req "address")) (Some (u_id owner)) db1) as Hss.
  destruct (insert_store _ _ _ _ db1) as [[store|c] db2]; simpl in Hs, Hss; [done |].
  simpl. apply (P_rollback db); [done | apply rollback_tables |].
  by apply (sequences_le_trans db db1 db2).
Qed.

Lemma put_password_keeps user req db : P db -> P (put_password E user req db).2.
Proof.
  intros HP. unfold put_password. destruct (_ && _); [done |].
  destruct (validate_password E _); [done |].
  destruct (bcrypt_hash E _ _) as [h|]; [|done].
  destruct (pg_int E _) as [id|]; [|done].
  pose proof (P_update_password (Some h) id db HP) as H.
  by destruct (update_password _ _ db) as [[] db'].
Qed.

Lemma post_ratings_keeps user req db : P db -> P (post_ratings E user req db).2.
Proof.
  intros HP. unfold post_ratings. destruct (negb (strict_eq _ _)); [done |].
  destruct (validate_rating E _); [done |].
  destruct (negb (truthy _)); [done |].
  destruct (rating_params E _ _ _) as [[[u s] r]|]; [|done].
  pose proof (P_upsert_rating u s r db HP) as H.
  by destruct (upsert_rating u s r db) as [[id|c] db'].
Qed.

Lemma login_same req db : (login E req db).2 = db.
Proof. unfold login. by repeat case_match. Qed.

Lemma serve_keeps r req db : P db -> P (serve E r req db).2.
Proof.
  intros HP.
  destruct r; simpl; unfold admin_only, authenticated;
    try (destruct (authenticateToken E req) as [answer|user]; [done |]);
    try (destruct (requireAdmin user); [done |]).
  - done.
  - by rewrite login_same.
  - by apply signup_keeps.
  - done.
  - done.
  - done.
  - by apply add_user_keeps.
  - by apply add_store_keeps.
  - by apply put_password_keeps.
  - by apply post_ratings_keeps.
Qed.

End Routes.


Lemma has_nul_substring n s : has_nul s = false -> has_nul (substring 0 n s) = false.
Proof.
  unfold has_nul. revert s. induction n as [|n IH]; intros [|c s]; try done.
  simpl. intros [Hc Hs]%orb_false_iff. rewrite Hc. by apply IH.
Qed.

(** What is stored in a [VARCHAR] column from a text parameter holds no
    code unit 0. *)
Lemma varchar_read n v s :
  text_param v = Ok v -> varchar n v = Ok (Some s) -> has_nul s = false.
Proof.
  destruct v as [s0|]; [|done]. cbn [text_param].
  destruct (has_nul s0) eqn:Hs0; [done |]. intros _. unfold varchar.
  destruct (_ <=? _)%nat; [by intros [= <-] |].
  destruct (all_spaces _); [|done]. intros [= <-]. by apply has_nul_substring.
Qed.

(** No route stores an email that holds the code unit 0: the emails of
    [users] are texts that the server has read. *)
Lemma stored_emails_are_read E r req db :
  (forall u, u ∈ users db -> has_nul (u_email u) = false) ->
  forall u, u ∈ users (serve E r req db).2 -> has_nul (u_email u) = false.
Proof.
  apply (serve_keeps E (fun db => forall u, u ∈ users db -> has_nul (u_email u) = false)).
  - intros name email password address role db1 HP.
    pose proof (insert_user_outcome name email password address role db1) as Ho.
    destruct (insert_user _ _ _ _ _ db1) as [[row|c] db2]; simpl.
    2:{ by destruct Ho as [-> | ->]. }
    destruct Ho as (Hnew & _ & ->). simpl.
    intros u [Hu | ->%list_elem_of_singleton]%elem_of_app; [by apply HP |].
    pose proof Hnew as (n & e & p & a & r0 & Hv & _).
    apply user_values_ok in Hv as (_ & _ & _ & _ & _ & _ & Hread & _).
    apply new_user_ok in Hnew as (_ & _ & He & _).
    by apply (varchar_read 255 email).
  - intros name email address owner db1 HP.
    pose proof (insert_store_outcome name email address owner db1) as Ho.
    destruct (insert_store _ _ _ _ db1) as [[row|c] db2]; simpl.
    + by destruct Ho as (_ & _ & ->).
    + by destruct Ho as [-> | ->].
  - intros password id db1 HP.
    destruct (update_password password id db1) as [[[]|c] db2] eqn:Hup; simpl.
    + apply update_password_ok in Hup as [-> | (z & pw & _ & _ & -> & _)]; [done |].
      intros u (u0 & -> & Hu0)%list_elem_of_fmap.
      assert (u_email (set_password z pw u0) = u_email u0) as ->
        by (unfold set_password; by destruct (_ =? _)).
      by apply HP.
    + by rewrite (update_password_failed _ _ _ _ _ Hup).
  - intros user_id store_id rating db1 HP.
    pose proof (upsert_rating_outcome user_id store_id rating db1) as Ho.
    destruct (upsert_rating _ _ _ db1) as [[id|c] db2]; simpl.
    + by destruct Ho as (rows & _ & _ & ->).
    + by destruct Ho as [-> | ->].
  - intros db1 db2 HP (Hu & _) _. by rewrite Hu.
Qed.

End SchemaFacts.

(** ** Headers and email addresses *)

Module TextFacts.
Import Js Regex Pg Server Words RegexFacts ValueFacts.

Lemma split_one_word sep s :
  sep ∉ list_ascii_of_string s -> split sep s = [s].
Proof.
  induction s as [|c s IH]; [done |]. simpl. intros Hs.
  destruct (Ascii.eqb_spec c sep) as [->|Hc]; [set_solver |].
  rewrite IH; [done | set_solver].
Qed.

Lemma split_append sep a b :
  sep ∉ list_ascii_of_string a ->
  split sep (a +:+ String sep b) = a :: split sep b.
Proof.
  induction a as [|c a IH]; intros Ha.
  - rewrite append_nil_l. simpl. by rewrite Ascii.eqb_refl.
  - rewrite append_cons. simpl.
    destruct (Ascii.eqb_spec c sep) as [->|Hc]; [set_solver |].
    rewrite IH; [done | set_solver].
Qed.

Lemma split_not_nil sep s : split sep s <> [].
Proof.
  destruct s as [|c s]; [done |]. simpl.
  destruct (Ascii.eqb c sep); [done |]. by destruct (split sep s).
Qed.

Lemma lang_star_class p s :
  lang (Star (Class p)) s <-> Forall (fun c => p c = true) (list_ascii_of_string s).
Proof.
  split.
  - intros H. remember (Star (Class p)) as r eqn:Hr.
    induction H as [| | | | | |r' u v Hu _ Hv IHv]; try discriminate.
    + constructor.
    + injection Hr as ->. apply lang_class_inv in Hu as (c & -> & Hc).
      rewrite append_cons, append_nil_l. simpl. constructor; [done | by apply IHv].
  - induction s as [|c s IH]; simpl; [constructor |].
    intros [Hc Hs]%Forall_cons.
    change (String c s) with (String c "" +:+ s).
    constructor; [by constructor | by apply IH].
Qed.

Lemma lang_plus_class p s :
  lang (Plus (Class p)) s <->
  s <> "" /\ Forall (fun c => p c = true) (list_ascii_of_string s).
Proof.
  unfold Plus. split.
  - intros (u & v & -> & Hu & Hv)%lang_seq_inv.
    apply lang_class_inv in Hu as (c & -> & Hc).
    rewrite append_cons, append_nil_l. split; [done |].
    simpl. constructor; [done | by apply lang_star_class].
  - intros [Hne H]. destruct s as [|c s]; [done |].
    simpl in H. apply Forall_cons in H as [Hc Hs].
    change (String c s) with (String c "" +:+ s).
    constructor; [by constructor | by apply lang_star_class].
Qed.

Lemma lang_char c s : lang (Class (Ascii.eqb c)) s <-> s = String c "".
Proof.
  split.
  - intros (c' & -> & Hc)%lang_class_inv. by apply Ascii.eqb_eq in Hc as ->.
  - intros ->. constructor. apply Ascii.eqb_refl.
Qed.

Lemma plain_lang s :
  lang (Plus (Class (fun c => negb (white_space c || Ascii.eqb c "@")))) s
  <-> plain s.
Proof.
  rewrite lang_plus_class. unfold plain.
  assert (Hc : forall c, negb (white_space c || Ascii.eqb c "@") = true
                         <-> white_space c = false /\ c <> "@"%char).
  { intros c. rewrite negb_true_iff, orb_false_iff.
    destruct (Ascii.eqb_spec c "@") as [Heq|Hc]; destruct (white_space c);
      split; intros [H1 H2]; done. }
  split; intros [Hne H]; (split; [done |]);
    (eapply Forall_impl; [exact H |]); intros c; apply Hc.
Qed.

Lemma matches_email s :
  matches email_re s = true <->
  exists a b c, s = a +:+ "@" +:+ b +:+ "." +:+ c /\ plain a /\ plain b /\ plain c.
Proof.
  rewrite matches_lang. unfold email_re. cbv zeta. split.
  - intros Hm.
    apply lang_seq_inv in Hm as (a & r1 & -> & Ha & Hm).
    apply lang_seq_inv in Hm as (at' & r2 & -> & Hat & Hm).
    apply lang_seq_inv in Hm as (b & r3 & -> & Hb & Hm).
    apply lang_seq_inv in Hm as (dot & c & -> & Hdot & Hc).
    apply lang_char in Hat as ->. apply lang_char in Hdot as ->.
    apply plain_lang in Ha, Hb, Hc. by exists a, b, c.
  - intros (a & b & c & -> & Ha & Hb & Hc).
    apply plain_lang in Ha, Hb, Hc.
    repeat (constructor; try done); by apply lang_char.
Qed.

(** An accepted email has no space. *)
Lemma email_one_word s : matches email_re s = true -> one_word s.
Proof.
  intros (a & b & c & -> & [_ Ha] & [_ Hb] & [_ Hc])%matches_email.
  unfold one_word. rewrite !list_ascii_app. simpl.
  assert (Hp : forall l, Forall (fun c => white_space c = false /\ c <> "@"%char) l
                         -> " "%char ∉ l).
  { intros l Hl Hin. rewrite Forall_forall in Hl. by destruct (Hl _ Hin). }
  apply Hp in Ha, Hb, Hc.
  repeat (rewrite elem_of_app || rewrite elem_of_cons).
  intros [?|[?|[?|[?|?]]]]; done.
Qed.

Lemma all_spaces_substring n k s :
  (0 < k)%nat -> (n + k <= String.length s)%nat ->
  all_spaces (substring n k s) = true -> " "%char ∈ list_ascii_of_string s.
Proof.
  revert n. induction s as [|c s IH]; intros n Hk Hlen; simpl in Hlen; [lia |].
  destruct n as [|n]; simpl.
  - destruct k as [|k]; [lia |]. unfold all_spaces.
    cbn [substring list_ascii_of_string forallb].
    intros [Hc _]%andb_true_iff. apply Ascii.eqb_eq in Hc as <-. set_solver.
  - intros H. apply IH in H; [set_solver | done | lia].
Qed.

(** A string without a space is stored as it is or not at all. *)
Lemma varchar_one_word n s s' :
  one_word s -> varchar n (Some s) = Ok (Some s') -> s' = s.
Proof.
  intros Hs. unfold varchar.
  destruct (Nat.leb_spec (String.length s) n); [by intros [= <-] |].
  destruct (all_spaces _) eqn:Hsp; [|done].
  apply all_spaces_substring in Hsp; [done | lia | lia].
Qed.

(** Property X6.  [validate.email] accepts a string exactly when it reads
    [a@b.c] with [a], [b] and [c] not empty and free of white space and
    of [@]. *)
Theorem email_validation E s :
  validate_email E (JStr s) = None <->
  exists a b c, s = a +:+ "@" +:+ b +:+ "." +:+ c /\ plain a /\ plain b /\ plain c.
Proof.
  rewrite <- matches_email. unfold validate_email. simpl ToString.
  by destruct (matches email_re s).
Qed.

Section WithExternals.
Context (E : Externals).

Lemma second_word req scheme token :
  one_word scheme -> one_word token -> token <> "" ->
  authorization req = Some (scheme +:+ " " +:+ token) ->
  bearer_token req = Some token.
Proof.
  intros Hs Ht Hne Hauth. unfold bearer_token. rewrite Hauth. simpl.
  change (scheme +:+ " " +:+ token) with (scheme +:+ String " " token).
  rewrite split_append by done. rewrite split_one_word by done. simpl.
  by destruct (String.eqb_spec token "") as [->|_].
Qed.

Lemma one_word_Bearer : one_word "Bearer".
Proof. unfold one_word. apply (bool_decide_unpack _). by vm_compute. Qed.

(** Property X4.  When the [Authorization] header is two words separated by
    one space, the token is the second word, whatever the first word is:
    [authenticateToken] passes it to [jwt.verify] and never looks at the
    scheme. *)
Theorem scheme_word_is_not_checked req scheme token :
  one_word scheme -> one_word token -> token <> "" ->
  authorization req = Some (scheme +:+ " " +:+ token) ->
  bearer_token req = Some token /\
  authenticateToken E req
  = match jwt_verify E (now req) token with
    | Some user => inr user
    | None => inl (message 403 "Invalid or expired token")
    end.
Proof.
  intros Hs Ht Hne Hauth.
  assert (Hb : bearer_token req = Some token) by by apply (second_word _ scheme).
  split; [done |]. unfold authenticateToken. by rewrite Hb.
Qed.

(** Property X5.  A header that is one word, a bare token for instance, has
    no second word: every protected route answers 401 as if no header had
    been sent, and changes nothing. *)
Theorem bare_token_is_401 r req db header :
  protected r = true ->
  authorization req = Some header -> one_word header ->
  serve E r req db = (message 401 "Access token required", db).
Proof.
  intros Hr Hauth Hw.
  assert (Hb : bearer_token req = None).
  { unfold bearer_token. rewrite Hauth. simpl. by rewrite split_one_word. }
  assert (Ha : authenticateToken E req = inl (message 401 "Access token required")).
  { unfold authenticateToken. by rewrite Hb. }
  destruct r; try discriminate; simpl; unfold admin_only, authenticated;
    by rewrite Ha.
Qed.

(** Property X7.  On strings, [validate.name] accepts exactly the
    lengths 20 to 60 and [validate.address] exactly the lengths 1 to
    400. *)
Theorem name_and_address_validation s :
  (validate_name E (JStr s) = None <-> (20 <= String.length s <= 60)%nat) /\
  (validate_address E (JStr s) = None <-> (1 <= String.length s <= 400)%nat).
Proof.
  split.
  - apply ProvisioningFacts.validate_name_string.
  - apply ProvisioningFacts.validate_address_string.
Qed.


End WithExternals.

End TextFacts.

(** ** Accounts: registration, creation by the administrator, login *)

Module AccountFacts.
Import Js Regex Pg Server Schema Words RegexFacts ValueFacts ListFacts SchemaFacts TextFacts
  ProvisioningFacts PgFacts.

Lemma insert_user_ok name email password address role db row db' :
  insert_user name email password address role db = (Ok row, db') ->
  (exists n e p a r,
     user_values name email password address role = Ok (n, e, p, a, r) /\
     new_user (users_id_seq db) n e p a r db = Ok row) /\
  users db' = users db ++ [row] /\ stores db' = stores db /\
  ratings db' = ratings db /\ users_id_seq db' = users_id_seq db + 1 /\
  stores_id_seq db' = stores_id_seq db /\ ratings_id_seq db' = ratings_id_seq db.
Proof.
  intros H. pose proof (insert_user_outcome name email password address role db) as Ho.
  rewrite H in Ho. by destruct Ho as (Hnew & _ & ->).
Qed.

Lemma insert_user_error name email password address role db c db' :
  insert_user name email password address role db = (Error c, db') ->
  same_tables db db'.
Proof.
  intros H. pose proof (insert_user_outcome name email password address role db) as Ho.
  rewrite H in Ho. by destruct Ho as [-> | ->].
Qed.

Lemma insert_store_ok name email address owner db row db' :
  insert_store name email address owner db = (Ok row, db') ->
  (exists n e a,
     store_values name email address = Ok (n, e, a) /\
     new_store (stores_id_seq db) n e a owner db = Ok row) /\
  users db' = users db /\ stores db' = stores db ++ [row] /\
  ratings db' = ratings db /\ users_id_seq db' = users_id_seq db /\
  stores_id_seq db' = stores_id_seq db + 1 /\ ratings_id_seq db' = ratings_id_seq db.
Proof.
  intros H. pose proof (insert_store_outcome name email address owner db) as Ho.
  rewrite H in Ho. by destruct Ho as (Hnew & _ & ->).
Qed.

Lemma insert_store_error name email address owner db c db' :
  insert_store name email address owner db = (Error c, db') ->
  same_tables db db'.
Proof.
  intros H. pose proof (insert_store_outcome name email address owner db) as Ho.
  rewrite H in Ho. by destruct Ho as [-> | ->].
Qed.

Section WithExternals.
Context (E : Externals).

Lemma or_else_None a b :
  a <> Some "" -> or_else a b = None -> a = None /\ b = None.
Proof.
  unfold or_else. destruct a as [m|]; [|done].
  destruct (String.eqb_spec m "") as [->|]; done.
Qed.

Lemma validate_name_message v : validate_name E v <> Some "".
Proof. unfold validate_name. by repeat case_match. Qed.

Lemma validate_email_message v : validate_email E v <> Some "".
Proof. unfold validate_email. by repeat case_match. Qed.

Lemma validate_address_message v : validate_address E v <> Some "".
Proof. unfold validate_address. by repeat case_match. Qed.

Lemma validate_password_message v : validate_password E v <> Some "".
Proof. unfold validate_password. by repeat case_match. Qed.

Lemma validate_rating_message v : validate_rating E v <> Some "".
Proof. unfold validate_rating. by repeat case_match. Qed.

(** The four checks of a registration, taken apart. *)
Lemma four_checks name email address password :
  or_else (validate_name E name)
    (or_else (validate_email E email)
       (or_else (validate_address E address) (validate_password E password))) = None ->
  validate_name E name = None /\ validate_email E email = None /\
  validate_address E address = None /\ validate_password E password = None.
Proof.
  intros [? H]%or_else_None; [|apply validate_name_message].
  apply or_else_None in H as [? H]; [|apply validate_email_message].
  apply or_else_None in H as [? H]; [|apply validate_address_message].
  done.
Qed.

(** An accepted email is stored as it was sent. *)
Lemma stored_email v s :
  validate_email E v = None ->
  varchar 255 (pg_text E v) = Ok (Some s) -> s = ToString E v.
Proof.
  unfold validate_email. destruct (matches email_re (ToString E v)) eqn:Hm; [|done].
  intros _ Hv. apply email_one_word in Hm.
  assert (Hp : pg_text E v = Some (ToString E v)).
  { destruct v; try done; simpl in Hv; done. }
  rewrite Hp in Hv. by apply varchar_one_word in Hv.
Qed.

Lemma users_by_email_nil e db :
  users_by_email (Some e) db = [] <-> e ∉ u_email <$> users db.
Proof.
  unfold users_by_email. rewrite filter_is_nil, list_elem_of_fmap. split.
  - intros H (u & -> & Hu). by apply (H u).
  - intros H u Hu He. apply H. by exists u.
Qed.

(** What a registration answered with 201 has done. *)
Lemma signup_201 req db :
  status (signup E req db).1 = 201 ->
  exists h row db',
    validate_email E (field req "email") = None /\
    validate_password E (field req "password") = None /\
    users_by_email (pg_text E (field req "email")) db = [] /\
    bcrypt_hash E (salt req) (field req "password") = Some h /\
    insert_user (pg_text E (field req "name")) (pg_text E (field req "email"))
      (Some h) (pg_text E (field req "address")) (Some "user") db = (Ok row, db') /\
    signup E req db
    = ({| status := 201;
          body := Json (<[ "token" := token_for E req (u_id row) (u_email row) (u_role row) ]>
                          (returned_row row)) |}, db').
Proof.
  unfold signup.
  destruct (or_else _ _) eqn:Hv; [done |]. apply four_checks in Hv as (_ & ? & _ & ?).
  destruct (select_by_email _ db) as [[|? ?]|c] eqn:Hu; [|done..].
  apply select_by_email_ok in Hu as [Hu _].
  destruct (bcrypt_hash E _ _) as [h|] eqn:Hh; [|done].
  destruct (insert_user _ _ _ _ _ db) as [[row|c] db'] eqn:Hi; [|done].
  intros _. by exists h, row, db'.
Qed.

(** The email of an accepted row has been read as a text parameter. *)
Lemma insert_user_read name email password address role db row db' :
  insert_user name email password address role db = (Ok row, db') ->
  text_param email = Ok email.
Proof.
  intros (Hnew & _)%insert_user_ok. destruct Hnew as (n & e & p & a & r & Hv & _).
  by apply user_values_ok in Hv as (_ & _ & _ & _ & _ & _ & He & _).
Qed.




(** Property X9.  A registration answered with 201 has added exactly one
    row to [users], with the next value of the sequence as its id, the
    email as it was sent, a password that [bcrypt.hash] returned and the
    role [user], whatever the body says about a role; the answer carries
    this row and a token for it, and the other tables are as they
    were. *)
Theorem signup_creates_a_user req db :
  status (signup E req db).1 = 201 ->
  exists row h,
    (signup E req db).1
    = {| status := 201;
         body := Json (<[ "token" := token_for E req (u_id row) (u_email row) "user" ]>
                         (returned_row row)) |} /\
    users (signup E req db).2 = users db ++ [row] /\
    stores (signup E req db).2 = stores db /\
    ratings (signup E req db).2 = ratings db /\
    u_id row = users_id_seq db /\ u_role row = "user" /\
    u_email row = ToString E (field req "email") /\
    (u_email row ∉ u_email <$> users db) /\
    bcrypt_hash E (salt req) (field req "password") = Some h /\
    varchar 255 (Some h) = Ok (Some (u_password row)).
Proof.
  intros (h & row & db' & Hemail & _ & _ & Hh & Hi & ->)%signup_201.
  apply insert_user_ok in Hi as (Hnew & Hu & Hs & Hr & _).
  apply new_user_ok in Hnew as (Hid & _ & He & Hpw & Hrole & _ & _ & _ & _ & _ & Hfresh).
  assert (u_role row = "user") as Hrow.
  { vm_compute in Hrole. by injection Hrole. }
  exists row, h. simpl. rewrite Hrow. split_and!; try done.
  by apply stored_email.
Qed.

(** What a creation by the administrator answered with 201 has done. *)
Lemma add_user_201 req db :
  status (add_user E req db).1 = 201 ->
  exists h row db',
    validate_email E (field req "email") = None /\
    admin_or_user (field req "role") = true /\
    bcrypt_hash E (salt req) (field req "password") = Some h /\
    insert_user (pg_text E (field req "name")) (pg_text E (field req "email"))
      (Some h) (pg_text E (field req "address")) (pg_text E (field req "role")) db
    = (Ok row, db') /\
    add_user E req db
    = ({| status := 201;
          body := Json {[ "message" := JStr "User added successfully";
                          "userId" := JInt (u_id row) ]} |}, db').
Proof.
  unfold add_user.
  destruct (or_else _ _) eqn:Hv; [done |]. apply four_checks in Hv as (_ & ? & _ & ?).
  destruct (negb (truthy _) || _) eqn:Hrole; [done |].
  apply orb_false_iff in Hrole as [_ Hrole%negb_false_iff].
  destruct (select_by_email _ db) as [[|? ?]|c] eqn:Hu; [|done..].
  apply select_by_email_ok in Hu as [Hu _].
  destruct (bcrypt_hash E _ _) as [h|] eqn:Hh; [|done].
  destruct (insert_user _ _ _ _ _ db) as [[row|c] db'] eqn:Hi; [|done].
  intros _. by exists h, row, db'.
Qed.

Lemma admin_or_user_inv v :
  admin_or_user v = true -> v = JStr "admin" \/ v = JStr "user".
Proof.
  unfold admin_or_user. destruct v as [| |b|n|s]; try done.
  cbn [strict_eq].
  intros [H|H]%orb_true_iff; apply String.eqb_eq in H as <-; auto.
Qed.

(** Property X10.  A creation by the administrator answered with 201 has
    added exactly one row to [users], with the role the body asked for,
    which is [admin] or [user] and never [store_owner]; the answer names
    the id of this row. *)
Theorem administrator_creates_admin_or_user req db :
  status (add_user E req db).1 = 201 ->
  exists row,
    (add_user E req db).1
    = {| status := 201;
         body := Json {[ "message" := JStr "User added successfully";
                         "userId" := JInt (u_id row) ]} |} /\
    users (add_user E req db).2 = users db ++ [row] /\
    stores (add_user E req db).2 = stores db /\
    ratings (add_user E req db).2 = ratings db /\
    u_id row = users_id_seq db /\
    field req "role" = JStr (u_role row) /\
    (u_role row = "admin" \/ u_role row = "user") /\
    u_email row = ToString E (field req "email").
Proof.
  intros (h & row & db' & Hemail & Hrole & Hh & Hi & ->)%add_user_201.
  apply insert_user_ok in Hi as (Hnew & Hu & Hs & Hr & _).
  apply new_user_ok in Hnew as (Hid & _ & He & _ & Hr20 & _).
  assert (Hrow : field req "role" = JStr (u_role row) /\
                 (u_role row = "admin" \/ u_role row = "user")).
  { apply admin_or_user_inv in Hrole as [Hv|Hv]; rewrite Hv in Hr20 |- *.
    - assert (Ok (Some "admin") = Ok (Some (u_role row))) as [= <-] by exact Hr20.
      auto.
    - assert (Ok (Some "user") = Ok (Some (u_role row))) as [= <-] by exact Hr20.
      auto. }
  destruct Hrow as [Hrow1 Hrow2].
  exists row. simpl. split_and!; try done.
  by apply stored_email.
Qed.

Lemma validate_password_truthy v : validate_password E v = None -> truthy v = true.
Proof.
  unfold validate_password. destruct (truthy v); [done |]. simpl. done.
Qed.

(** Property X11.  After a registration answered with 201, a login with
    the same email and password is answered with 200 and a token for the
    same id, email and role, provided [bcrypt.compare] accepts the
    password against the hash that [bcrypt.hash] made of it, and the hash
    fits the column. *)
Theorem signup_then_login req req' db email :
  status (signup E req db).1 = 201 ->
  field req "email" = JStr email ->
  field req' "email" = JStr email ->
  field req' "password" = field req "password" ->
  (forall h, bcrypt_hash E (salt req) (field req "password") = Some h ->
             (String.length h <= 255)%nat /\
             bcrypt_compare E (field req "password") h = Some true) ->
  exists row,
    users (signup E req db).2 = users db ++ [row] /\
    u_email row = email /\ u_role row = "user" /\
    (login E req' (signup E req db).2).1
    = {| status := 200;
         body := Json (<[ "token" := token_for E req' (u_id row) email "user" ]>
                         (delete "password" (login_row row))) |}.
Proof.
  intros H201 Hemail Hemail' Hpw' Hbcrypt.
  apply signup_201 in H201 as (h & row & db' & Hve & Hvp & Hnone & Hh & Hi & ->).
  destruct (Hbcrypt h Hh) as [Hlen Hcmp].
  pose proof (insert_user_read _ _ _ _ _ _ _ _ Hi) as Hread.
  apply insert_user_ok in Hi as (Hnew & Hu & Hs & Hr & _).
  apply new_user_ok in Hnew as (Hid & _ & He & Hpw & Hrole & _).
  assert (u_role row = "user") as Hrow.
  { vm_compute in Hrole. by injection Hrole. }
  assert (u_email row = email) as Hrowe.
  { apply (stored_email _ _ Hve) in He. by rewrite Hemail in He. }
  assert (u_password row = h) as Hrowp.
  { rewrite varchar_fits in Hpw by done. by injection Hpw. }
  exists row. simpl. split_and!; try done.
  unfold login. rewrite Hemail', Hpw'.
  rewrite (validate_password_truthy _ Hvp).
  assert (truthy (JStr email) = true) as ->.
  { unfold validate_email in Hve. rewrite Hemail in Hve. simpl in Hve.
    destruct email; [done | done]. }
  simpl negb. simpl orb. cbv iota.
  rewrite Hemail in Hnone, Hread. simpl in Hnone.
  rewrite select_by_email_read by done.
  assert (users_by_email (pg_text E (JStr email)) db' = [row]) as ->.
  { simpl. unfold users_by_email in *. rewrite Hu, filter_app, Hnone. simpl.
    by rewrite (filter_singleton_True _ _ []). }
  rewrite Hrowp, Hcmp. simpl negb. cbv iota.
  rewrite Hrow, Hrowe. done.
Qed.

End WithExternals.

End AccountFacts.

(** ** What a request can change *)

Module EffectFacts.
Import Js Regex Pg Server Schema Words ValueFacts ListFacts SchemaFacts TextFacts
  AccountFacts PgFacts.

Lemma Qfloor_of_int q z : (q == inject_Z z)%Q -> Qfloor q = z.
Proof. intros H. rewrite (Qfloor_comp _ _ H). apply Qfloor_Z. Qed.

Lemma upsert_rating_error user_id store_id rating db c db' :
  upsert_rating user_id store_id rating db = (Error c, db') -> same_tables db db'.
Proof.
  intros H. pose proof (upsert_rating_outcome user_id store_id rating db) as Ho.
  rewrite H in Ho. by destruct Ho as [-> | ->].
Qed.

Lemma upsert_rating_ok user_id store_id rating db id db' :
  upsert_rating user_id store_id rating db = (Ok id, db') ->
  exists rows, upsert user_id store_id rating db = Ok (id, rows) /\
    users db' = users db /\ stores db' = stores db /\ ratings db' = rows.
Proof.
  intros H. pose proof (upsert_rating_outcome user_id store_id rating db) as Ho.
  rewrite H in Ho. destruct Ho as (rows & Hup & _ & ->). by exists rows.
Qed.

Section WithExternals.
Context (E : Externals).

(** The parameter that PostgreSQL reads from a value that is strictly
    equal to an integer is this integer. *)
Lemma pg_int_of_equal z v u :
  strict_eq (JInt z) v = true -> pg_int E v = Ok u -> u = Some z.
Proof.
  intros (q & -> & Hq)%strict_eq_number. simpl.
  destruct (Qeq_bool q _); [|done].
  destruct (_ && _); [|done].
  intros [= <-]. by rewrite (Qfloor_of_int q z).
Qed.

Lemma put_password_cases user req db :
  (put_password E user req db).2 = db \/
  exists h z pw,
    (num_eq (Fin (inject_Z (p_id user))) (parseInt E (params_userId req)) = true
     \/ p_role user = "admin") /\
    bcrypt_hash E (salt req) (field req "newPassword") = Some h /\
    pg_int4in E (params_userId req) = Some z /\
    varchar 255 (Some h) = Ok (Some pw) /\
    (put_password E user req db).1 = message 200 "Password updated successfully" /\
    users (put_password E user req db).2 = set_password z pw <$> users db /\
    stores (put_password E user req db).2 = stores db /\
    ratings (put_password E user req db).2 = ratings db.
Proof.
  unfold put_password.
  destruct (negb (num_eq _ _) && _) eqn:Hown; [by left |].
  destruct (validate_password E _); [by left |].
  destruct (bcrypt_hash E _ _) as [h|] eqn:Hh; [|by left].
  unfold pg_int. destruct (pg_int4in E _) as [z|] eqn:Hz; [|by left].
  destruct (update_password _ _ db) as [[[]|c] db'] eqn:Hup; simpl.
  2:{ left. by apply update_password_failed in Hup. }
  apply update_password_ok in Hup
    as [-> | (z' & pw & [= <-] & Hpw & Hu & Hs & Hr & _)]; [by left |].
  right. exists h, z, pw. split_and!; try done.
  apply andb_false_iff in Hown as [Hown|Hown].
  - left. by apply negb_false_iff in Hown.
  - right. apply negb_false_iff in Hown. by apply String.eqb_eq in Hown.
Qed.

Lemma post_ratings_cases user req db :
  (post_ratings E user req db).2 = db \/
  exists s r,
    strict_eq (JInt (p_id user)) (field req "userId") = true /\
    truthy (field req "storeId") = true /\
    pg_int E (field req "storeId") = Ok s /\
    pg_int E (field req "rating") = Ok r /\
    post_ratings E user req db
    = match upsert_rating (Some (p_id user)) s r db with
      | (Ok id, db') =>
          ({| status := 201;
              body := Json {[ "message" := JStr "Rating submitted/updated successfully";
                              "ratingId" := JInt id ]} |}, db')
      | (Error _, db') => (message 500 "Failed to submit rating.", db')
      end.
Proof.
  unfold post_ratings.
  destruct (negb (strict_eq _ _)) eqn:Hid; [by left |].
  apply negb_false_iff in Hid.
  destruct (validate_rating E _); [by left |].
  destruct (negb (truthy _)) eqn:Hs; [by left |]. apply negb_false_iff in Hs.
  unfold rating_params, mbind, result_bind, mret, result_ret.
  destruct (pg_int E (field req "userId")) as [u|] eqn:Hu; [|by left].
  apply (pg_int_of_equal _ _ _ Hid) in Hu as ->.
  destruct (pg_int E (field req "storeId")) as [s|] eqn:Hst; [|by left].
  destruct (pg_int E (field req "rating")) as [r|] eqn:Hr; [|by left].
  right. by exists s, r.
Qed.

(** Property X14.  Whatever the request, the route that updates a
    password leaves every user with the id, name, email, address and role
    it had, adds and removes no user, and leaves the stores and the
    ratings as they were. *)
Theorem password_update_changes_passwords_only req db :
  identity_of <$> users (serve E PutPassword req db).2 = identity_of <$> users db /\
  stores (serve E PutPassword req db).2 = stores db /\
  ratings (serve E PutPassword req db).2 = ratings db.
Proof.
  simpl. unfold authenticated.
  destruct (authenticateToken E req) as [answer|user]; [done |].
  destruct (put_password_cases user req db)
    as [-> | (h & z & pw & _ & _ & _ & _ & _ & -> & -> & ->)]; [done |].
  split_and!; try done.
  rewrite <- list_fmap_compose. apply list_fmap_ext. intros _ u _.
  apply set_password_identity.
Qed.

(** Property X15.  A caller who is not an administrator changes no row
    of another user, as long as [parseInt] and PostgreSQL read the same
    integer in the [:userId] segment of the path. *)
Theorem only_the_own_password req db user :
  authenticateToken E req = inr user -> p_role user <> "admin" ->
  (forall z, pg_int4in E (params_userId req) = Some z ->
             parseInt E (params_userId req) = Fin (inject_Z z)) ->
  filter (fun u => u_id u <> p_id user) (users (serve E PutPassword req db).2)
  = filter (fun u => u_id u <> p_id user) (users db).
Proof.
  intros Hauth Hrole Hagree. simpl. unfold authenticated. rewrite Hauth.
  destruct (put_password_cases user req db)
    as [-> | (h & z & pw & Hown & _ & Hz & _ & _ & -> & _)]; [done |].
  destruct Hown as [Hown|]; [|done].
  rewrite (Hagree z Hz) in Hown.
  assert (p_id user = z) as <-
    by (apply inject_Z_injective, Qeq_bool_iff; exact Hown).
  apply (filter_fmap_outside (fun u => u_id u = p_id user)).
  - intros u Hu. unfold set_password.
    by destruct (Z.eqb_spec (u_id u) (p_id user)).
  - intros u Hu. unfold set_password. by destruct (_ =? _).
Qed.

(** Property X17.  A request to the rating route changes no rating of a
    user other than the one the token names: their rows are neither
    added, removed nor overwritten. *)
Theorem ratings_of_others_are_untouched req db user :
  authenticateToken E req = inr user ->
  filter (fun r => r_user_id r <> p_id user) (ratings (serve E PostRatings req db).2)
  = filter (fun r => r_user_id r <> p_id user) (ratings db).
Proof.
  intros Hauth. simpl. unfold authenticated. rewrite Hauth.
  destruct (post_ratings_cases user req db)
    as [-> | (s & r & _ & _ & _ & _ & ->)]; [done |].
  destruct (upsert_rating _ s r db) as [[id|c] db'] eqn:Hup; simpl.
  2:{ apply upsert_rating_error in Hup as (_ & _ & ->). done. }
  apply upsert_rating_ok in Hup as (rows & Hup & _ & _ & ->).
  apply upsert_ok in Hup as (u & s' & v & [= <-] & _ & _ & _ & Hcase).
  destruct Hcase as [(old & rest & _ & _ & ->) | (_ & _ & _ & _ & ->)].
  - apply (filter_fmap_outside (fun r => r_user_id r = p_id user)).
    + intros x Hx. unfold set_rating, same_pair.
      by destruct (Z.eqb_spec (r_user_id x) (p_id user)).
    + intros x Hx. unfold set_rating. by destruct (same_pair _ _ _).
  - rewrite filter_app, filter_cons. simpl.
    destruct (decide (p_id user <> p_id user)); [done |].
    by rewrite filter_nil, app_nil_r.
Qed.

Lemma pg_int_JInt z u : pg_int E (JInt z) = Ok u -> u = Some z.
Proof. apply pg_int_of_equal, strict_eq_refl_int. Qed.

(** Property X18.  While the references of the rating table hold, a
    rating for a store that is not in [stores] is never answered with 201
    and leaves the rating table as it was. *)
Theorem unknown_store_is_not_rated req db user store :
  ratings_refer db ->
  authenticateToken E req = inr user ->
  field req "storeId" = JInt store -> (store ∉ s_id <$> stores db) ->
  status (serve E PostRatings req db).1 <> 201 /\
  ratings (serve E PostRatings req db).2 = ratings db.
Proof.
  intros Hrefer Hauth Hstore Hnone. simpl. unfold authenticated. rewrite Hauth.
  destruct (post_ratings_cases user req db)
    as [Hsame | (s & r & _ & _ & Hs & _ & Hpost)].
  - split; [|by rewrite Hsame].
    revert Hsame. unfold post_ratings.
    destruct (negb (strict_eq _ _)); [done |].
    destruct (validate_rating E _); [done |].
    destruct (negb (truthy _)); [done |].
    destruct (rating_params E _ _ _) as [[[u0 s0] r0]|] eqn:Hp; [|done].
    unfold rating_params, mbind, result_bind, mret, result_ret in Hp.
    destruct (pg_int E (field req "userId")) as [u1|]; [|done].
    destruct (pg_int E (field req "storeId")) as [s1|] eqn:Hs1; [|done].
    destruct (pg_int E (field req "rating")) as [r1|]; [|done].
    injection Hp as <- <- <-.
    rewrite Hstore in Hs1. apply pg_int_JInt in Hs1 as ->.
    destruct (upsert_rating u1 (Some store) r1 db) as [[id|c] db'] eqn:Hup; [|done].
    exfalso. apply upsert_rating_ok in Hup as (rows & Hup & _).
    apply upsert_ok in Hup as (u & s' & v & _ & [= <-] & _ & _ & Hcase).
    destruct Hcase as [(old & rest & Hf & _) | (_ & _ & _ & Hin & _)]; [|done].
    assert (Hold : old ∈ filter (fun r => same_pair u store r = true) (ratings db))
      by (rewrite Hf; left).
    apply list_elem_of_filter in Hold as [Hpair Hold].
    apply LedgerFacts.same_pair_spec in Hpair as [_ Hpair].
    destruct (Hrefer old Hold) as (_ & Hin & _). by rewrite Hpair in Hin.
  - rewrite Hpost. rewrite Hstore in Hs. apply pg_int_JInt in Hs as ->.
    destruct (upsert_rating _ (Some store) r db) as [[id|c] db'] eqn:Hup; simpl.
    2:{ apply upsert_rating_error in Hup as (_ & _ & ->). done. }
    exfalso. apply upsert_rating_ok in Hup as (rows & Hup & _).
    apply upsert_ok in Hup as (u & s' & v & _ & [= <-] & _ & _ & Hcase).
    destruct Hcase as [(old & rest & Hf & _) | (_ & _ & _ & Hin & _)]; [|done].
    assert (Hold : old ∈ filter (fun r => same_pair u store r = true) (ratings db))
      by (rewrite Hf; left).
    apply list_elem_of_filter in Hold as [Hpair Hold].
    apply LedgerFacts.same_pair_spec in Hpair as [_ Hpair].
    destruct (Hrefer old Hold) as (_ & Hin & _). by rewrite Hpair in Hin.
Qed.

Lemma signup_failed req db :
  status (signup E req db).1 <> 201 -> same_tables db (signup E req db).2.
Proof.
  unfold signup. destruct (or_else _ _); [done |].
  destruct (select_by_email _ db) as [[|? ?]|c0]; [|done..].
  destruct (bcrypt_hash E _ _); [|done].
  destruct (insert_user _ _ _ _ _ db) as [[row|c] db'] eqn:Hi; [done |].
  intros _. by apply insert_user_error in Hi.
Qed.

Lemma add_user_failed req db :
  status (add_user E req db).1 <> 201 -> same_tables db (add_user E req db).2.
Proof.
  unfold add_user. destruct (or_else _ _); [done |].
  destruct (_ || _); [done |].
  destruct (select_by_email _ db) as [[|? ?]|c0]; [|done..].
  destruct (bcrypt_hash E _ _); [|done].
  destruct (insert_user _ _ _ _ _ db) as [[row|c] db'] eqn:Hi; [done |].
  intros _. by apply insert_user_error in Hi.
Qed.

Lemma add_store_not_done req db :
  status (add_store E req db).1 <> 201 -> same_tables db (add_store E req db).2.
Proof.
  intros [Hu Hs]%ProvisioningFacts.add_store_all_or_nothing.
  destruct (InvariantFacts.add_store_ledger E req db) as [Hr _]. done.
Qed.

Lemma put_password_failed req db user :
  status (put_password E user req db).1 <> 200 ->
  same_tables db (put_password E user req db).2.
Proof.
  destruct (put_password_cases user req db)
    as [-> | (h & z & pw & _ & _ & _ & _ & -> & _)]; done.
Qed.

Lemma post_ratings_failed req db user :
  status (post_ratings E user req db).1 <> 201 ->
  same_tables db (post_ratings E user req db).2.
Proof.
  destruct (post_ratings_cases user req db)
    as [-> | (s & r & _ & _ & _ & _ & ->)]; [done |].
  destruct (upsert_rating _ s r db) as [[id|c] db'] eqn:Hup; [done |].
  intros _. by apply upsert_rating_error in Hup.
Qed.

(** Property X3.  On every route, a request that is answered with a status
    other than 200 and 201 leaves the three tables as they were. *)
Theorem failed_requests_change_no_table r req db :
  status (serve E r req db).1 <> 200 -> status (serve E r req db).1 <> 201 ->
  same_tables db (serve E r req db).2.
Proof.
  destruct r; simpl; unfold admin_only, authenticated;
    try (destruct (authenticateToken E req) as [answer|user]; [done |]);
    try (destruct (requireAdmin user); [done |]); intros H200 H201; try done.
  - by rewrite login_same.
  - by apply signup_failed.
  - by apply add_user_failed.
  - by apply add_store_not_done.
  - by apply put_password_failed.
  - by apply post_ratings_failed.
Qed.

Lemma extends_refl db : extends db db.
Proof. done. Qed.

Lemma set_rating_key u s v (l : list RatingRow) :
  key_of <$> (set_rating u s v <$> l) = key_of <$> l.
Proof.
  rewrite <- list_fmap_compose. apply list_fmap_ext. intros _ r _. simpl.
  unfold set_rating. by destruct (same_pair u s r).
Qed.

End WithExternals.

(** Property X2.  No route removes or moves a row: after any request every
    user is still there with the id, name, email, address and role it had,
    every store is as it was, and every rating is there with its id, its
    user and its store. *)
Theorem rows_are_never_removed E r req db : extends db (serve E r req db).2.
Proof.
  apply (serve_keeps E (extends db)); [| | | | | apply extends_refl].
  - intros name email password address role db1 (Hu & Hs & Hr).
    destruct (insert_user name email password address role db1) as [[row|c] db2] eqn:Hi.
    + apply insert_user_ok in Hi as (_ & Hu2 & Hs2 & Hr2 & _). simpl.
      unfold extends. rewrite Hu2, Hs2, Hr2, fmap_app. split_and!; try done.
      by apply prefix_app_r.
    + apply insert_user_error in Hi as (Hu2 & Hs2 & Hr2). simpl.
      unfold extends. by rewrite Hu2, Hs2, Hr2.
  - intros name email address owner db1 (Hu & Hs & Hr).
    destruct (insert_store name email address owner db1) as [[row|c] db2] eqn:Hi.
    + apply insert_store_ok in Hi as (_ & Hu2 & Hs2 & Hr2 & _). simpl.
      unfold extends. rewrite Hu2, Hs2, Hr2. split_and!; try done.
      by apply prefix_app_r.
    + apply insert_store_error in Hi as (Hu2 & Hs2 & Hr2). simpl.
      unfold extends. by rewrite Hu2, Hs2, Hr2.
  - intros password id db1 (Hu & Hs & Hr).
    destruct (update_password password id db1) as [[[]|c] db2] eqn:Hup; simpl.
    + apply update_password_ok in Hup
        as [-> | (z & pw & _ & _ & Hu2 & Hs2 & Hr2 & _)]; [done |].
      unfold extends. rewrite Hu2, Hs2, Hr2. split_and!; try done.
      replace (identity_of <$> (set_password z pw <$> users db1))
        with (identity_of <$> users db1); [done |].
      rewrite <- list_fmap_compose. apply list_fmap_ext. intros _ u _.
      symmetry. apply set_password_identity.
    + by rewrite (update_password_failed _ _ _ _ _ Hup).
  - intros user_id store_id rating db1 (Hu & Hs & Hr).
    destruct (upsert_rating user_id store_id rating db1) as [[id|c] db2] eqn:Hup; simpl.
    + apply upsert_rating_ok in Hup as (rows & Hup & Hu2 & Hs2 & Hr2).
      unfold extends. rewrite Hu2, Hs2, Hr2. split_and!; try done.
      apply upsert_ok in Hup as (u & s & v & _ & _ & _ & _ & Hcase).
      destruct Hcase as [(old & rest & _ & _ & ->) | (_ & _ & _ & _ & ->)].
      * by rewrite set_rating_key.
      * rewrite fmap_app. by apply prefix_app_r.
    + apply upsert_rating_error in Hup as (Hu2 & Hs2 & Hr2).
      unfold extends. by rewrite Hu2, Hs2, Hr2.
  - intros db1 db2 (Hu & Hs & Hr) (Hu2 & Hs2 & Hr2) _.
    unfold extends. by rewrite Hu2, Hs2, Hr2.
Qed.

End EffectFacts.

(** ** The lists of users, stores and ratings *)

Module ListingFacts.
Import Js Pg Server Schema Listing ListFacts.

Lemma key_le_total {A} (key : A -> Z) : Total (key_le key).
Proof. intros a b. unfold key_le. lia. Qed.

Lemma key_le_trans {A} (key : A -> Z) : Transitive (key_le key).
Proof. intros a b c. unfold key_le. lia. Qed.

Lemma ascending_sorted {A} (key : A -> Z) (l : list A) :
  ascending key l ≡ₚ l /\ StronglySorted (key_le key) (ascending key l).
Proof.
  unfold ascending. split.
  - apply merge_sort_Permutation.
  - apply (@StronglySorted_merge_sort _ (key_le key) _ (key_le_trans key)
             (key_le_total key)).
Qed.

Lemma bind_singletons {A B} (f : A -> list B) (g : A -> B) (l : list A) :
  (forall x, x ∈ l -> f x = [g x]) -> l ≫= f = g <$> l.
Proof.
  induction l as [|a l IH]; intros H; [done |].
  rewrite bind_cons, fmap_cons, (H a) by left.
  rewrite IH; [done |]. intros x Hx. apply H. by right.
Qed.

(** A unique column selects at most one row. *)
Lemma unique_column {A K} `{!EqDecision K} (f : A -> K) (k : K) (l : list A) :
  NoDup (f <$> l) -> (length (filter (fun x => f x = k) l) <= 1)%nat.
Proof.
  induction l as [|a l IH]; [simpl; lia |].
  rewrite fmap_cons, NoDup_cons. intros [Ha Hl].
  rewrite filter_cons. destruct (decide (f a = k)) as [Hk|Hk]; [|by apply IH].
  assert (filter (fun x => f x = k) l = []) as ->; [|simpl; lia].
  apply filter_is_nil. intros x Hx Hfx. apply Ha.
  rewrite Hk, <- Hfx. by apply list_elem_of_fmap_2.
Qed.

Section WithExternals.
Context (E : Externals).

Lemma users_row_entry db u :
  NoDup (s_owner_id <$> stores db) -> users_row db u = [user_entry db u].
Proof.
  intros Hnd. unfold users_row, user_entry, owned_store.
  pose proof (unique_column s_owner_id (u_id u) (stores db) Hnd) as Hlen.
  unfold stores_by_owner in *.
  destruct (filter _ (stores db)) as [|s [|s' rest]]; [done | done |].
  simpl in Hlen. lia.
Qed.

(** Property X19.  While no two stores have the same owner, the list of users
    has one entry for each user, in ascending order of the ids, with the
    id of the store the user owns or [null]. *)
Theorem users_are_listed_once_in_order req db user :
  NoDup (s_owner_id <$> stores db) ->
  authenticateToken E req = inr user ->
  exists sorted,
    sorted ≡ₚ users db /\ StronglySorted (key_le u_id) sorted /\
    serve E GetUsers req db
    = ({| status := 200; body := JsonList (user_entry db <$> sorted) |}, db).
Proof.
  intros Hnd Hauth. exists (ascending u_id (users db)).
  destruct (ascending_sorted u_id (users db)) as [Hp Hs]. split_and!; try done.
  simpl. unfold authenticated. rewrite Hauth. unfold get_users.
  rewrite (bind_singletons _ (user_entry db)); [done |].
  intros u _. by apply users_row_entry.
Qed.

Lemma ratings_row_entry db r :
  NoDup (u_id <$> users db) -> r_user_id r ∈ u_id <$> users db ->
  exists u, u ∈ users db /\ u_id u = r_user_id r /\
    ratings_row db r = [rating_entry r (u_email u)].
Proof.
  intros Hnd Hin. unfold ratings_row.
  pose proof (unique_column u_id (r_user_id r) (users db) Hnd) as Hlen.
  apply list_elem_of_fmap in Hin as (u & Hu & Hin).
  assert (Hf : u ∈ filter (fun u => u_id u = r_user_id r) (users db))
    by (by apply list_elem_of_filter).
  destruct (filter _ (users db)) as [|u' [|u'' rest]]; simpl in Hlen.
  - by apply elem_of_nil in Hf.
  - apply list_elem_of_singleton in Hf as <-. by exists u.
  - lia.
Qed.

Lemma ratings_rows_entries db (l : list RatingRow) :
  NoDup (u_id <$> users db) ->
  (forall r, r ∈ l -> r_user_id r ∈ u_id <$> users db) ->
  Forall2 (fun r o => exists u, u ∈ users db /\ u_id u = r_user_id r /\
                                o = rating_entry r (u_email u))
          l (l ≫= ratings_row db).
Proof.
  intros Hnd. induction l as [|r l IH]; intros Hall; [constructor |].
  rewrite bind_cons.
  destruct (ratings_row_entry db r Hnd) as (u & Hu & Hid & ->); [apply Hall; left |].
  simpl. constructor.
  - by exists u.
  - apply IH. intros x Hx. apply Hall. by right.
Qed.

(** Property X20.  While the ids of the users are unique and every rating
    refers to a user, the list of ratings has one entry for each rating,
    in ascending order of the ids, with the email of its user. *)
Theorem ratings_are_listed_once_in_order req db user :
  NoDup (u_id <$> users db) -> ratings_refer db ->
  authenticateToken E req = inr user ->
  exists sorted entries,
    sorted ≡ₚ ratings db /\ StronglySorted (key_le r_id) sorted /\
    serve E GetRatings req db
    = ({| status := 200; body := JsonList entries |}, db) /\
    Forall2 (fun r o => exists u, u ∈ users db /\ u_id u = r_user_id r /\
                                  o = rating_entry r (u_email u))
            sorted entries.
Proof.
  intros Hnd Hrefer Hauth.
  destruct (ascending_sorted r_id (ratings db)) as [Hp Hs].
  exists (ascending r_id (ratings db)), (ascending r_id (ratings db) ≫= ratings_row db).
  split_and!; try done.
  { simpl. unfold authenticated. by rewrite Hauth. }
  apply ratings_rows_entries; [done |].
  intros r Hr. rewrite Hp in Hr. by destruct (Hrefer r Hr).
Qed.

End WithExternals.

End ListingFacts.

(** ** Sessions: the token of a login, the first login of a store owner *)

Module SessionFacts.
Import Js Regex Pg Server Schema Words ValueFacts ListFacts SchemaFacts TextFacts
  AccountFacts ProvisioningFacts PgFacts.

Section WithExternals.
Context (E : Externals).

(** What a login answered with 200 has found. *)
Lemma login_200 req db :
  status (login E req db).1 = 200 ->
  exists row rest user,
    users_by_email (pg_text E (field req "email")) db = row :: rest /\
    bcrypt_compare E (field req "password") (u_password row) = Some true /\
    (login E req db).1
    = {| status := 200;
         body := Json (<[ "token" := token_for E req (u_id row) (u_email row) (u_role row) ]>
                         user) |}.
Proof.
  unfold login. destruct (_ || _); [done |].
  destruct (select_by_email _ db) as [[|row rest]|c] eqn:Hu; [done | | done].
  apply select_by_email_ok in Hu as [Hu _].
  destruct (bcrypt_compare E _ _) as [[]|] eqn:Hc; [|done..].
  intros _. simpl. eauto 10.
Qed.

(** Property X12.  The token of a login answered with 200, sent back as
    [Bearer <token>], is accepted by [authenticateToken] with the id,
    email and role of a row of [users], the row of the email of the
    login, provided the token is one word and [jwt.verify] returns, at
    the time of the second request, the payload that [jwt.sign] signed
    for a user at the time of the login. *)
Theorem login_token_is_accepted req db req' o token :
  (login E req db).1 = {| status := 200; body := Json o |} ->
  o !! "token" = Some (JStr token) ->
  authorization req' = Some ("Bearer " +:+ token) ->
  one_word token -> token <> "" ->
  (forall row, row ∈ users db ->
     jwt_verify E (now req') (jwt_sign E (now req) (payload row))
     = Some (payload row)) ->
  exists row,
    row ∈ users db /\ pg_text E (field req "email") = Some (u_email row) /\
    authenticateToken E req' = inr (payload row).
Proof.
  intros Hlogin Htoken Hauth Hw Hne Hjwt.
  destruct (login_200 req db) as (row & rest & user & Hrow & _ & Hresp).
  { by rewrite Hlogin. }
  rewrite Hlogin in Hresp. injection Hresp as ->.
  rewrite lookup_insert_eq in Htoken. injection Htoken as Htoken.
  exists row.
  assert (Hin : row ∈ filter (fun u => u_email u
                = default "" (pg_text E (field req "email"))) (users db)).
  { unfold users_by_email in Hrow.
    destruct (pg_text E (field req "email")) as [e|]; [|done].
    simpl. rewrite Hrow. left. }
  apply list_elem_of_filter in Hin as [He Hin].
  split_and!; [done | |].
  - unfold users_by_email in Hrow.
    destruct (pg_text E (field req "email")) as [e|]; [|done]. by rewrite He.
  - unfold authenticateToken.
    rewrite (second_word req' "Bearer" token one_word_Bearer Hw Hne Hauth).
    rewrite <- Htoken. fold (payload row). by rewrite (Hjwt row Hin).
Qed.

(** What a creation of a store answered with 201 has done. *)
Lemma add_store_201 req db :
  status (add_store E req db).1 = 201 ->
  exists h owner db1 store db2,
    validate_email E (field req "email") = None /\
    bcrypt_hash E (salt req) (JStr "Store@123") = Some h /\
    insert_user (Some (ToString E (field req "name") +:+ " Owner"))
      (pg_text E (field req "email")) (Some h) (pg_text E (field req "address"))
      (Some "store_owner") db = (Ok owner, db1) /\
    insert_store (pg_text E (field req "name")) (pg_text E (field req "email"))
      (pg_text E (field req "address")) (Some (u_id owner)) db1 = (Ok store, db2) /\
    add_store E req db
    = ({| status := 201;
          body := Json {[ "message" := JStr "Store and Owner added successfully";
                          "storeId" := JInt (s_id store);
                          "ownerId" := JInt (u_id owner) ]} |}, db2).
Proof.
  unfold add_store.
  destruct (or_else _ _) eqn:Hv; [done |].
  apply or_else_None in Hv as [_ Hv]; [|apply validate_name_message].
  apply or_else_None in Hv as [Hve _]; [|apply validate_email_message].
  destruct (bcrypt_hash E _ _) as [h|] eqn:Hh; [|done].
  destruct (insert_user _ _ _ _ _ db) as [[owner|c] db1] eqn:Hu.
  2:{ intros H. by apply add_store_failed_status in H. }
  destruct (insert_store _ _ _ _ db1) as [[store|c] db2] eqn:Hs.
  2:{ intros H. by apply add_store_failed_status in H. }
  intros _. by exists h, owner, db1, store, db2.
Qed.

(** Property X13.  After a store has been created with 201, a login with the
    email of the store and the default password [Store@123] is answered
    with 200, the role [store_owner] and the id of the new store,
    provided [bcrypt.compare] accepts the default password against the
    hash that [bcrypt.hash] made of it, and the hash fits the column. *)
Theorem new_owner_can_log_in req req' db email :
  status (add_store E req db).1 = 201 ->
  field req "email" = JStr email ->
  field req' "email" = JStr email ->
  field req' "password" = JStr "Store@123" ->
  (forall h, bcrypt_hash E (salt req) (JStr "Store@123") = Some h ->
             (String.length h <= 255)%nat /\
             bcrypt_compare E (JStr "Store@123") h = Some true) ->
  exists owner store,
    users (add_store E req db).2 = users db ++ [owner] /\
    stores (add_store E req db).2 = stores db ++ [store] /\
    s_owner_id store = u_id owner /\
    (login E req' (add_store E req db).2).1
    = {| status := 200;
         body := Json (<[ "token" := token_for E req' (u_id owner) email "store_owner" ]>
                         (<[ "storeId" := JInt (s_id store) ]>
                            (delete "password" (login_row owner)))) |}.
Proof.
  intros H201 Hemail Hemail' Hpw' Hbcrypt.
  apply add_store_201 in H201 as (h & owner & db1 & store & db2 & Hve & Hh & Hu & Hs & ->).
  destruct (Hbcrypt h Hh) as [Hlen Hcmp].
  pose proof (insert_user_read _ _ _ _ _ _ _ _ Hu) as Hread.
  rewrite Hemail in Hread.
  apply insert_user_ok in Hu as (Hnew & Hu & Hs1 & _).
  apply new_user_ok in Hnew
    as (_ & _ & He & Hpw & Hrole & _ & _ & _ & _ & _ & Hfresh).
  apply insert_store_ok in Hs as (Hnews & Hu2 & Hs2 & _).
  apply new_store_ok in Hnews as (_ & _ & _ & Hown & _ & _ & _ & _ & _ & Hownfresh & _).
  injection Hown as Hown.
  assert (u_role owner = "store_owner") as Hrow.
  { vm_compute in Hrole. by injection Hrole. }
  assert (u_email owner = email) as Hrowe.
  { apply (stored_email _ _ _ Hve) in He. by rewrite Hemail in He. }
  assert (u_password owner = h) as Hrowp.
  { rewrite varchar_fits in Hpw by done. by injection Hpw. }
  exists owner, store. simpl. rewrite Hu2, Hu, Hs2, Hs1. split_and!; try done.
  unfold login. rewrite Hemail', Hpw'.
  assert (truthy (JStr email) = true) as ->.
  { unfold validate_email in Hve. rewrite Hemail in Hve. simpl in Hve.
    destruct email; [done | done]. }
  assert (truthy (JStr "Store@123") = true) as -> by done.
  simpl negb. simpl orb. cbv iota.
  rewrite select_by_email_read by done.
  assert (users_by_email (pg_text E (JStr email)) db2 = [owner]) as ->.
  { simpl. unfold users_by_email. rewrite Hu2, Hu, filter_app.
    assert (filter (fun u => u_email u = email) (users db) = []) as ->.
    { apply filter_is_nil. intros u Hin Hue. apply Hfresh.
      rewrite Hrowe, <- Hue. by apply list_elem_of_fmap_2. }
    simpl. by rewrite (filter_singleton_True _ _ []). }
  rewrite Hrowp, Hcmp. simpl negb. cbv iota.
  rewrite Hrow. simpl String.eqb. cbv iota.
  assert (stores_by_owner (u_id owner) db2 = [store]) as ->.
  { unfold stores_by_owner. rewrite Hs2, Hs1, filter_app.
    assert (filter (fun s => s_owner_id s = u_id owner) (stores db) = []) as ->.
    { apply filter_is_nil. intros s Hin Hso. apply Hownfresh.
      rewrite Hs1, <- Hown, <- Hso. by apply list_elem_of_fmap_2. }
    simpl. by rewrite (filter_singleton_True _ _ []). }
  by rewrite Hrowe.
Qed.

(** Property X16.  After a password update answered with 200 for the
    id of a user, while emails are unique and are texts without the code
    unit 0, a login with the email of this user is decided by
    [bcrypt.compare] against the hash of the new password: it is answered
    with 200 when the password matches it and with 401 when it does not,
    provided the hash fits the column. *)
Theorem login_after_password_update user req req' db row z h :
  NoDup (u_email <$> users db) ->
  row ∈ users db -> u_id row = z -> has_nul (u_email row) = false ->
  pg_int4in E (params_userId req) = Some z ->
  status (put_password E user req db).1 = 200 ->
  bcrypt_hash E (salt req) (field req "newPassword") = Some h ->
  (String.length h <= 255)%nat ->
  field req' "email" = JStr (u_email row) -> u_email row <> "" ->
  truthy (field req' "password") = true ->
  (bcrypt_compare E (field req' "password") h = Some true ->
   status (login E req' (put_password E user req db).2).1 = 200) /\
  (bcrypt_compare E (field req' "password") h = Some false ->
   (login E req' (put_password E user req db).2).1
   = message 401 "Invalid credentials").
Proof.
  intros Hnd Hrow Hid Hread Hz H200 Hh Hlen Hemail Hne Hpw.
  assert (Hdb : users (put_password E user req db).2 = set_password z h <$> users db).
  { revert H200. unfold put_password. destruct (_ && _); [done |].
    destruct (validate_password E _); [done |]. rewrite Hh.
    unfold pg_int. rewrite Hz. unfold update_password. cbn [text_param].
    destruct (has_nul h); [done |]. cbn [mbind result_bind].
    rewrite ProvisioningFacts.varchar_fits by done.
    rewrite bool_decide_true by (rewrite <- Hid; by apply list_elem_of_fmap_2).
    done. }
  assert (Hfind : users_by_email (Some (u_email row)) (put_password E user req db).2
                  = [set_password z h row]).
  { unfold users_by_email. rewrite Hdb.
    pose proof (ListingFacts.unique_column u_email (u_email row) (users db) Hnd) as Hlen1.
    assert (Hin : row ∈ filter (fun u => u_email u = u_email row) (users db))
      by (by apply list_elem_of_filter).
    assert (Hone : filter (fun u => u_email u = u_email row) (users db) = [row]).
    { destruct (filter _ (users db)) as [|u [|u' rest]]; simpl in Hlen1.
      - by apply elem_of_nil in Hin.
      - by apply list_elem_of_singleton in Hin as <-.
      - lia. }
    clear Hin Hlen1. revert Hone. generalize (users db) as l.
    induction l as [|u l IH]; [done |].
    rewrite fmap_cons, !filter_cons.
    assert (Hsame : u_email (set_password z h u) = u_email u).
    { unfold set_password. by destruct (_ =? _). }
    rewrite Hsame. destruct (decide (u_email u = u_email row)).
    + intros [= -> Hrest]. f_equal.
      assert (Hnil : forall l' : list UserRow,
                filter (fun u => u_email u = u_email row) l' = [] ->
                filter (fun u => u_email u = u_email row) (set_password z h <$> l') = []).
      { intros l' Hl'. apply filter_is_nil. intros x (x0 & -> & Hx0)%list_elem_of_fmap.
        assert (u_email (set_password z h x0) = u_email x0) as ->.
        { unfold set_password. by destruct (_ =? _). }
        by apply (proj1 (filter_is_nil _ l') Hl'). }
      by apply Hnil.
    + apply IH. }
  assert (Hset : u_password (set_password z h row) = h /\
                 u_role (set_password z h row) = u_role row /\
                 u_id (set_password z h row) = u_id row).
  { unfold set_password. rewrite Hid, Z.eqb_refl. done. }
  destruct Hset as (Hp & Hr & Hi).
  assert (Htr : truthy (JStr (u_email row)) = true).
  { simpl. by destruct (String.eqb_spec (u_email row) ""). }
  split; intros Hcmp; unfold login; rewrite Hemail, Htr, Hpw; cbn [negb orb];
    cbn [pg_text ToString]; rewrite select_by_email_clean by done;
    rewrite Hfind, Hp, Hcmp; cbn [negb]; done.
Qed.

End WithExternals.

End SessionFacts.

(** ** The API layer of the front end *)

Module FrontendFacts.
Import Js Regex Pg Server Schema Words ValueFacts ListFacts SchemaFacts TextFacts
  AccountFacts EffectFacts SessionFacts.
Import Answers.

Lemma json_lookup_string o k s : o !! k = Some (JStr s) -> Frontend.json o !! k = Some (JStr s).
Proof. intros H. unfold Frontend.json. by rewrite lookup_omap, H. Qed.

Lemma json_message code msg :
  Frontend.parsed (body (message code msg)) = Some (Json {[ "message" := JStr msg ]}).
Proof. simpl. unfold Frontend.json. by rewrite omap_singleton_Some with (y := JStr msg). Qed.

(** An object of strings is sent as it is. *)
Lemma json_strings (o : gmap string JsValue) :
  (forall k v, o !! k = Some v -> exists s, v = JStr s) -> Frontend.json o = o.
Proof.
  intros Ho. apply map_eq. intros k. unfold Frontend.json. rewrite lookup_omap.
  destruct (o !! k) as [v|] eqn:Hk; [|done].
  by destruct (Ho k v Hk) as [s ->].
Qed.

Section WithExternals.
Context (E : Externals).

(** Property X22.  A token that has been stored is what [Frontend.getAuthToken]
    returns, at once and after the page has been Frontend.loaded again; after
    [Frontend.logout] it returns [null], at once and after a reload. *)
Theorem token_survives_reload b t :
  t <> "" ->
  (Frontend.getAuthToken (Frontend.setAuthToken E (JStr t) b)).1 = JStr t /\
  (Frontend.getAuthToken (Frontend.loaded (Frontend.localStorage (Frontend.setAuthToken E (JStr t) b)))).1 = JStr t /\
  (Frontend.getAuthToken (Frontend.logout E b)).1 = JNull /\
  (Frontend.getAuthToken (Frontend.loaded (Frontend.localStorage (Frontend.logout E b)))).1 = JNull.
Proof.
  intros Ht.
  assert (Htr : truthy (JStr t) = true).
  { simpl. by destruct (String.eqb_spec t ""). }
  unfold Frontend.logout, Frontend.getAuthToken, Frontend.loaded, Frontend.setAuthToken.
  cbn [Frontend.authToken Frontend.localStorage]. rewrite Htr.
  cbn [truthy negb fst]. rewrite lookup_insert_eq, lookup_delete_eq. done.
Qed.

Lemma or_else_Some a b m :
  or_else a b = Some m -> (a = Some m /\ m <> "") \/ b = Some m.
Proof.
  unfold or_else. destruct a as [m'|]; [|by right].
  destruct (String.eqb_spec m' "") as [->|Hne]; [by right |].
  intros [= <-]. by left.
Qed.

Lemma four_checks_Some name email address password m :
  or_else (validate_name E name)
    (or_else (validate_email E email)
       (or_else (validate_address E address) (validate_password E password))) = Some m ->
  m <> "".
Proof.
  intros [[_ ?]|H]%or_else_Some; [done |].
  apply or_else_Some in H as [[_ ?]|H]; [done |].
  apply or_else_Some in H as [[_ ?]|H]; [done |].
  intros ->. by apply (validate_password_message E password).
Qed.

Lemma three_checks_Some name email address m :
  or_else (validate_name E name)
    (or_else (validate_email E email) (validate_address E address)) = Some m ->
  m <> "".
Proof.
  intros [[_ ?]|H]%or_else_Some; [done |].
  apply or_else_Some in H as [[_ ?]|H]; [done |].
  intros ->. by apply (validate_address_message E address).
Qed.

Lemma failure_message code msg :
  msg <> "" -> code = 400 \/ code = 401 \/ code = 403 \/ code = 500 ->
  failure (message code msg).
Proof. intros. by exists code, msg. Qed.

Lemma success_object code o :
  code = 200 \/ code = 201 -> success {| status := code; body := Json o |}.
Proof. intros. split; [done |]. by eexists. Qed.

Lemma success_list code l :
  code = 200 \/ code = 201 -> success {| status := code; body := JsonList l |}.
Proof. intros. split; [done |]. by eexists. Qed.

Ltac answer :=
  cbn [fst];
  first [ right; apply failure_message; [done | tauto]
        | left; apply success_object; tauto
        | left; apply success_list; tauto ].

Lemma login_answer req db : success (login E req db).1 \/ failure (login E req db).1.
Proof. unfold login. repeat case_match; answer. Qed.

Lemma signup_answer req db : success (signup E req db).1 \/ failure (signup E req db).1.
Proof.
  unfold signup. destruct (or_else _ _) as [m|] eqn:Hm.
  { apply four_checks_Some in Hm. right. apply failure_message; auto. }
  repeat case_match; answer.
Qed.

Lemma add_user_answer req db :
  success (add_user E req db).1 \/ failure (add_user E req db).1.
Proof.
  unfold add_user. destruct (or_else _ _) as [m|] eqn:Hm.
  { apply four_checks_Some in Hm. right. apply failure_message; auto. }
  repeat case_match; answer.
Qed.

Lemma add_store_answer req db :
  success (add_store E req db).1 \/ failure (add_store E req db).1.
Proof.
  unfold add_store, add_store_failed. destruct (or_else _ _) as [m|] eqn:Hm.
  { apply three_checks_Some in Hm. right. apply failure_message; auto. }
  repeat case_match; answer.
Qed.

Lemma put_password_answer user req db :
  success (put_password E user req db).1 \/ failure (put_password E user req db).1.
Proof.
  unfold put_password. destruct (_ && _); [answer |].
  destruct (validate_password E _) as [m|] eqn:Hm.
  { right. apply failure_message; [|auto]. intros ->.
    by apply (validate_password_message E (field req "newPassword")). }
  repeat case_match; answer.
Qed.

Lemma post_ratings_answer user req db :
  success (post_ratings E user req db).1 \/ failure (post_ratings E user req db).1.
Proof.
  unfold post_ratings. destruct (negb (strict_eq _ _)); [answer |].
  destruct (validate_rating E _) as [m|] eqn:Hm.
  { right. apply failure_message; [|auto]. intros ->.
    by apply (validate_rating_message E (field req "rating")). }
  repeat case_match; answer.
Qed.

(** Every answer of a route of the API is a success or a failure. *)
Lemma serve_answer r req db :
  r <> GetRoot -> success (serve E r req db).1 \/ failure (serve E r req db).1.
Proof.
  intros Hr.
  assert (Hauth : forall answer, authenticateToken E req = inl answer -> failure answer).
  { unfold authenticateToken. intros answer. repeat case_match; intros [= <-];
      apply failure_message; auto. }
  destruct r; [done | | | | | | | | |]; simpl; unfold admin_only, authenticated;
    try (destruct (authenticateToken E req) as [answer|user] eqn:Ha;
         [right; by apply Hauth |]);
    try (unfold requireAdmin; destruct (negb _); [answer |]).
  - apply login_answer.
  - apply signup_answer.
  - answer.
  - answer.
  - answer.
  - apply add_user_answer.
  - apply add_store_answer.
  - apply put_password_answer.
  - apply post_ratings_answer.
Qed.

Lemma getAuthToken_stored t b :
  t <> "" ->
  Frontend.getAuthToken (Frontend.setAuthToken E (JStr t) b)
  = (JStr t, Frontend.setAuthToken E (JStr t) b).
Proof.
  intros Ht. unfold Frontend.getAuthToken.
  assert (truthy (Frontend.authToken (Frontend.setAuthToken E (JStr t) b)) = true)
    as ->; [|done].
  simpl. by destruct (String.eqb_spec t "").
Qed.

Lemma apiCall_returns fetch b db token b1 response db1 data :
  Frontend.getAuthToken b = (token, b1) ->
  fetch (Frontend.bearer E token) db = (response, db1) ->
  Frontend.parsed (body response) = Some data ->
  Frontend.ok response = true ->
  Frontend.apiCall E fetch b db = (Frontend.Returned data, b1, db1).
Proof.
  intros Hget Hfetch Hdata Hok. unfold Frontend.apiCall.
  by rewrite Hget, Hfetch, Hdata, Hok.
Qed.

(** The two ways a call to the API ends. *)
Lemma apiCall_outcome r body userId w b db :
  r <> GetRoot ->
  let header := Frontend.bearer E (Frontend.getAuthToken b).1 in
  let answer := (Frontend.request E r body userId w header db).1 in
  (exists data,
     (status answer = 200 \/ status answer = 201) /\
     Frontend.parsed (Server.body answer) = Some data /\
     (Frontend.apiCall E (Frontend.request E r body userId w) b db).1.1
     = Frontend.Returned data) \/
  (exists code msg,
     answer = message code msg /\ msg <> "" /\
     (code = 400 \/ code = 401 \/ code = 403 \/ code = 500) /\
     (Frontend.apiCall E (Frontend.request E r body userId w) b db).1.1
     = Frontend.Thrown msg).
Proof.
  intros Hr. cbv zeta. unfold Frontend.apiCall.
  destruct (Frontend.getAuthToken b) as [token b1]. cbn [fst].
  unfold Frontend.request at 1 3 5.
  set (req := {| authorization := Frontend.bearer E token;
                 req_body := Frontend.json body; params_userId := userId;
                 now := Frontend.clock w; salt := Frontend.drawn w |}).
  unfold Frontend.request. fold req.
  pose proof (serve_answer r req db Hr) as Hshape.
  destruct (serve E r req db) as [response db1]. cbn [fst] in *.
  destruct Hshape as [[Hst (data & Hdata)] | (code & msg & -> & Hmsg & Hcode)].
  - left. exists data. rewrite Hdata. split_and!; try done.
    unfold Frontend.ok. by destruct Hst as [-> | ->].
  - right. exists code, msg. split_and!; try done.
    rewrite json_message.
    assert (Frontend.ok (message code msg) = false) as ->.
    { unfold Frontend.ok. simpl. by destruct Hcode as [-> | [-> | [-> | ->]]]. }
    cbn [negb fst]. unfold Frontend.property.
    rewrite lookup_singleton_eq. cbn [default id truthy].
    by destruct (String.eqb_spec msg "") as [->|_].
Qed.

(** Property X23.  For every route of the API, [apiCall] returns the parsed
    body when the server answers 200 or 201, and otherwise throws an
    error whose message is the text of the server's [{ message }]: the
    fallback text is never used and [response.json()] never rejects. *)
Theorem a_failed_call_throws_the_message_of_the_server r body userId w b db :
  r <> GetRoot ->
  let header := Frontend.bearer E (Frontend.getAuthToken b).1 in
  let answer := (Frontend.request E r body userId w header db).1 in
  (exists data,
     (status answer = 200 \/ status answer = 201) /\
     Frontend.parsed (Server.body answer) = Some data /\
     (Frontend.apiCall E (Frontend.request E r body userId w) b db).1.1
     = Frontend.Returned data) \/
  (exists code msg,
     answer = message code msg /\ msg <> "" /\
     (code = 400 \/ code = 401 \/ code = 403 \/ code = 500) /\
     (Frontend.apiCall E (Frontend.request E r body userId w) b db).1.1
     = Frontend.Thrown msg).
Proof. apply apiCall_outcome. Qed.

(** Property X25.  After [API.logout], a call to a protected route throws
    [Access token required] and changes nothing, whatever token was stored
    before. *)
Theorem logout_closes_the_session r body userId w b db :
  protected r = true ->
  Frontend.apiCall E (Frontend.request E r body userId w) (Frontend.logout E b) db
  = (Frontend.Thrown "Access token required", Frontend.logout E b, db).
Proof.
  intros Hr. unfold Frontend.apiCall, Frontend.getAuthToken, Frontend.logout,
    Frontend.setAuthToken.
  cbn [Frontend.authToken Frontend.localStorage truthy negb].
  rewrite lookup_delete_eq. cbn [js_text]. unfold Frontend.bearer. cbn [truthy].
  unfold Frontend.request.
  set (req := {| authorization := None; req_body := Frontend.json body;
                 params_userId := userId; now := Frontend.clock w;
                 salt := Frontend.drawn w |}).
  assert (serve E r req db = (message 401 "Access token required", db)) as ->.
  { assert (Ha : authenticateToken E req = inl (message 401 "Access token required"))
      by done.
    destruct r; try discriminate; simpl; unfold admin_only, authenticated;
      by rewrite Ha. }
  rewrite json_message. reflexivity.
Qed.

Lemma login_status req db :
  status (login E req db).1 = 200 \/ status (login E req db).1 = 400 \/
  status (login E req db).1 = 401 \/ status (login E req db).1 = 500.
Proof. unfold login. repeat case_match; simpl; tauto. Qed.

(** Property X24.  When [API.login] returns, the token of the answer is
    stored, and the next [API.getUsers] returns the list of users instead
    of throwing, provided the token of a user is a non-empty word and
    [jwt.verify] returns the payload that [jwt.sign] signed for it; the
    login has changed nothing in the database. *)
Theorem login_opens_a_session email password w w' b db data b' db' :
  Frontend.login E email password w b db = (Frontend.Returned data, b', db') ->
  (forall row, row ∈ users db ->
     jwt_sign E (Frontend.clock w) (payload row) <> "" /\
     one_word (jwt_sign E (Frontend.clock w) (payload row)) /\
     jwt_verify E (Frontend.clock w') (jwt_sign E (Frontend.clock w) (payload row))
     = Some (payload row)) ->
  db' = db /\
  Frontend.getUsers E w' b' db
  = (Frontend.Returned
       (JsonList (Frontend.json <$> (ascending u_id (users db) ≫= users_row db))),
     b', db).
Proof.
  intros Hlogin Hjwt. unfold Frontend.login, Frontend.apiCall in Hlogin.
  destruct (Frontend.getAuthToken b) as [token0 b1].
  unfold Frontend.request in Hlogin. simpl serve in Hlogin.
  set (req := {| authorization := Frontend.bearer E token0;
                 req_body := Frontend.json {[ "email" := email; "password" := password ]};
                 params_userId := ""; now := Frontend.clock w;
                 salt := Frontend.drawn w |}) in Hlogin.
  pose proof (login_same E req db) as Hdb.
  pose proof (login_status req db) as Hst.
  pose proof (login_200 E req db) as H200.
  destruct (login E req db) as [response db1]. cbn [fst snd] in *. subst db1.
  destruct (Frontend.parsed (body response)) as [data0|] eqn:Hdata; [|done].
  destruct (Frontend.ok response) eqn:Hok.
  2:{ cbn [negb] in Hlogin. done. }
  assert (status response = 200) as Hs.
  { unfold Frontend.ok in Hok. destruct Hst as [H|[H|[H|H]]]; rewrite H in Hok; done. }
  destruct (H200 Hs) as (row & rest & user & Hrow & _ & ->).
  assert (Hin : row ∈ users db).
  { assert (H : row ∈ users_by_email (pg_text E (field req "email")) db)
      by (rewrite Hrow; left).
    unfold users_by_email in H. destruct (pg_text E _); [|by apply elem_of_nil in H].
    by apply list_elem_of_filter in H as [_ ?]. }
  clear Hst H200 Hs Hok Hrow.
  cbn [negb] in Hlogin. simpl in Hdata. injection Hdata as <-.
  unfold Frontend.store_token, token_for in Hlogin.
  change (now req) with (Frontend.clock w) in Hlogin.
  destruct (Hjwt row Hin) as (Hne & Hw & Hv).
  fold (payload row) in Hlogin.
  set (t := jwt_sign E (Frontend.clock w) (payload row)) in *.
  assert (Htok : Frontend.property
                   (Json (Frontend.json (<[ "token" := JStr t ]> user))) "token"
                 = JStr t).
  { unfold Frontend.property. erewrite json_lookup_string; [done |].
    by rewrite lookup_insert_eq. }
  rewrite Htok in Hlogin.
  assert (Htr : truthy (JStr t) = true).
  { simpl. by destruct (String.eqb_spec t ""). }
  rewrite Htr in Hlogin. injection Hlogin as _ <- <-. split; [done |].
  clear Htok Hjwt.
  unfold Frontend.getUsers.
  apply (apiCall_returns _ _ _ (JStr t) _
           {| status := 200;
              body := JsonList (ascending u_id (users db) ≫= users_row db) |});
    [by apply getAuthToken_stored | | done | done].
  unfold Frontend.request, Frontend.bearer. rewrite Htr. cbn [ToString].
  set (req' := {| authorization := Some ("Bearer " +:+ t);
                  req_body := Frontend.json ∅; params_userId := "";
                  now := Frontend.clock w'; salt := Frontend.drawn w' |}).
  assert (Ha : authenticateToken E req' = inr (payload row)).
  { unfold authenticateToken.
    rewrite (second_word req' "Bearer" t one_word_Bearer Hw Hne eq_refl).
    cbn [now req']. by rewrite Hv. }
  simpl serve. unfold authenticated. by rewrite Ha.
Qed.

Lemma apiCall_throws fetch b db token b1 code msg db1 :
  Frontend.getAuthToken b = (token, b1) ->
  fetch (Frontend.bearer E token) db = (message code msg, db1) ->
  msg <> "" -> code = 400 \/ code = 401 \/ code = 403 \/ code = 500 ->
  Frontend.apiCall E fetch b db = (Frontend.Thrown msg, b1, db1).
Proof.
  intros Hget Hfetch Hmsg Hcode. unfold Frontend.apiCall.
  rewrite Hget, Hfetch, json_message.
  assert (Frontend.ok (message code msg) = false) as ->.
  { unfold Frontend.ok. simpl. by destruct Hcode as [-> | [-> | [-> | ->]]]. }
  cbn [negb]. unfold Frontend.property.
  rewrite lookup_singleton_eq. cbn [default id truthy].
  by destruct (String.eqb_spec msg "") as [->|_].
Qed.

Lemma note_empty k e errors :
  Frontend.note k e errors = ∅ -> errors = ∅ /\ (e = None \/ e = Some "").
Proof.
  unfold Frontend.note. destruct e as [m|]; [|auto].
  destruct (String.eqb_spec m "") as [->|Hm]; cbn [negb]; [auto |].
  intros H. by apply insert_non_empty in H.
Qed.

(** A form in which [validateForm] finds nothing passes the checks of
    the server on the same fields. *)
Lemma validateForm_empty data isStore :
  Frontend.validateForm E data isStore = ∅ ->
  validate_name E (default JUndefined (data !! "name")) = None /\
  validate_email E (default JUndefined (data !! "email")) = None /\
  validate_address E (default JUndefined (data !! "address")) = None /\
  (isStore = false ->
   validate_password E (default JUndefined (data !! "password")) = None).
Proof.
  unfold Frontend.validateForm. cbv zeta. intros H.
  assert (Hrest : Frontend.note "address"
            (Frontend.validate_address E (default JUndefined (data !! "address")))
            (Frontend.note "email"
               (Frontend.validate_email E (default JUndefined (data !! "email")))
               (Frontend.note "name"
                  (Frontend.validate_name E (default JUndefined (data !! "name"))) ∅))
            = ∅ /\
          (isStore = false ->
           Frontend.validate_password E (default JUndefined (data !! "password"))
           = None)).
  { destruct isStore; cbn [negb andb] in H; [split; [done | discriminate] |].
    destruct (negb (truthy _)).
    { by apply insert_non_empty in H. }
    apply note_empty in H as [H [Hp|Hp]]; split; try done.
    intros _. by apply (validate_password_message E) in Hp. }
  destruct Hrest as [Hrest Hpw].
  apply note_empty in Hrest as [Hrest Ha].
  apply note_empty in Hrest as [Hrest He].
  apply note_empty in Hrest as [_ Hn].
  split_and!; [| | | done].
  - destruct Hn as [?|Hn]; [done |]. by apply (validate_name_message E) in Hn.
  - destruct He as [?|He]; [done |]. by apply (validate_email_message E) in He.
  - destruct Ha as [?|Ha]; [done |]. by apply (validate_address_message E) in Ha.
Qed.

Lemma field_json_strings req data k :
  (forall k v, data !! k = Some v -> exists s, v = JStr s) ->
  req_body req = Frontend.json data ->
  field req k = default JUndefined (data !! k).
Proof. intros Hs Hb. unfold field. by rewrite Hb, json_strings. Qed.

(** The answers of the two creation routes to a body whose fields pass
    the checks. *)
Lemma add_user_checked req db :
  validate_name E (field req "name") = None ->
  validate_email E (field req "email") = None ->
  validate_address E (field req "address") = None ->
  validate_password E (field req "password") = None ->
  status (add_user E req db).1 = 201 \/
  (add_user E req db).1 = message 400 "Invalid role. Must be admin or user." \/
  (add_user E req db).1 = message 400 "Email already exists" \/
  (add_user E req db).1 = message 500 "Server error adding user.".
Proof.
  intros Hn He Ha Hp. unfold add_user. rewrite Hn, He, Ha, Hp. cbn [or_else].
  repeat case_match; cbn [fst]; tauto.
Qed.

Lemma add_store_checked req db :
  validate_name E (field req "name") = None ->
  validate_email E (field req "email") = None ->
  validate_address E (field req "address") = None ->
  status (add_store E req db).1 = 201 \/
  (add_store E req db).1 = message 400 "Email already exists for a user/owner." \/
  (add_store E req db).1 = message 500 "Server error adding store/owner.".
Proof.
  intros Hn He Ha. unfold add_store, add_store_failed. rewrite Hn, He, Ha.
  cbn [or_else]. repeat case_match; cbn [fst]; tauto.
Qed.

Lemma message_inj code msg code' msg' :
  message code msg = message code' msg' -> code = code' /\ msg = msg'.
Proof.
  intros H. split; [by apply (f_equal status) in H |].
  apply (f_equal (fun r => match body r with
                           | Json o => o !! "message"
                           | _ => None
                           end)) in H.
  unfold message in H. cbn [body] in H.
  rewrite !lookup_singleton_eq in H. by injection H.
Qed.

Lemma admin_only_answer h req db :
  (admin_only E h req db).1 = message 401 "Access token required" \/
  (admin_only E h req db).1 = message 403 "Invalid or expired token" \/
  (admin_only E h req db).1 = message 403 "Admin access required" \/
  (admin_only E h req db).1 = (h req db).1.
Proof.
  unfold admin_only, authenticated, authenticateToken, requireAdmin.
  repeat case_match; simplify_eq; cbn [fst]; tauto.
Qed.

(** Property X26.  A form of strings in which [validateForm] finds nothing is
    sent, and the call then returns or throws one of the messages that do
    not come from the checks of the fields: the three of the middlewares,
    the one on the role, the one on an email that exists, and the one of a
    failed statement.  The same holds for the form of a store. *)
Theorem a_form_that_passes_is_not_rejected_for_its_fields formData w b db :
  map_Forall (fun _ v => exists s, v = JStr s) formData ->
  (Frontend.validateForm E formData false = ∅ ->
   exists result,
     Frontend.handleAddUser E formData w b db = Some result /\
     ((exists data, result.1.1 = Frontend.Returned data) \/
      exists m, result.1.1 = Frontend.Thrown m /\
        m ∈ ["Access token required"; "Invalid or expired token";
             "Admin access required"; "Invalid role. Must be admin or user.";
             "Email already exists"; "Server error adding user."])) /\
  (Frontend.validateForm E
     (<[ "role" := JStr "store_owner" ]> (<[ "password" := JStr "Store@123" ]> formData))
     true = ∅ ->
   exists result,
     Frontend.handleAddStore E formData w b db = Some result /\
     ((exists data, result.1.1 = Frontend.Returned data) \/
      exists m, result.1.1 = Frontend.Thrown m /\
        m ∈ ["Access token required"; "Invalid or expired token";
             "Admin access required"; "Email already exists for a user/owner.";
             "Server error adding store/owner."])).
Proof.
  intros Hstrings.
  assert (Hstrings' : map_Forall (fun _ v => exists s, v = JStr s)
                        (<[ "password" := JStr "Store@123" ]> formData)).
  { apply map_Forall_insert_2; [by eexists | done]. }
  split.
  - intros Hform. unfold Frontend.handleAddUser. cbv zeta.
    rewrite Hform, map_size_empty. cbn [Nat.ltb Nat.leb].
    eexists. split; [done |].
    apply validateForm_empty in Hform as (Hn & He & Ha & Hp).
    specialize (Hp eq_refl). unfold Frontend.addUser.
    destruct (apiCall_outcome PostAdminUsers formData "" w b db)
      as [(data & _ & _ & ->) | (code & msg & Hanswer & _ & Hcode & ->)];
      [by eauto | by eauto |].
    right. exists msg. split; [done |].
    revert Hanswer. unfold Frontend.request. cbn [serve].
    set (req := {| authorization := _ |}).
    assert (Hfield : forall k, field req k = default JUndefined (formData !! k)).
    { intros k. by apply field_json_strings. }
    destruct (admin_only_answer (add_user E) req db) as [-> | [-> | [-> | ->]]];
      try (intros [_ <-]%message_inj; apply (bool_decide_unpack _); by vm_compute).
    destruct (add_user_checked req db) as [H | [-> | [-> | ->]]];
      rewrite ?Hfield; try done;
      try (intros [_ <-]%message_inj; apply (bool_decide_unpack _); by vm_compute).
    intros Hm. rewrite Hm in H. cbn in H. lia.
  - intros Hform. unfold Frontend.handleAddStore. cbv zeta.
    rewrite Hform, map_size_empty. cbn [Nat.ltb Nat.leb].
    eexists. split; [done |].
    apply validateForm_empty in Hform as (Hn & He & Ha & _).
    rewrite !lookup_insert_ne in Hn, He, Ha by done.
    unfold Frontend.addStore.
    destruct (apiCall_outcome PostAdminStores
                (<[ "password" := JStr "Store@123" ]> formData) "" w b db)
      as [(data & _ & _ & ->) | (code & msg & Hanswer & _ & Hcode & ->)];
      [by eauto | by eauto |].
    right. exists msg. split; [done |].
    revert Hanswer. unfold Frontend.request. cbn [serve].
    set (req := {| authorization := _ |}).
    assert (Hfield : forall k, k <> "password" ->
                               field req k = default JUndefined (formData !! k)).
    { intros k Hk.
      rewrite (field_json_strings req (<[ "password" := JStr "Store@123" ]> formData))
        by done.
      by rewrite lookup_insert_ne. }
    destruct (admin_only_answer (add_store E) req db) as [-> | [-> | [-> | ->]]];
      try (intros [_ <-]%message_inj; apply (bool_decide_unpack _); by vm_compute).
    destruct (add_store_checked req db) as [H | [-> | ->]];
      rewrite ?Hfield by done; try done;
      try (intros [_ <-]%message_inj; apply (bool_decide_unpack _); by vm_compute).
    intros Hm. rewrite Hm in H. cbn in H. lia.
Qed.

End WithExternals.

End FrontendFacts.

(** ** The seed script *)

Module SeedFacts.
Import Js Pg Server Schema ListFacts SchemaFacts AccountFacts PgFacts.

(** The plain [INSERT INTO ratings] leaves the state as it was on a
    sequence that has run out, and spends one value otherwise. *)
Lemma insert_rating_outcome user_id store_id rating db :
  match Seed.insert_rating user_id store_id rating db with
  | (Ok row, db') =>
      Seed.new_rating (ratings_id_seq db) user_id store_id rating db = Ok row /\
      ratings_id_seq db <= serial_max /\
      db' = with_ratings db (ratings db ++ [row])
  | (Error _, db') => db' = db \/ db' = with_ratings db (ratings db)
  end.
Proof.
  unfold Seed.insert_rating.
  destruct (nextval _) as [id|c] eqn:Hid; [|by left].
  apply nextval_ok in Hid as [-> Hroom].
  destruct (Seed.new_rating _ _ _ _ db) as [row|c]; [done | by right].
Qed.

Lemma new_rating_ok id user_id store_id rating db row :
  Seed.new_rating id user_id store_id rating db = Ok row ->
  r_id row = id /\ user_id = Some (r_user_id row) /\
  store_id = Some (r_store_id row) /\ rating = Some (r_rating row) /\
  check_rating (r_rating row) = true /\
  (id ∉ r_id <$> ratings db) /\ (pair_of row ∉ pair_of <$> ratings db) /\
  (r_user_id row ∈ u_id <$> users db) /\ (r_store_id row ∈ s_id <$> stores db).
Proof.
  unfold Seed.new_rating, mbind, result_bind, mret, result_ret, not_null, require.
  intros H. repeat case_match; simplify_eq. simpl.
  repeat match goal with
         | H : bool_decide _ = true |- _ => apply bool_decide_eq_true in H
         end.
  done.
Qed.

Lemma insert_rating_ok user_id store_id rating db row db' :
  Seed.insert_rating user_id store_id rating db = (Ok row, db') ->
  Seed.new_rating (ratings_id_seq db) user_id store_id rating db = Ok row /\
  users db' = users db /\ stores db' = stores db /\
  ratings db' = ratings db ++ [row] /\ users_id_seq db' = users_id_seq db /\
  stores_id_seq db' = stores_id_seq db /\
  ratings_id_seq db' = ratings_id_seq db + 1.
Proof.
  intros H. pose proof (insert_rating_outcome user_id store_id rating db) as Ho.
  rewrite H in Ho. by destruct Ho as (Hnew & _ & ->).
Qed.




Section WithExternals.
Context (E : Externals).




(** What the statements of the script have done when none has failed. *)
Lemma statements_done s db db' :
  Seed.statements E s db = (Ok tt, db') ->
  exists us ss rs,
    users db' = users db ++ us /\ stores db' = stores db ++ ss /\
    ratings db' = ratings db ++ rs /\
    u_email <$> us = ["admin@app.com"; "jane@user.com"; "megamart@owner.com";
                      "qs@owner.com"; "alice@test.com"; "bob@test.com"] /\
    u_role <$> us = ["admin"; "user"; "store_owner"; "store_owner"; "user"; "user"] /\
    s_email <$> ss = ["megamart@store.com"; "quickstop@store.com"] /\
    r_rating <$> rs = [5; 4; 5; 3] /\
    (u_email <$> us) ## (u_email <$> users db).
Proof.
  intros H. unfold Seed.statements, Seed.and_then, Seed.hash in H.
  destruct (bcrypt_hash E (Seed.salt_admin s) _) as [h1|]; [|done].
  destruct (bcrypt_hash E (Seed.salt_user s) _) as [h2|]; [|done].
  destruct (bcrypt_hash E (Seed.salt_store s) _) as [h3|]; [|done].
  destruct (insert_user _ _ _ _ _ db) as [[u1|c] db1] eqn:H1; [|done].
  destruct (insert_user _ _ _ _ _ db1) as [[u2|c] db2] eqn:H2; [|done].
  destruct (insert_user _ _ _ _ _ db2) as [[u3|c] db3] eqn:H3; [|done].
  destruct (insert_user _ _ _ _ _ db3) as [[u4|c] db4] eqn:H4; [|done].
  destruct (insert_user _ _ _ _ _ db4) as [[u5|c] db5] eqn:H5; [|done].
  destruct (insert_user _ _ _ _ _ db5) as [[u6|c] db6] eqn:H6; [|done].
  cbv zeta in H.
  destruct (insert_store _ _ _ _ db6) as [[s1|c] db7] eqn:H7; [|done].
  destruct (insert_store _ _ _ _ db7) as [[s2|c] db8] eqn:H8; [|done].
  destruct (Seed.insert_rating _ _ _ db8) as [[r1|c] db9] eqn:H9; [|done].
  destruct (Seed.insert_rating _ _ _ db9) as [[r2|c] db10] eqn:H10; [|done].
  destruct (Seed.insert_rating _ _ _ db10) as [[r3|c] db11] eqn:H11; [|done].
  destruct (Seed.insert_rating _ _ _ db11) as [[r4|c] db12] eqn:H12; [|done].
  injection H as <-.
  apply insert_user_ok in H1 as (N1 & U1 & S1 & R1 & _).
  apply insert_user_ok in H2 as (N2 & U2 & S2 & R2 & _).
  apply insert_user_ok in H3 as (N3 & U3 & S3 & R3 & _).
  apply insert_user_ok in H4 as (N4 & U4 & S4 & R4 & _).
  apply insert_user_ok in H5 as (N5 & U5 & S5 & R5 & _).
  apply insert_user_ok in H6 as (N6 & U6 & S6 & R6 & _).
  apply insert_store_ok in H7 as (N7 & U7 & S7 & R7 & _).
  apply insert_store_ok in H8 as (N8 & U8 & S8 & R8 & _).
  apply insert_rating_ok in H9 as (N9 & U9 & S9 & R9 & _).
  apply insert_rating_ok in H10 as (N10 & U10 & S10 & R10 & _).
  apply insert_rating_ok in H11 as (N11 & U11 & S11 & R11 & _).
  apply insert_rating_ok in H12 as (N12 & U12 & S12 & R12 & _).
  apply new_user_ok in N1 as (_ & _ & E1 & _ & L1 & _ & _ & _ & _ & _ & F1).
  apply new_user_ok in N2 as (_ & _ & E2 & _ & L2 & _ & _ & _ & _ & _ & F2).
  apply new_user_ok in N3 as (_ & _ & E3 & _ & L3 & _ & _ & _ & _ & _ & F3).
  apply new_user_ok in N4 as (_ & _ & E4 & _ & L4 & _ & _ & _ & _ & _ & F4).
  apply new_user_ok in N5 as (_ & _ & E5 & _ & L5 & _ & _ & _ & _ & _ & F5).
  apply new_user_ok in N6 as (_ & _ & E6 & _ & L6 & _ & _ & _ & _ & _ & F6).
  apply new_store_ok in N7 as (_ & _ & E7 & _).
  apply new_store_ok in N8 as (_ & _ & E8 & _).
  apply new_rating_ok in N9 as (_ & _ & _ & V9 & _).
  apply new_rating_ok in N10 as (_ & _ & _ & V10 & _).
  apply new_rating_ok in N11 as (_ & _ & _ & V11 & _).
  apply new_rating_ok in N12 as (_ & _ & _ & V12 & _).
  assert (Ok (Some "admin@app.com") = Ok (Some (u_email u1))) as [= M1] by exact E1.
  assert (Ok (Some "jane@user.com") = Ok (Some (u_email u2))) as [= M2] by exact E2.
  assert (Ok (Some "megamart@owner.com") = Ok (Some (u_email u3))) as [= M3] by exact E3.
  assert (Ok (Some "qs@owner.com") = Ok (Some (u_email u4))) as [= M4] by exact E4.
  assert (Ok (Some "alice@test.com") = Ok (Some (u_email u5))) as [= M5] by exact E5.
  assert (Ok (Some "bob@test.com") = Ok (Some (u_email u6))) as [= M6] by exact E6.
  assert (Ok (Some "admin") = Ok (Some (u_role u1))) as [= G1] by exact L1.
  assert (Ok (Some "user") = Ok (Some (u_role u2))) as [= G2] by exact L2.
  assert (Ok (Some "store_owner") = Ok (Some (u_role u3))) as [= G3] by exact L3.
  assert (Ok (Some "store_owner") = Ok (Some (u_role u4))) as [= G4] by exact L4.
  assert (Ok (Some "user") = Ok (Some (u_role u5))) as [= G5] by exact L5.
  assert (Ok (Some "user") = Ok (Some (u_role u6))) as [= G6] by exact L6.
  assert (Ok (Some "megamart@store.com") = Ok (Some (s_email s1))) as [= M7] by exact E7.
  assert (Ok (Some "quickstop@store.com") = Ok (Some (s_email s2))) as [= M8] by exact E8.
  injection V9 as V9. injection V10 as V10. injection V11 as V11. injection V12 as V12.
  exists [u1; u2; u3; u4; u5; u6], [s1; s2], [r1; r2; r3; r4].
  rewrite U12, U11, U10, U9, U8, U7, U6, U5, U4, U3, U2, U1.
  rewrite S12, S11, S10, S9, S8, S7, S6, S5, S4, S3, S2, S1.
  rewrite R12, R11, R10, R9, R8, R7, R6, R5, R4, R3, R2, R1.
  rewrite <- !app_assoc. cbn [fmap list_fmap app].
  rewrite <- M1, <- M2, <- M3, <- M4, <- M5, <- M6, <- M7, <- M8.
  rewrite <- G1, <- G2, <- G3, <- G4, <- G5, <- G6, <- V9, <- V10, <- V11, <- V12.
  split_and!; try done.
  rewrite U1 in F2. rewrite U2, U1 in F3. rewrite U3, U2, U1 in F4.
  rewrite U4, U3, U2, U1 in F5. rewrite U5, U4, U3, U2, U1 in F6.
  repeat (rewrite fmap_app in F2 || rewrite not_elem_of_app in F2).
  repeat (rewrite fmap_app in F3 || rewrite not_elem_of_app in F3).
  repeat (rewrite fmap_app in F4 || rewrite not_elem_of_app in F4).
  repeat (rewrite fmap_app in F5 || rewrite not_elem_of_app in F5).
  repeat (rewrite fmap_app in F6 || rewrite not_elem_of_app in F6).
  rewrite <- M1 in F1. rewrite <- M2 in F2. rewrite <- M3 in F3.
  rewrite <- M4 in F4. rewrite <- M5 in F5. rewrite <- M6 in F6.
  intros e He Hin.
  repeat (apply elem_of_cons in He as [-> | He]; [tauto |]).
  by apply elem_of_nil in He.
Qed.

(** Property X28.  The seed script is all or nothing: when it commits it
    has added its six users, its two stores and its four ratings, in this
    order, after the rows that were there, and none of the six emails was
    in [users] before; when it throws, the three tables are as they
    were. *)
Theorem seeding_is_all_or_nothing s db :
  match (Seed.seedDatabase E s db).1 with
  | Ok _ =>
      exists us ss rs,
        users (Seed.seedDatabase E s db).2 = users db ++ us /\
        stores (Seed.seedDatabase E s db).2 = stores db ++ ss /\
        ratings (Seed.seedDatabase E s db).2 = ratings db ++ rs /\
        u_email <$> us = ["admin@app.com"; "jane@user.com"; "megamart@owner.com";
                          "qs@owner.com"; "alice@test.com"; "bob@test.com"] /\
        u_role <$> us = ["admin"; "user"; "store_owner"; "store_owner"; "user"; "user"] /\
        s_email <$> ss = ["megamart@store.com"; "quickstop@store.com"] /\
        r_rating <$> rs = [5; 4; 5; 3] /\
        (u_email <$> us) ## (u_email <$> users db)
  | Error _ => same_tables db (Seed.seedDatabase E s db).2
  end.
Proof.
  unfold Seed.seedDatabase.
  destruct (Seed.statements E s db) as [[[]|c] db'] eqn:Hs; cbn [fst snd]; [|done].
  by apply statements_done in Hs.
Qed.

(** Property X29.  After the seed script has committed, a second run
    throws and leaves the three tables as the first run left them,
    whatever salts bcrypt draws. *)
Theorem seeding_twice_changes_nothing s s' db db1 :
  Seed.seedDatabase E s db = (Ok tt, db1) ->
  exists code db2,
    Seed.seedDatabase E s' db1 = (Error code, db2) /\ same_tables db1 db2.
Proof.
  unfold Seed.seedDatabase.
  destruct (Seed.statements E s db) as [[[]|c] db'] eqn:Hs; [|done].
  intros [= <-].
  apply statements_done in Hs as (us & ss & rs & Hu & _ & _ & Hemails & _).
  destruct (Seed.statements E s' db') as [[[]|c] db2] eqn:Hs'.
  - exfalso.
    apply statements_done in Hs' as (us' & _ & _ & _ & _ & _ & Hemails' & _ & _ & _ & Hnew).
    apply (Hnew "admin@app.com").
    + rewrite Hemails'. left.
    + rewrite Hu, fmap_app, Hemails. apply elem_of_app. right. left.
  - by exists c, (rollback db' db2).
Qed.

(** An insertion whose parameters the server reads, for which the
    sequence has a value and that every constraint accepts. *)
Lemma insert_user_fits name email password address role db :
  has_nul name = false -> has_nul email = false -> has_nul password = false ->
  text_param address = Ok address ->
  check_name name = true -> (String.length email <= 255)%nat ->
  (String.length password <= 255)%nat -> check_address address = true ->
  check_role role = true -> users_id_seq db <= serial_max ->
  (users_id_seq db ∉ u_id <$> users db) -> (email ∉ u_email <$> users db) ->
  insert_user (Some name) (Some email) (Some password) address (Some role) db
  = (Ok {| u_id := users_id_seq db; u_name := name; u_email := email;
           u_password := password; u_address := address; u_role := role |},
     {| users := users db ++ [{| u_id := users_id_seq db; u_name := name;
                                 u_email := email; u_password := password;
                                 u_address := address; u_role := role |}];
        stores := stores db; ratings := ratings db;
        users_id_seq := users_id_seq db + 1; stores_id_seq := stores_id_seq db;
        ratings_id_seq := ratings_id_seq db |}).
Proof.
  intros Nname Nemail Npw Naddr Hname Hemail Hpw Haddr Hrole Hroom Hid Hnew.
  assert (Hr20 : (String.length role <= 20)%nat /\ has_nul role = false).
  { pose proof Hrole as Hin. unfold check_role in Hin.
    apply bool_decide_eq_true in Hin.
    repeat (apply elem_of_cons in Hin as [-> | Hin]; [split; [simpl; lia | done] |]).
    by apply elem_of_nil in Hin. }
  destruct Hr20 as [Hr20 Nrole].
  assert (Hn60 : (String.length name <= 60)%nat).
  { unfold check_name in Hname. apply andb_true_iff in Hname as [_ H].
    by apply Nat.leb_le in H. }
  unfold insert_user.
  rewrite ProvisioningFacts.user_values_fit, nextval_room by done.
  unfold new_user, mbind, result_bind, mret, result_ret, not_null, require.
  rewrite Hname, Haddr, Hrole, !bool_decide_true by done. done.
Qed.

Lemma insert_store_fits name email address owner db :
  has_nul name = false -> has_nul email = false ->
  text_param address = Ok address ->
  check_name name = true -> (String.length email <= 255)%nat ->
  check_address address = true -> stores_id_seq db <= serial_max ->
  (stores_id_seq db ∉ s_id <$> stores db) -> (email ∉ s_email <$> stores db) ->
  (owner ∉ s_owner_id <$> stores db) -> (owner ∈ u_id <$> users db) ->
  insert_store (Some name) (Some email) address (Some owner) db
  = (Ok {| s_id := stores_id_seq db; s_name := name; s_email := email;
           s_address := address; s_owner_id := owner |},
     {| users := users db;
        stores := stores db ++ [{| s_id := stores_id_seq db; s_name := name;
                                   s_email := email; s_address := address;
                                   s_owner_id := owner |}];
        ratings := ratings db;
        users_id_seq := users_id_seq db; stores_id_seq := stores_id_seq db + 1;
        ratings_id_seq := ratings_id_seq db |}).
Proof.
  intros Nname Nemail Naddr Hname Hemail Haddr Hroom Hid Hnew Hown Hfk.
  assert (Hn60 : (String.length name <= 60)%nat).
  { unfold check_name in Hname. apply andb_true_iff in Hname as [_ H].
    by apply Nat.leb_le in H. }
  unfold insert_store.
  rewrite ProvisioningFacts.store_values_fit, nextval_room by done.
  unfold new_store, mbind, result_bind, mret, result_ret, not_null, require.
  rewrite Hname, Haddr, !bool_decide_true by done. done.
Qed.

Lemma insert_rating_fits user store value db :
  check_rating value = true -> ratings_id_seq db <= serial_max ->
  (ratings_id_seq db ∉ r_id <$> ratings db) ->
  ((user, store) ∉ pair_of <$> ratings db) ->
  (user ∈ u_id <$> users db) -> (store ∈ s_id <$> stores db) ->
  Seed.insert_rating (Some user) (Some store) (Some value) db
  = (Ok {| r_id := ratings_id_seq db; r_user_id := user; r_store_id := store;
           r_rating := value |},
     {| users := users db; stores := stores db;
        ratings := ratings db ++ [{| r_id := ratings_id_seq db; r_user_id := user;
                                     r_store_id := store; r_rating := value |}];
        users_id_seq := users_id_seq db; stores_id_seq := stores_id_seq db;
        ratings_id_seq := ratings_id_seq db + 1 |}).
Proof.
  intros Hv Hroom Hid Hpair Hu Hs. unfold Seed.insert_rating.
  rewrite nextval_room by done. unfold Seed.new_rating.
  unfold mbind, result_bind, mret, result_ret, not_null, require.
  rewrite Hv, !bool_decide_true by done. done.
Qed.

Ltac accepted :=
  first [ done | by vm_compute | apply (bool_decide_unpack _); by vm_compute ].

(** Property X27.  On a schema that has just been created, the seed
    script commits and leaves exactly the data that the comment of
    db/seed.sql describes: users 1 to 6, the stores 1 and 2 of users 3 and
    4, and the four ratings, provided the three hashes are texts the
    column takes: they fit its length and hold no code unit 0. *)
Theorem seeding_a_new_schema s db h1 h2 h3 :
  bcrypt_hash E (Seed.salt_admin s) (JStr "Admin@123") = Some h1 ->
  bcrypt_hash E (Seed.salt_user s) (JStr "User@123") = Some h2 ->
  bcrypt_hash E (Seed.salt_store s) (JStr "Store@123") = Some h3 ->
  (String.length h1 <= 255)%nat -> (String.length h2 <= 255)%nat ->
  (String.length h3 <= 255)%nat ->
  has_nul h1 = false -> has_nul h2 = false -> has_nul h3 = false ->
  Seed.seedDatabase E s (Seed.schema_sql db) = (Ok tt, Seed.seeded h1 h2 h3).
Proof.
  intros H1 H2 H3 L1 L2 L3 N1 N2 N3.
  unfold Seed.seedDatabase, Seed.statements, Seed.and_then, Seed.hash.
  rewrite H1, H2, H3.
  do 6 (rewrite insert_user_fits by accepted; cbv beta iota zeta;
        cbn [u_id users stores ratings users_id_seq stores_id_seq ratings_id_seq]).
  do 2 (rewrite insert_store_fits by accepted; cbv beta iota zeta;
        cbn [s_id users stores ratings users_id_seq stores_id_seq ratings_id_seq]).
  do 4 (rewrite insert_rating_fits by accepted; cbv beta iota zeta;
        cbn [users stores ratings users_id_seq stores_id_seq ratings_id_seq]).
  reflexivity.
Qed.

End WithExternals.

End SeedFacts.

(** ** The range of the average shown *)

Module RangeFacts.
Import Js Client Spec AverageFacts.

(** Property X21.  For ratings between 1 and 5, the average shown for a
    store is [0.0] when it has no rating and otherwise the numeral of a
    number of tenths between [1.0] and [5.0]. *)
Theorem average_is_between_one_and_five E storeRatings :
  Forall (fun r => 1 <= rating r <= 5) storeRatings ->
  Z.of_nat (length storeRatings) < 2 ^ 32 ->
  (storeRatings = [] /\ averageRating E storeRatings = "0.0") \/
  (exists n, 10 <= n <= 50 /\ averageRating E storeRatings = tenths n).
Proof.
  intros Hall Hlen. destruct storeRatings as [|r l] eqn:Hl; [by left |].
  right. rewrite <- Hl in *.
  assert (Hne : storeRatings <> []) by (by rewrite Hl).
  destruct (average_of E storeRatings Hne Hall Hlen) as (n & Hout & Hn).
  exists n. split.
  - pose proof (total_bounds storeRatings Hall) as Hs.
    unfold total in Hs. rewrite length_fmap in Hn.
    assert (0 < Z.of_nat (length storeRatings)) by (rewrite Hl; simpl; lia).
    nia.
  - unfold averageRating. rewrite Hl at 1. simpl Nat.ltb. cbv iota. exact Hout.
Qed.

End RangeFacts.

(** ** The properties on the examples *)

Module ExampleFacts.
Import Js Pg Server Schema Words.

Lemma sample_well_formed : well_formed Examples.rated_db.
Proof.
  unfold well_formed, users_consistent, stores_consistent, ratings_consistent,
    ratings_refer.
  split_and!;
    try (apply (bool_decide_unpack _); by vm_compute);
    intros x Hx;
    repeat (apply elem_of_cons in Hx as [-> | Hx]);
    try (by apply elem_of_nil in Hx);
    split_and?; try done; try (by vm_compute);
    try (apply (bool_decide_unpack _); by vm_compute).
Qed.

Ltac by_computation := apply (bool_decide_unpack _); by vm_compute.


Lemma scheme_word_is_not_checked_witness :
  bearer_token Examples.basic_scheme = Some Examples.jane_token /\
  authenticateToken Sample.E Examples.basic_scheme
  = inr (Sample.payload_of Sample.jane).
Proof.
  apply (TextFacts.scheme_word_is_not_checked Sample.E Examples.basic_scheme
           "Basic" Examples.jane_token); [by_computation | by_computation | done |].
  reflexivity.
Defined.

Lemma bare_token_is_401_witness :
  serve Sample.E GetUsers Examples.bare Sample.db
  = (message 401 "Access token required", Sample.db).
Proof.
  apply (TextFacts.bare_token_is_401 Sample.E GetUsers Examples.bare Sample.db
           Examples.jane_token); [reflexivity | reflexivity | by_computation].
Defined.


Lemma signup_creates_a_user_witness :
  exists row,
    users (signup Sample.E Examples.newcomer Sample.db).2 = users Sample.db ++ [row] /\
    u_id row = 4 /\ u_role row = "user" /\ u_email row = "carol@user.com".
Proof.
  destruct (AccountFacts.signup_creates_a_user Sample.E Examples.newcomer Sample.db)
    as (row & h & _ & Hu & _ & _ & Hid & Hrole & Hemail & _); [reflexivity |].
  exists row. split_and!; done.
Defined.

Lemma administrator_creates_admin_or_user_witness :
  exists row,
    users (add_user Sample.E Examples.second_admin Sample.db).2
    = users Sample.db ++ [row] /\
    field Examples.second_admin "role" = JStr (u_role row).
Proof.
  destruct (AccountFacts.administrator_creates_admin_or_user Sample.E
              Examples.second_admin Sample.db)
    as (row & _ & Hu & _ & _ & _ & Hrole & _); [reflexivity |].
  exists row. split_and!; done.
Defined.

Lemma signup_then_login_witness :
  exists row,
    users (signup Sample.E Examples.newcomer Sample.db).2 = users Sample.db ++ [row] /\
    u_email row = "carol@user.com" /\ u_role row = "user" /\
    (login Sample.E Examples.newcomer_login
       (signup Sample.E Examples.newcomer Sample.db).2).1
    = {| status := 200;
         body := Json (<[ "token" := token_for Sample.E Examples.newcomer_login
                                       (u_id row) "carol@user.com" "user" ]>
                         (delete "password" (login_row row))) |}.
Proof.
  apply (AccountFacts.signup_then_login Sample.E Examples.newcomer
           Examples.newcomer_login Sample.db "carol@user.com");
    [reflexivity | reflexivity | reflexivity | reflexivity |].
  intros h [= <-]. split; [by_computation | reflexivity].
Defined.

Lemma only_the_own_password_witness :
  filter (fun u => u_id u <> 2)
    (users (serve Sample.E PutPassword Examples.jane_changes_password Sample.db).2)
  = filter (fun u => u_id u <> 2) (users Sample.db).
Proof.
  apply (EffectFacts.only_the_own_password Sample.E Examples.jane_changes_password
           Sample.db (Sample.payload_of Sample.jane)); [reflexivity | done |].
  intros z [= <-]. reflexivity.
Defined.

Lemma ratings_of_others_are_untouched_witness :
  filter (fun r => r_user_id r <> 2)
    (ratings (serve Sample.E PostRatings (Sample.jane_rates (JInt 1))
                Examples.rated_db).2)
  = filter (fun r => r_user_id r <> 2) (ratings Examples.rated_db).
Proof.
  apply (EffectFacts.ratings_of_others_are_untouched Sample.E
           (Sample.jane_rates (JInt 1)) Examples.rated_db
           (Sample.payload_of Sample.jane)).
  reflexivity.
Defined.

Lemma unknown_store_is_not_rated_witness :
  status (serve Sample.E PostRatings Examples.jane_rates_store_7 Examples.rated_db).1
  <> 201 /\
  ratings (serve Sample.E PostRatings Examples.jane_rates_store_7 Examples.rated_db).2
  = ratings Examples.rated_db.
Proof.
  apply (EffectFacts.unknown_store_is_not_rated Sample.E Examples.jane_rates_store_7
           Examples.rated_db (Sample.payload_of Sample.jane) 7);
    [apply sample_well_formed | reflexivity | reflexivity | by_computation].
Defined.

Lemma failed_requests_change_no_table_witness :
  same_tables Examples.rated_db
    (serve Sample.E PostRatings Examples.jane_rates_store_7 Examples.rated_db).2.
Proof.
  apply (EffectFacts.failed_requests_change_no_table Sample.E PostRatings
           Examples.jane_rates_store_7 Examples.rated_db); by vm_compute.
Defined.

Lemma users_are_listed_once_in_order_witness :
  exists sorted,
    sorted ≡ₚ users Sample.db /\ StronglySorted (key_le u_id) sorted /\
    serve Sample.E GetUsers (Sample.request_of Sample.jane []) Sample.db
    = ({| status := 200; body := JsonList (Listing.user_entry Sample.db <$> sorted) |},
       Sample.db).
Proof.
  apply (ListingFacts.users_are_listed_once_in_order Sample.E
           (Sample.request_of Sample.jane []) Sample.db
           (Sample.payload_of Sample.jane)); [by_computation | reflexivity].
Defined.

Lemma ratings_are_listed_once_in_order_witness :
  exists sorted entries,
    sorted ≡ₚ ratings Examples.rated_db /\ StronglySorted (key_le r_id) sorted /\
    serve Sample.E GetRatings (Sample.request_of Sample.jane []) Examples.rated_db
    = ({| status := 200; body := JsonList entries |}, Examples.rated_db) /\
    Forall2 (fun r o => exists u, u ∈ users Examples.rated_db /\
                                  u_id u = r_user_id r /\
                                  o = Listing.rating_entry r (u_email u))
            sorted entries.
Proof.
  apply (ListingFacts.ratings_are_listed_once_in_order Sample.E
           (Sample.request_of Sample.jane []) Examples.rated_db
           (Sample.payload_of Sample.jane));
    [by_computation | apply sample_well_formed | reflexivity].
Defined.

Lemma login_token_is_accepted_witness :
  exists row,
    row ∈ users Sample.db /\
    pg_text Sample.E (field (Examples.jane_login "User@123") "email")
    = Some (u_email row) /\
    authenticateToken Sample.E Examples.jane_session = inr (payload row).
Proof.
  apply (SessionFacts.login_token_is_accepted Sample.E (Examples.jane_login "User@123")
           Sample.db Examples.jane_session Examples.jane_answer
           (Sample.sign 100 (Sample.payload_of Sample.jane)));
    [reflexivity | reflexivity | reflexivity | by_computation | done |].
  intros row Hrow.
  repeat (apply elem_of_cons in Hrow as [-> | Hrow]); try reflexivity.
  by apply elem_of_nil in Hrow.
Defined.

Lemma new_owner_can_log_in_witness :
  exists owner store,
    users (add_store Sample.E Examples.quickstop Sample.db).2
    = users Sample.db ++ [owner] /\
    stores (add_store Sample.E Examples.quickstop Sample.db).2
    = stores Sample.db ++ [store] /\
    s_owner_id store = u_id owner /\
    (login Sample.E Examples.quickstop_login
       (add_store Sample.E Examples.quickstop Sample.db).2).1
    = {| status := 200;
         body := Json (<[ "token" := token_for Sample.E Examples.quickstop_login
                                       (u_id owner) "quickstop@store.com"
                                       "store_owner" ]>
                         (<[ "storeId" := JInt (s_id store) ]>
                            (delete "password" (login_row owner)))) |}.
Proof.
  apply (SessionFacts.new_owner_can_log_in Sample.E Examples.quickstop
           Examples.quickstop_login Sample.db "quickstop@store.com");
    [reflexivity | reflexivity | reflexivity | reflexivity |].
  intros h [= <-]. split; [by_computation | reflexivity].
Defined.

Lemma login_after_password_update_witness :
  status (login Sample.E (Examples.jane_login "Janes@456")
            (put_password Sample.E (Sample.payload_of Sample.jane)
               Examples.jane_changes_password Sample.db).2).1 = 200.
Proof.
  apply (SessionFacts.login_after_password_update Sample.E
           (Sample.payload_of Sample.jane) Examples.jane_changes_password
           (Examples.jane_login "Janes@456") Sample.db Sample.jane 2
           "$2b$10$s$Janes@456").
  - by_computation.
  - right. left.
  - reflexivity.
  - reflexivity.
  - reflexivity.
  - reflexivity.
  - reflexivity.
  - by_computation.
  - reflexivity.
  - done.
  - reflexivity.
  - reflexivity.
Defined.

Lemma token_survives_reload_witness :
  (Frontend.getAuthToken
     (Frontend.setAuthToken Sample.E (JStr "abc") Examples.browser)).1 = JStr "abc" /\
  (Frontend.getAuthToken
     (Frontend.loaded
        (Frontend.localStorage
           (Frontend.setAuthToken Sample.E (JStr "abc") Examples.browser)))).1
  = JStr "abc" /\
  (Frontend.getAuthToken (Frontend.logout Sample.E Examples.browser)).1 = JNull /\
  (Frontend.getAuthToken
     (Frontend.loaded
        (Frontend.localStorage (Frontend.logout Sample.E Examples.browser)))).1
  = JNull.
Proof.
  apply (FrontendFacts.token_survives_reload Sample.E Examples.browser "abc"). done.
Defined.

Lemma a_failed_call_throws_the_message_of_the_server_witness :
  (exists data,
     (status (Frontend.request Sample.E GetUsers ∅ "" Examples.later None Sample.db).1
      = 200 \/
      status (Frontend.request Sample.E GetUsers ∅ "" Examples.later None Sample.db).1
      = 201) /\
     Frontend.parsed
       (body (Frontend.request Sample.E GetUsers ∅ "" Examples.later None Sample.db).1)
     = Some data /\
     (Frontend.apiCall Sample.E (Frontend.request Sample.E GetUsers ∅ "" Examples.later)
        Examples.browser Sample.db).1.1 = Frontend.Returned data) \/
  (exists code msg,
     (Frontend.request Sample.E GetUsers ∅ "" Examples.later None Sample.db).1
     = message code msg /\ msg <> "" /\
     (code = 400 \/ code = 401 \/ code = 403 \/ code = 500) /\
     (Frontend.apiCall Sample.E (Frontend.request Sample.E GetUsers ∅ "" Examples.later)
        Examples.browser Sample.db).1.1 = Frontend.Thrown msg).
Proof.
  apply (FrontendFacts.a_failed_call_throws_the_message_of_the_server Sample.E
           GetUsers ∅ "" Examples.later Examples.browser Sample.db).
  done.
Defined.

Lemma logout_closes_the_session_witness :
  Frontend.apiCall Sample.E (Frontend.request Sample.E GetUsers ∅ "" Examples.later)
    (Frontend.logout Sample.E Examples.jane_logged_in.1.2) Sample.db
  = (Frontend.Thrown "Access token required",
     Frontend.logout Sample.E Examples.jane_logged_in.1.2, Sample.db).
Proof.
  apply (FrontendFacts.logout_closes_the_session Sample.E GetUsers ∅ ""
           Examples.later Examples.jane_logged_in.1.2 Sample.db).
  reflexivity.
Defined.

Lemma login_opens_a_session_witness :
  Examples.jane_logged_in.2 = Sample.db /\
  Frontend.getUsers Sample.E Examples.later Examples.jane_logged_in.1.2 Sample.db
  = (Frontend.Returned
       (JsonList (Frontend.json <$>
                    (ascending u_id (users Sample.db) ≫= users_row Sample.db))),
     Examples.jane_logged_in.1.2, Sample.db).
Proof.
  apply (FrontendFacts.login_opens_a_session Sample.E (JStr "jane@user.com")
           (JStr "User@123") Examples.at_login Examples.later Examples.browser
           Sample.db Examples.jane_data Examples.jane_logged_in.1.2
           Examples.jane_logged_in.2); [reflexivity |].
  intros row Hrow.
  repeat (apply elem_of_cons in Hrow as [-> | Hrow]);
    try (split_and!; [done | by_computation | reflexivity]).
  by apply elem_of_nil in Hrow.
Defined.

Lemma a_form_that_passes_is_not_rejected_for_its_fields_witness :
  exists result,
    Frontend.handleAddUser Sample.E Examples.user_form Examples.later
      Examples.admin_browser Sample.db = Some result /\
    ((exists data, result.1.1 = Frontend.Returned data) \/
     exists m, result.1.1 = Frontend.Thrown m /\
       m ∈ ["Access token required"; "Invalid or expired token";
            "Admin access required"; "Invalid role. Must be admin or user.";
            "Email already exists"; "Server error adding user."]).
Proof.
  apply (FrontendFacts.a_form_that_passes_is_not_rejected_for_its_fields Sample.E
           Examples.user_form Examples.later Examples.admin_browser Sample.db).
  - unfold Examples.user_form.
    repeat (apply map_Forall_insert_2; [by eexists |]).
    apply map_Forall_empty.
  - reflexivity.
Defined.


Lemma seeding_a_new_schema_witness :
  Seed.seedDatabase Sample.E Examples.salts (Seed.schema_sql Sample.db)
  = (Ok tt, Examples.seeded).
Proof.
  apply (SeedFacts.seeding_a_new_schema Sample.E Examples.salts Sample.db);
    first [ reflexivity | by_computation ].
Defined.

Lemma seeding_twice_changes_nothing_witness :
  exists code db2,
    Seed.seedDatabase Sample.E Examples.salts Examples.seeded = (Error code, db2) /\
    same_tables Examples.seeded db2.
Proof.
  apply (SeedFacts.seeding_twice_changes_nothing Sample.E Examples.salts
           Examples.salts (Seed.schema_sql Sample.db) Examples.seeded).
  reflexivity.
Defined.

Lemma average_is_between_one_and_five_witness :
  (Sample.rated [5; 4] = [] /\
   Client.averageRating Sample.E (Sample.rated [5; 4]) = "0.0") \/
  (exists n, 10 <= n <= 50 /\
             Client.averageRating Sample.E (Sample.rated [5; 4]) = Spec.tenths n).
Proof.
  apply (RangeFacts.average_is_between_one_and_five Sample.E (Sample.rated [5; 4])).
  - repeat constructor; simpl; lia.
  - vm_compute. reflexivity.
Defined.

End ExampleFacts.
